(** * dsk2woz2: a shallow embedding of the DSK to WOZ2 converter

    The C program [dsk2woz2.c] is translated function by function.  C
    integers are modelled as [Z] with every narrowing store written out,
    byte arrays as [list Z], and an access outside an array (undefined
    behaviour in C) as [None] in the option monad. *)

From Stdlib Require Import ZArith Lia List.
From stdpp Require Import base option list.

Open Scope Z_scope.

(* [lia] also decides goals with division and remainder by a constant. *)
Ltac Zify.zify_post_hook ::= Z.to_euclidean_division_equations.

(** ** Integer conversions of the C types *)

Definition to_uint8 (x : Z) : Z := x mod 256.
Definition to_uint16 (x : Z) : Z := x mod 65536.
Definition to_uint32 (x : Z) : Z := x mod 4294967296.

Definition is_byte (x : Z) : Prop := 0 ≤ x < 256.

(** ** Arrays

    [load a i] is the C expression [a[i]] and [store a i v] the assignment
    [a[i] = v]; both fail outside the array. *)

Definition load (a : list Z) (i : Z) : option Z :=
  if 0 <=? i then a !! Z.to_nat i else None.

Definition store (a : list Z) (i v : Z) : option (list Z) :=
  if (0 <=? i) && (i <? Z.of_nat (length a))
  then Some (<[Z.to_nat i := v]> a) else None.

(** ** Loops

    [for_loop i n body s] runs [body i], [body (i+1)], ... [n] times;
    [for_range lo hi] is [for (c = lo; c < hi; c++)]. *)

Fixpoint for_loop {St : Type} (i : Z) (n : nat) (body : Z → St → option St)
    (s : St) : option St :=
  match n with
  | O => Some s
  | S n' => s' ← body i s; for_loop (i + 1) n' body s'
  end.

Definition for_range {St : Type} (lo hi : Z) (body : Z → St → option St)
    (s : St) : option St :=
  for_loop lo (Z.to_nat (hi - lo)) body s.

(** [while_loop fuel cond body s] is [while (cond) body]; it fails when the
    fuel runs out before the condition turns false. *)

Fixpoint while_loop {St : Type} (fuel : nat) (cond : St → bool)
    (body : St → option St) (s : St) : option St :=
  if cond s then
    match fuel with
    | O => None
    | S fuel' => s' ← body s; while_loop fuel' cond body s'
    end
  else Some s.

(** ** Constants *)

Definition TRACKS_PER_DISK : Z := 35.
Definition SECTORS_PER_TRACK : Z := 16.
Definition BYTES_PER_SECTOR : Z := 256.
Definition BYTES_PER_TRACK : Z := SECTORS_PER_TRACK * BYTES_PER_SECTOR.
Definition DSK_IMAGE_SIZE : Z := TRACKS_PER_DISK * BYTES_PER_TRACK.

Definition BITS_BLOCKS_PER_TRACK : Z := 13.
Definition BITS_BLOCK_SIZE : Z := 512.
Definition BITS_TRACK_SIZE : Z := BITS_BLOCKS_PER_TRACK * BITS_BLOCK_SIZE.
Definition BITS_SECTOR_CONTENTS_SIZE : Z := 343.
Definition WOZ_HEADER_SIZE : Z := 12.

Definition DOS_VOLUME_NUMBER : Z := 254.
Definition TRACK_LEADER_SYNC_COUNT : Z := 64.

Inductive dsk_sector_format : Type :=
  | dsk_sector_format_dos_3_3
  | dsk_sector_format_prodos.

(** ** Bit writer *)

Definition bits_write_byte (buffer : list Z) (index value : Z)
    : option (list Z * Z) :=
  let shift := Z.land index 7 in
  let byte_position := Z.shiftr index 3 in
  old ← load buffer byte_position;
  buffer ← store buffer byte_position
             (to_uint8 (Z.lor old (Z.shiftr value shift)));
  buffer ← (if shift =? 0 then Some buffer
            else
              old1 ← load buffer (byte_position + 1);
              store buffer (byte_position + 1)
                (to_uint8 (Z.lor old1 (Z.shiftl value (8 - shift)))));
  Some (buffer, index + 8).

Definition bits_write_4_and_4 (buffer : list Z) (index value : Z)
    : option (list Z * Z) :=
  '(buffer, index) ← bits_write_byte buffer index (Z.lor (Z.shiftr value 1) 170);
  '(buffer, index) ← bits_write_byte buffer index (Z.lor value 170);
  Some (buffer, index).

Definition bits_write_sync (buffer : list Z) (index : Z)
    : option (list Z * Z) :=
  '(buffer, index) ← bits_write_byte buffer index 255;
  Some (buffer, index + 2).

(** The bit at position [p] of a buffer whose bytes are addressed most
    significant bit first. *)
Definition buf_bit (buffer : list Z) (p : Z) : bool :=
  match load buffer (Z.shiftr p 3) with
  | Some b => Z.testbit b (7 - Z.land p 7)
  | None => false
  end.

(** ** Pointers and block operations

    [ptr_add a k] is the C pointer [&a[k]] seen as the array that starts
    there; [memset] and [memcpy] fail when the range leaves the array. *)

Definition ptr_add (a : list Z) (k : Z) : list Z := drop (Z.to_nat k) a.

Definition memset (dest : list Z) (c n : Z) : option (list Z) :=
  if (0 <=? n) && (n <=? Z.of_nat (length dest))
  then Some (replicate (Z.to_nat n) (to_uint8 c) ++ drop (Z.to_nat n) dest)
  else None.

Definition memcpy (dest : list Z) (off : Z) (src : list Z) (n : Z)
    : option (list Z) :=
  if (0 <=? off) && (0 <=? n) && (off + n <=? Z.of_nat (length dest))
     && (n <=? Z.of_nat (length src))
  then Some (take (Z.to_nat off) dest ++ take (Z.to_nat n) src
             ++ drop (Z.to_nat (off + n)) dest)
  else None.

(** ** Little- and big-endian writers; [off] is the offset of the pointer
    [dest] inside the array it points into. *)

Definition write_uint8 (dest : list Z) (off value : Z) : option (list Z) :=
  store dest off (to_uint8 value).

Definition write_uint16 (dest : list Z) (off value : Z) : option (list Z) :=
  dest ← store dest off (Z.land value 255);
  store dest (off + 1) (Z.land (Z.shiftr value 8) 255).

Definition write_uint32 (dest : list Z) (off value : Z) : option (list Z) :=
  dest ← store dest off (Z.land value 255);
  dest ← store dest (off + 1) (Z.land (Z.shiftr value 8) 255);
  dest ← store dest (off + 2) (Z.land (Z.shiftr value 16) 255);
  store dest (off + 3) (Z.land (Z.shiftr value 24) 255).

Definition write_uint32_be (dest : list Z) (off value : Z) : option (list Z) :=
  dest ← store dest off (Z.land (Z.shiftr value 24) 255);
  dest ← store dest (off + 1) (Z.land (Z.shiftr value 16) 255);
  dest ← store dest (off + 2) (Z.land (Z.shiftr value 8) 255);
  store dest (off + 3) (Z.land value 255).

(** A C string is the list of its character codes, without the final NUL. *)
Definition write_utf8 (dest : list Z) (off : Z) (utf8string : list Z) (n : Z)
    : option (list Z) :=
  let l := Z.of_nat (length utf8string) in
  for_range 0 n (λ i dest,
    if i <? l then c ← load utf8string i; store dest (off + i) (to_uint8 c)
    else store dest (off + i) 32) dest.

(** ** Sector encoder *)

Definition six_and_two_mapping : list Z :=
  [ 0x96; 0x97; 0x9a; 0x9b; 0x9d; 0x9e; 0x9f; 0xa6;
    0xa7; 0xab; 0xac; 0xad; 0xae; 0xaf; 0xb2; 0xb3;
    0xb4; 0xb5; 0xb6; 0xb7; 0xb9; 0xba; 0xbb; 0xbc;
    0xbd; 0xbe; 0xbf; 0xcb; 0xcd; 0xce; 0xcf; 0xd3;
    0xd6; 0xd7; 0xd9; 0xda; 0xdb; 0xdc; 0xdd; 0xde;
    0xdf; 0xe5; 0xe6; 0xe7; 0xe9; 0xea; 0xeb; 0xec;
    0xed; 0xee; 0xef; 0xf2; 0xf3; 0xf4; 0xf5; 0xf6;
    0xf7; 0xf9; 0xfa; 0xfb; 0xfc; 0xfd; 0xfe; 0xff ].

Definition bit_reverse : list Z := [0; 2; 1; 3].

(** The body of [encode_6_and_2] up to, but not including, the final table
    lookup: the bottom-two-bit bytes, the six-bit bytes, the duplicated last
    byte and the exclusive-or pass. *)
Definition encode_6_and_2_fill (dest src : list Z) : option (list Z) :=
  dest ← for_range 0 84 (λ c dest,
    s0 ← load src c; s1 ← load src (c + 86); s2 ← load src (c + 172);
    r0 ← load bit_reverse (Z.land s0 3);
    r1 ← load bit_reverse (Z.land s1 3);
    r2 ← load bit_reverse (Z.land s2 3);
    store dest c
      (to_uint8 (Z.lor (Z.lor r0 (Z.shiftl r1 2)) (Z.shiftl r2 4)))) dest;
  s0 ← load src 84; s1 ← load src 170;
  r0 ← load bit_reverse (Z.land s0 3);
  r1 ← load bit_reverse (Z.land s1 3);
  dest ← store dest 84 (to_uint8 (Z.lor (Z.shiftl r0 0) (Z.shiftl r1 2)));
  s0 ← load src 85; s1 ← load src 171;
  r0 ← load bit_reverse (Z.land s0 3);
  r1 ← load bit_reverse (Z.land s1 3);
  dest ← store dest 85 (to_uint8 (Z.lor (Z.shiftl r0 0) (Z.shiftl r1 2)));
  dest ← for_range 0 256 (λ c dest,
    s ← load src c; store dest (86 + c) (to_uint8 (Z.shiftr s 2))) dest;
  (* Exclusive OR each byte with the one before it. *)
  last ← load dest 341;
  dest ← store dest 342 last;
  '(dest, _) ← while_loop 342
    (λ '(_, location), 1 <? location)
    (λ '(dest, location),
      let location := location - 1 in
      a ← load dest location;
      b ← load dest (location - 1);
      dest ← store dest location (to_uint8 (Z.lxor a b));
      Some (dest, location))
    (dest, 342);
  Some dest.

Definition encode_6_and_2 (dest src : list Z) : option (list Z) :=
  dest ← encode_6_and_2_fill dest src;
  (* Map six-bit values up to full bytes. *)
  for_range 0 343 (λ c dest,
    v ← load dest c; m ← load six_and_two_mapping v; store dest c m) dest.

(** ** Track encoder *)

(** Which logical sector goes into physical sector [s]. *)
Definition logical_sector (sector_format : dsk_sector_format) (s : Z) : Z :=
  if s =? 15 then 15
  else
    let multiplier :=
      match sector_format with
      | dsk_sector_format_prodos => 8
      | dsk_sector_format_dos_3_3 => 7
      end in
    Z.rem (s * multiplier) 15.

(** The track encoder threads the pair of the buffer and the bit index:
    [step_byte v] is [bit_index = bits_write_byte(dest, bit_index, v)],
    [step_4_and_4 v] the same with [bits_write_4_and_4], and [step_syncs n]
    the loop that calls [bits_write_sync] [n] times. *)
Definition step_byte (value : Z) : list Z * Z → option (list Z * Z) :=
  λ '(dest, bit_index), bits_write_byte dest bit_index value.

Definition step_4_and_4 (value : Z) : list Z * Z → option (list Z * Z) :=
  λ '(dest, bit_index), bits_write_4_and_4 dest bit_index value.

Definition step_syncs (n : Z) : list Z * Z → option (list Z * Z) :=
  for_range 0 n (λ _ '(dest, bit_index), bits_write_sync dest bit_index).

Section Program.

(** [uninit n] is the content of [n] bytes of storage that the program
    obtains without initialising it (a local array, [malloc]). *)
Variable uninit : nat → list Z.

Definition encode_bits_for_track (dest src : list Z) (track_number : Z)
    (sector_format : dsk_sector_format) : option (list Z * Z) :=
  let bit_index := 0 in
  dest ← memset dest 0 BITS_TRACK_SIZE;
  (* Write 64 sync words *)
  st ← step_syncs TRACK_LEADER_SYNC_COUNT (dest, bit_index);
  for_range 0 SECTORS_PER_TRACK (λ s st,
    (* Sector header: prologue *)
    st ← step_byte 0xD5 st;
    st ← step_byte 0xAA st;
    st ← step_byte 0x96 st;
    (* Volume, track, sector and checksum, all in 4-and-4 format *)
    st ← step_4_and_4 DOS_VOLUME_NUMBER st;
    st ← step_4_and_4 track_number st;
    st ← step_4_and_4 s st;
    st ← step_4_and_4 (Z.lxor (Z.lxor DOS_VOLUME_NUMBER track_number) s) st;
    (* Epilogue *)
    st ← step_byte 0xDE st;
    st ← step_byte 0xAA st;
    st ← step_byte 0xEB st;
    (* Write 7 sync words. *)
    st ← step_syncs 7 st;
    (* Sector body: prologue *)
    st ← step_byte 0xD5 st;
    st ← step_byte 0xAA st;
    st ← step_byte 0xAD st;
    (* Encode the logical sector, then write it. *)
    let encoded_contents := uninit (Z.to_nat BITS_SECTOR_CONTENTS_SIZE) in
    encoded_contents ←
      encode_6_and_2 encoded_contents
        (ptr_add src (logical_sector sector_format s * BYTES_PER_SECTOR));
    st ← for_range 0 BITS_SECTOR_CONTENTS_SIZE (λ i '(dest, bit_index),
           v ← load encoded_contents i;
           bits_write_byte dest bit_index v) st;
    (* Epilogue *)
    st ← step_byte 0xDE st;
    st ← step_byte 0xAA st;
    st ← step_byte 0xEB st;
    (* Conclude the track *)
    if s <? SECTORS_PER_TRACK - 1 then step_syncs 16 st
    else step_byte 0xFF st) st.

End Program.

(** ** CRC routine and table *)

Definition crc32_tab : list Z :=
  [ 0x00000000; 0x77073096; 0xee0e612c; 0x990951ba; 0x076dc419; 0x706af48f;
    0xe963a535; 0x9e6495a3; 0x0edb8832; 0x79dcb8a4; 0xe0d5e91e; 0x97d2d988;
    0x09b64c2b; 0x7eb17cbd; 0xe7b82d07; 0x90bf1d91; 0x1db71064; 0x6ab020f2;
    0xf3b97148; 0x84be41de; 0x1adad47d; 0x6ddde4eb; 0xf4d4b551; 0x83d385c7;
    0x136c9856; 0x646ba8c0; 0xfd62f97a; 0x8a65c9ec; 0x14015c4f; 0x63066cd9;
    0xfa0f3d63; 0x8d080df5; 0x3b6e20c8; 0x4c69105e; 0xd56041e4; 0xa2677172;
    0x3c03e4d1; 0x4b04d447; 0xd20d85fd; 0xa50ab56b; 0x35b5a8fa; 0x42b2986c;
    0xdbbbc9d6; 0xacbcf940; 0x32d86ce3; 0x45df5c75; 0xdcd60dcf; 0xabd13d59;
    0x26d930ac; 0x51de003a; 0xc8d75180; 0xbfd06116; 0x21b4f4b5; 0x56b3c423;
    0xcfba9599; 0xb8bda50f; 0x2802b89e; 0x5f058808; 0xc60cd9b2; 0xb10be924;
    0x2f6f7c87; 0x58684c11; 0xc1611dab; 0xb6662d3d; 0x76dc4190; 0x01db7106;
    0x98d220bc; 0xefd5102a; 0x71b18589; 0x06b6b51f; 0x9fbfe4a5; 0xe8b8d433;
    0x7807c9a2; 0x0f00f934; 0x9609a88e; 0xe10e9818; 0x7f6a0dbb; 0x086d3d2d;
    0x91646c97; 0xe6635c01; 0x6b6b51f4; 0x1c6c6162; 0x856530d8; 0xf262004e;
    0x6c0695ed; 0x1b01a57b; 0x8208f4c1; 0xf50fc457; 0x65b0d9c6; 0x12b7e950;
    0x8bbeb8ea; 0xfcb9887c; 0x62dd1ddf; 0x15da2d49; 0x8cd37cf3; 0xfbd44c65;
    0x4db26158; 0x3ab551ce; 0xa3bc0074; 0xd4bb30e2; 0x4adfa541; 0x3dd895d7;
    0xa4d1c46d; 0xd3d6f4fb; 0x4369e96a; 0x346ed9fc; 0xad678846; 0xda60b8d0;
    0x44042d73; 0x33031de5; 0xaa0a4c5f; 0xdd0d7cc9; 0x5005713c; 0x270241aa;
    0xbe0b1010; 0xc90c2086; 0x5768b525; 0x206f85b3; 0xb966d409; 0xce61e49f;
    0x5edef90e; 0x29d9c998; 0xb0d09822; 0xc7d7a8b4; 0x59b33d17; 0x2eb40d81;
    0xb7bd5c3b; 0xc0ba6cad; 0xedb88320; 0x9abfb3b6; 0x03b6e20c; 0x74b1d29a;
    0xead54739; 0x9dd277af; 0x04db2615; 0x73dc1683; 0xe3630b12; 0x94643b84;
    0x0d6d6a3e; 0x7a6a5aa8; 0xe40ecf0b; 0x9309ff9d; 0x0a00ae27; 0x7d079eb1;
    0xf00f9344; 0x8708a3d2; 0x1e01f268; 0x6906c2fe; 0xf762575d; 0x806567cb;
    0x196c3671; 0x6e6b06e7; 0xfed41b76; 0x89d32be0; 0x10da7a5a; 0x67dd4acc;
    0xf9b9df6f; 0x8ebeeff9; 0x17b7be43; 0x60b08ed5; 0xd6d6a3e8; 0xa1d1937e;
    0x38d8c2c4; 0x4fdff252; 0xd1bb67f1; 0xa6bc5767; 0x3fb506dd; 0x48b2364b;
    0xd80d2bda; 0xaf0a1b4c; 0x36034af6; 0x41047a60; 0xdf60efc3; 0xa867df55;
    0x316e8eef; 0x4669be79; 0xcb61b38c; 0xbc66831a; 0x256fd2a0; 0x5268e236;
    0xcc0c7795; 0xbb0b4703; 0x220216b9; 0x5505262f; 0xc5ba3bbe; 0xb2bd0b28;
    0x2bb45a92; 0x5cb36a04; 0xc2d7ffa7; 0xb5d0cf31; 0x2cd99e8b; 0x5bdeae1d;
    0x9b64c2b0; 0xec63f226; 0x756aa39c; 0x026d930a; 0x9c0906a9; 0xeb0e363f;
    0x72076785; 0x05005713; 0x95bf4a82; 0xe2b87a14; 0x7bb12bae; 0x0cb61b38;
    0x92d28e9b; 0xe5d5be0d; 0x7cdcefb7; 0x0bdbdf21; 0x86d3d2d4; 0xf1d4e242;
    0x68ddb3f8; 0x1fda836e; 0x81be16cd; 0xf6b9265b; 0x6fb077e1; 0x18b74777;
    0x88085ae6; 0xff0f6a70; 0x66063bca; 0x11010b5c; 0x8f659eff; 0xf862ae69;
    0x616bffd3; 0x166ccf45; 0xa00ae278; 0xd70dd2ee; 0x4e048354; 0x3903b3c2;
    0xa7672661; 0xd06016f7; 0x4969474d; 0x3e6e77db; 0xaed16a4a; 0xd9d65adc;
    0x40df0b66; 0x37d83bf0; 0xa9bcae53; 0xdebb9ec5; 0x47b2cf7f; 0x30b5ffe9;
    0xbdbdf21c; 0xcabac28a; 0x53b39330; 0x24b4a3a6; 0xbad03605; 0xcdd70693;
    0x54de5729; 0x23d967bf; 0xb3667a2e; 0xc4614ab8; 0x5d681b02; 0x2a6f2b94;
    0xb40bbe37; 0xc30c8ea1; 0x5a05df1b; 0x2d02ef8d ].

Definition crc32 (crc : Z) (buf : list Z) (size : Z) : option Z :=
  let crc := Z.lxor crc 0xFFFFFFFF in
  crc ← for_range 0 size (λ p crc,
    b ← load buf p;
    t ← load crc32_tab (Z.land (Z.lxor crc b) 255);
    Some (Z.lxor t (Z.shiftr crc 8))) crc;
  Some (Z.lxor crc 0xFFFFFFFF).


(** ** Chunks *)

Record woz_chunk : Type := Build_woz_chunk {
  name : Z;
  data_length : Z;
  data : list Z
}.

Definition set_data (chunk : woz_chunk) (d : list Z) : woz_chunk :=
  Build_woz_chunk (name chunk) (data_length chunk) d.

(** [calloc] is taken to succeed, so the NULL branches of the callers are
    not modelled; the payload starts zeroed. *)
Definition create_chunk (name data_length : Z) : woz_chunk :=
  Build_woz_chunk name data_length (replicate (Z.to_nat data_length) 0).

(** The string "dsk2woz2". *)
Definition CREATOR_NAME : list Z := [100; 115; 107; 50; 119; 111; 122; 50].

(** The multi-character constants 'INFO', 'TMAP', 'TRKS', 'WRIT' and 'WOZ2',
    with the first character in the most significant byte. *)

Definition tag_INFO : Z := 0x494E464F.
Definition tag_TMAP : Z := 0x544D4150.
Definition tag_TRKS : Z := 0x54524B53.
Definition tag_WRIT : Z := 0x57524954.
Definition tag_WOZ2 : Z := 0x574F5A32.

Definition create_info_chunk : option woz_chunk :=
  let chunk := create_chunk tag_INFO 60 in
  d ← write_uint8 (data chunk) 0 2;
  d ← write_uint8 d 1 1;
  d ← write_uint8 d 2 0;
  d ← write_uint8 d 3 0;
  d ← write_uint8 d 4 1;
  d ← write_utf8 d 5 CREATOR_NAME 32;
  d ← write_uint8 d 37 1;
  d ← write_uint8 d 38 1;
  d ← write_uint8 d 39 32;
  d ← write_uint16 d 40 0;
  d ← write_uint16 d 42 0;
  d ← write_uint16 d 44 BITS_BLOCKS_PER_TRACK;
  Some (set_data chunk d).

Definition create_tmap_chunk : option woz_chunk :=
  let chunk := create_chunk tag_TMAP 160 in
  let byte_index := 0 in
  '(d, _) ← for_range 0 160 (λ t '(d, byte_index),
    if t <? TRACKS_PER_DISK * 4 - 1 then
      let nominal_track := Z.quot t 4 in
      match Z.rem t 4 with
      | 0 | 1 =>
          d ← write_uint8 d byte_index nominal_track;
          Some (d, byte_index + 1)
      | 2 =>
          d ← write_uint8 d byte_index 0xFF;
          Some (d, byte_index + 1)
      | 3 =>
          d ← write_uint8 d byte_index (nominal_track + 1);
          Some (d, byte_index + 1)
      | _ => Some (d, byte_index)
      end
    else
      d ← write_uint8 d byte_index 0xFF;
      Some (d, byte_index + 1)) (data chunk, byte_index);
  Some (set_data chunk d).

Definition create_trks_chunk (track_data : list Z) (valid_bits_per_track : Z)
    : option woz_chunk :=
  let chunk :=
    create_chunk tag_TRKS (160 * 8 + TRACKS_PER_DISK * BITS_TRACK_SIZE) in
  let byte_index := 0 in
  let starting_block := 3 in
  '(d, _, _) ← for_range 0 TRACKS_PER_DISK
    (λ i '(d, byte_index, starting_block),
      d ← write_uint16 d byte_index starting_block;
      let byte_index := byte_index + 2 in
      d ← write_uint16 d byte_index BITS_BLOCKS_PER_TRACK;
      let byte_index := byte_index + 2 in
      d ← write_uint32 d byte_index valid_bits_per_track;
      let byte_index := byte_index + 4 in
      let starting_block := to_uint16 (starting_block + BITS_BLOCKS_PER_TRACK) in
      Some (d, byte_index, starting_block))
    (data chunk, byte_index, starting_block);
  d ← memcpy d 1280 track_data (TRACKS_PER_DISK * BITS_TRACK_SIZE);
  Some (set_data chunk d).

Definition create_writ_chunk (track_data : list Z) (valid_bits_per_track : Z)
    : option woz_chunk :=
  let chunk := create_chunk tag_WRIT (TRACKS_PER_DISK * 20) in
  let byte_index := 0 in
  '(d, _) ← for_range 0 TRACKS_PER_DISK (λ t '(d, byte_index),
    d ← write_uint8 d byte_index (t * 4);
    let byte_index := byte_index + 1 in
    d ← write_uint8 d byte_index 1;
    let byte_index := byte_index + 1 in
    d ← write_uint8 d byte_index 0;
    let byte_index := byte_index + 1 in
    let byte_index := byte_index + 1 in
    let track_bits := ptr_add track_data (t * BITS_TRACK_SIZE) in
    let length_for_crc := Z.quot (to_uint32 (valid_bits_per_track + 7)) 8 in
    crc ← crc32 0 track_bits length_for_crc;
    d ← write_uint32 d byte_index crc;
    let byte_index := byte_index + 4 in
    let track_leader_sync_bits := TRACK_LEADER_SYNC_COUNT * 10 in
    d ← write_uint32 d byte_index track_leader_sync_bits;
    let byte_index := byte_index + 4 in
    d ← write_uint32 d byte_index
          (to_uint32 (valid_bits_per_track - track_leader_sync_bits));
    let byte_index := byte_index + 4 in
    d ← write_uint8 d byte_index 0xFF;
    let byte_index := byte_index + 1 in
    d ← write_uint8 d byte_index 10;
    let byte_index := byte_index + 1 in
    d ← write_uint8 d byte_index 0;
    let byte_index := byte_index + 1 in
    let byte_index := byte_index + 1 in
    Some (d, byte_index)) (data chunk, byte_index);
  Some (set_data chunk d).

Definition total_chunk_size (chunk : woz_chunk) : Z :=
  4 + 4 + data_length chunk.

Definition write_chunk (dest : list Z) (off : Z) (chunk : woz_chunk)
    : option (list Z * Z) :=
  dest ← write_uint32_be dest off (name chunk);
  dest ← write_uint32 dest (off + 4) (to_uint32 (data_length chunk));
  dest ← memcpy dest (off + 8) (data chunk) (data_length chunk);
  Some (dest, 8 + data_length chunk).

(** ** Entry point

    [main] is the program between reading the input file and writing the
    output file: from the image [dsk] and the sector format chosen from the
    file name to the bytes of the WOZ2 file. *)

Section Entry.

Variable uninit : nat → list Z.

Definition encode_tracks (dsk : list Z) (sector_format : dsk_sector_format)
    : option (list Z * Z) :=
  let track_data := uninit (Z.to_nat (TRACKS_PER_DISK * BITS_TRACK_SIZE)) in
  let valid_bits_per_track := 0 in
  for_range 0 TRACKS_PER_DISK (λ t '(track_data, _),
    '(dest, valid_bits) ←
      encode_bits_for_track uninit
        (ptr_add track_data (t * BITS_TRACK_SIZE))
        (ptr_add dsk (t * BYTES_PER_TRACK)) t sector_format;
    Some (take (Z.to_nat (t * BITS_TRACK_SIZE)) track_data ++ dest, valid_bits))
    (track_data, valid_bits_per_track).

Definition main (dsk : list Z) (sector_format : dsk_sector_format)
    : option (list Z) :=
  (* Build the encoded track data. *)
  '(track_data, valid_bits_per_track) ← encode_tracks dsk sector_format;
  (* Build the chunks. *)
  info_chunk ← create_info_chunk;
  tmap_chunk ← create_tmap_chunk;
  trks_chunk ← create_trks_chunk track_data (to_uint32 valid_bits_per_track);
  writ_chunk ← create_writ_chunk track_data (to_uint32 valid_bits_per_track);
  (* Create the final output buffer. *)
  let woz_image_size :=
    WOZ_HEADER_SIZE + total_chunk_size info_chunk
    + total_chunk_size tmap_chunk + total_chunk_size trks_chunk
    + total_chunk_size writ_chunk in
  let woz := uninit (Z.to_nat woz_image_size) in
  (* Emit the header. Leave the CRC slot empty. *)
  woz ← write_uint32_be woz 0 tag_WOZ2;
  woz ← store woz 4 0xFF;
  woz ← store woz 5 10;
  woz ← store woz 6 13;
  woz ← store woz 7 10;
  (* Copy the chunk data in order. *)
  let output_index := WOZ_HEADER_SIZE in
  '(woz, n) ← write_chunk woz output_index info_chunk;
  let output_index := output_index + n in
  '(woz, n) ← write_chunk woz output_index tmap_chunk;
  let output_index := output_index + n in
  '(woz, n) ← write_chunk woz output_index trks_chunk;
  let output_index := output_index + n in
  '(woz, n) ← write_chunk woz output_index writ_chunk;
  (* Compute the overall CRC of everything after the header, and write it in. *)
  crc ← crc32 0 (ptr_add woz WOZ_HEADER_SIZE) (woz_image_size - WOZ_HEADER_SIZE);
  woz ← write_uint32 woz 8 crc;
  Some woz.

End Entry.

(** ** Reading helpers used in the statements *)

Definition le16 (a : list Z) (off : Z) : option Z :=
  b0 ← load a off; b1 ← load a (off + 1);
  Some (b0 + 256 * b1).

Definition le32 (a : list Z) (off : Z) : option Z :=
  b0 ← load a off; b1 ← load a (off + 1);
  b2 ← load a (off + 2); b3 ← load a (off + 3);
  Some (b0 + 256 * b1 + 65536 * b2 + 16777216 * b3).

(** ** The 6-and-2 encoding in the words of the specification

    [encode_sector_with top] builds the 343 intermediate bytes by index,
    exclusive-ors byte [i] with the original byte [i-1] for [1 <= i <= top],
    and maps the result through the nibble table. *)

Definition reverse_2bit (v : Z) : Z :=
  match v with 0 => 0 | 1 => 2 | 2 => 1 | _ => 3 end.

Definition src_byte (src : list Z) (c : Z) : Z := default 0 (load src c).

Definition low_part (src : list Z) (c : Z) : Z :=
  reverse_2bit (Z.land (src_byte src c) 3).

Definition high_part (src : list Z) (c : Z) : Z :=
  Z.shiftr (src_byte src c) 2.

Definition pre_nibble (src : list Z) (c : Z) : Z :=
  if c <? 84 then
    Z.lor (Z.lor (low_part src c) (Z.shiftl (low_part src (c + 86)) 2))
          (Z.shiftl (low_part src (c + 172)) 4)
  else if c <? 86 then
    Z.lor (low_part src c) (Z.shiftl (low_part src (c + 86)) 2)
  else if c <? 342 then high_part src (c - 86)
  else high_part src 255.

Definition xor_chain (top : Z) (b : Z → Z) (i : Z) : Z :=
  if (1 <=? i) && (i <=? top) then Z.lxor (b i) (b (i - 1)) else b i.

Definition nibble (v : Z) : Z := default 0 (load six_and_two_mapping v).

Definition encode_sector_with (top : Z) (src : list Z) : list Z :=
  map (λ i, nibble (xor_chain top (pre_nibble src) i)) (seqZ 0 343).

(** The chain as the specification states it, from index 342 down to 1. *)
Definition encode_sector_spec (src : list Z) : list Z :=
  encode_sector_with 342 src.

(** The chain from index 341 down to 1; byte 342 stays the copy of byte 341. *)
Definition encode_sector_ref (src : list Z) : list Z :=
  encode_sector_with 341 src.

(** ** CRC-32 bit by bit: reflected polynomial 0xEDB88320, register
    inverted before and after. *)

Definition crc_bit_step (c : Z) : Z :=
  if Z.testbit c 0 then Z.lxor (Z.shiftr c 1) 0xEDB88320 else Z.shiftr c 1.

Definition crc_byte_step (c b : Z) : Z :=
  Nat.iter 8 crc_bit_step (Z.lxor c b).

Definition crc32_reference (bytes : list Z) : Z :=
  Z.lxor (fold_left crc_byte_step bytes 0xFFFFFFFF) 0xFFFFFFFF.

(** ** Auxiliary definitions for the statements and proofs *)

(** The inverse of [logical_sector]: the physical sector that holds logical
    sector [l]. *)
Definition physical_sector (sector_format : dsk_sector_format) (l : Z) : Z :=
  if l =? 15 then 15
  else
    match sector_format with
    | dsk_sector_format_dos_3_3 => Z.rem (l * 13) 15
    | dsk_sector_format_prodos => Z.rem (l * 2) 15
    end.

(** How many entries of a TMAP payload are the unused marker 0xFF, and how
    many are not. *)
Definition count_unused (d : list Z) : nat :=
  length (List.filter (λ v, v =? 0xFF) d).

Definition count_populated (d : list Z) : nat :=
  length (List.filter (λ v, negb (v =? 0xFF)) d).

(** [filled P Q c d]: the array [d] holds [P j] at every index [j] below
    [c] and [Q j] from [c] on. *)
Definition filled (P Q : Z → Z) (c : Z) (d : list Z) : Prop :=
  (∀ j, 0 ≤ j < c → load d j = Some (P j))
  ∧ (∀ j, c ≤ j < Z.of_nat (length d) → load d j = Some (Q j)).

(** The byte at offset [j] of the TRKS directory: entry [j / 8] holds the
    starting block, the block count and the bit count. *)
Definition trk_entry_byte (valid_bits : Z) (j : Z) : Z :=
  let starting_block := 3 + 13 * (j / 8) in
  match j mod 8 with
  | 0 => Z.land starting_block 255
  | 1 => Z.land (Z.shiftr starting_block 8) 255
  | 2 => 13
  | 3 => 0
  | 4 => Z.land valid_bits 255
  | 5 => Z.land (Z.shiftr valid_bits 8) 255
  | 6 => Z.land (Z.shiftr valid_bits 16) 255
  | _ => Z.land (Z.shiftr valid_bits 24) 255
  end.

(** The byte at offset [j] of the WRIT payload: descriptor [j / 20]. *)
Definition writ_entry_byte (track_data : list Z) (valid_bits : Z) (j : Z) : Z :=
  let t := j / 20 in
  let crc :=
    default 0 (crc32 0 (ptr_add track_data (t * BITS_TRACK_SIZE))
                 ((valid_bits + 7) / 8)) in
  match j mod 20 with
  | 0 => t * 4
  | 1 => 1
  | 2 => 0
  | 3 => 0
  | 4 => Z.land crc 255
  | 5 => Z.land (Z.shiftr crc 8) 255
  | 6 => Z.land (Z.shiftr crc 16) 255
  | 7 => Z.land (Z.shiftr crc 24) 255
  | 8 => Z.land 640 255
  | 9 => Z.land (Z.shiftr 640 8) 255
  | 10 => 0
  | 11 => 0
  | 12 => Z.land (valid_bits - 640) 255
  | 13 => Z.land (Z.shiftr (valid_bits - 640) 8) 255
  | 14 => Z.land (Z.shiftr (valid_bits - 640) 16) 255
  | 15 => Z.land (Z.shiftr (valid_bits - 640) 24) 255
  | 16 => 0xFF
  | 17 => 10
  | _ => 0
  end.

(** ** Readers used to state what the writers and encoders produce *)

(** The big-endian 32-bit value at offset [off]. *)
Definition be32 (a : list Z) (off : Z) : option Z :=
  b0 ← load a off; b1 ← load a (off + 1);
  b2 ← load a (off + 2); b3 ← load a (off + 3);
  Some (16777216 * b0 + 65536 * b1 + 256 * b2 + b3).

(** The eight bits from bit position [index], most significant first. *)
Definition bits_read_byte (buffer : list Z) (index : Z) : Z :=
  Z.lor (Z.shiftl (Z.b2z (buf_bit buffer index)) 7)
  (Z.lor (Z.shiftl (Z.b2z (buf_bit buffer (index + 1))) 6)
  (Z.lor (Z.shiftl (Z.b2z (buf_bit buffer (index + 2))) 5)
  (Z.lor (Z.shiftl (Z.b2z (buf_bit buffer (index + 3))) 4)
  (Z.lor (Z.shiftl (Z.b2z (buf_bit buffer (index + 4))) 3)
  (Z.lor (Z.shiftl (Z.b2z (buf_bit buffer (index + 5))) 2)
  (Z.lor (Z.shiftl (Z.b2z (buf_bit buffer (index + 6))) 1)
         (Z.b2z (buf_bit buffer (index + 7))))))))).

(** The two bytes that [bits_write_4_and_4] emits for [value], and the
    byte a reader recovers from such a pair. *)
Definition encode_4_and_4 (value : Z) : Z * Z :=
  (Z.lor (Z.shiftr value 1) 170, Z.lor value 170).

Definition decode_4_and_4 (a b : Z) : Z :=
  Z.land (Z.lor (Z.shiftl a 1) 1) b.

(** ** Reading a 6-and-2 data field back

    What a disk reader does with the 343 bytes of a data field: map each
    byte back through the table, undo the exclusive-or chain with a running
    exclusive-or, compare the last value with the checksum byte, and put the
    six high and two low bits of every byte together again. *)

Fixpoint index_of (m : Z) (l : list Z) (i : Z) : Z :=
  match l with
  | [] => 0
  | x :: r => if x =? m then i else index_of m r (i + 1)
  end.

Definition denibble (m : Z) : Z := index_of m six_and_two_mapping 0.

Definition enc_value (enc : list Z) (i : Z) : Z :=
  denibble (default 0 (load enc i)).

Fixpoint running_xor (X : Z → Z) (n : nat) : Z :=
  match n with
  | O => X 0
  | S k => Z.lxor (running_xor X k) (X (Z.of_nat (S k)))
  end.

Definition decoded_pre (enc : list Z) (i : Z) : Z :=
  running_xor (enc_value enc) (Z.to_nat i).

Definition decode_6_and_2 (enc : list Z) : option (list Z) :=
  if decoded_pre enc 341 =? enc_value enc 342 then
    Some (map (λ c,
            Z.lor (Z.shiftl (decoded_pre enc (86 + c)) 2)
                  (reverse_2bit
                     (Z.land (Z.shiftr (decoded_pre enc (c mod 86))
                                (2 * (c / 86))) 3)))
            (seqZ 0 256))
  else None.

(** A byte that the disk hardware can read back: top bit set and never
    three zero bits in a row. *)
Definition readable_nibble (v : Z) : bool :=
  Z.testbit v 7
  && forallb (λ k, Z.testbit v k || Z.testbit v (k + 1) || Z.testbit v (k + 2))
       (seqZ 0 6).

(** ** The bit stream of a track

    What [encode_bits_for_track] writes, as a list of items: a nibble is a
    byte written by [bits_write_byte], a sync the byte 0xFF followed by the
    two bits that [bits_write_sync] skips. *)

Inductive stream_item : Type :=
  | Nibble (v : Z)
  | Sync.

Definition item_value (it : stream_item) : Z :=
  match it with Nibble v => v | Sync => 0xFF end.

Definition item_len (it : stream_item) : Z :=
  match it with Nibble _ => 8 | Sync => 10 end.

Fixpoint stream_len (items : list stream_item) : Z :=
  match items with
  | [] => 0
  | it :: rest => item_len it + stream_len rest
  end.

(** Bit [p] of the stream that starts at bit position [start]. *)
Fixpoint stream_bit (start : Z) (items : list stream_item) (p : Z) : bool :=
  match items with
  | [] => false
  | it :: rest =>
      ((start <=? p) && (p <? start + 8)
       && Z.testbit (item_value it) (start + 7 - p))
      || stream_bit (start + item_len it) rest p
  end.

Definition four_and_four_items (value : Z) : list stream_item :=
  [Nibble (Z.lor (Z.shiftr value 1) 170); Nibble (Z.lor value 170)].

(** The items of physical sector [s]: address field, gap, data field with
    the encoded logical sector, and the gap or the final byte. *)
Definition sector_items (src : list Z) (track_number : Z)
    (sector_format : dsk_sector_format) (s : Z) : list stream_item :=
  [Nibble 0xD5; Nibble 0xAA; Nibble 0x96]
  ++ four_and_four_items DOS_VOLUME_NUMBER
  ++ four_and_four_items track_number
  ++ four_and_four_items s
  ++ four_and_four_items (Z.lxor (Z.lxor DOS_VOLUME_NUMBER track_number) s)
  ++ [Nibble 0xDE; Nibble 0xAA; Nibble 0xEB]
  ++ replicate 7 Sync
  ++ [Nibble 0xD5; Nibble 0xAA; Nibble 0xAD]
  ++ map Nibble
       (encode_sector_ref
          (ptr_add src (logical_sector sector_format s * BYTES_PER_SECTOR)))
  ++ [Nibble 0xDE; Nibble 0xAA; Nibble 0xEB]
  ++ (if s <? SECTORS_PER_TRACK - 1 then replicate 16 Sync
      else [Nibble 0xFF]).

Definition sectors_items (src : list Z) (track_number : Z)
    (sector_format : dsk_sector_format) (n : Z) : list stream_item :=
  concat (map (sector_items src track_number sector_format) (seqZ 0 n)).

Definition track_items (src : list Z) (track_number : Z)
    (sector_format : dsk_sector_format) : list stream_item :=
  replicate 64 Sync
  ++ sectors_items src track_number sector_format SECTORS_PER_TRACK.

(** [written base items (d, i)]: the buffer [d] is [base] with the items
    ORed in from bit 0, and [i] is the bit position after them. *)
Definition written (base : list Z) (items : list stream_item)
    (st : list Z * Z) : Prop :=
  stream_len items = snd st
  ∧ length (fst st) = length base
  ∧ (Forall is_byte base → Forall is_byte (fst st))
  ∧ ∀ p, buf_bit (fst st) p = buf_bit base p || stream_bit 0 items p.

(** [chunk_at woz off c]: the file [woz] holds chunk [c] at offset [off],
    as its name, its payload length and its payload. *)
Definition chunk_at (woz : list Z) (off : Z) (c : woz_chunk) : Prop :=
  be32 woz off = Some (name c)
  ∧ le32 woz (off + 4) = Some (data_length c)
  ∧ ∀ k, 0 ≤ k < data_length c → load woz (off + 8 + k) = load (data c) k.

(** The 343 bytes of the data field of physical sector [s] of track [t],
    read from the file: track [t] starts at byte [1536 + 6656 * t], the
    sector 640 + 3134 * s bits into the track, its data bytes 206 bits into
    the sector. *)
Definition file_sector (woz : list Z) (t s : Z) : list Z :=
  map (λ i, bits_read_byte woz
              (8 * (1536 + 6656 * t) + 640 + 3134 * s + 206 + 8 * i))
    (seqZ 0 343).

(** ** The program with its files

    [main] above is the C [main] between reading the input file and writing
    the output file.  [run] is the whole of it, with what the outside world
    answers given as arguments: [argc], the string [argv[1]] without its
    terminator, and in [files] the contents of the input file when
    [fopen (argv[1], "rb")] succeeds, whether [fopen (argv[2], "wb")]
    succeeds, and the count that [fwrite] returns.  The result is the exit
    status and the buffer handed to [fwrite], if the program gets that far.
    The messages printed are left out, and memory allocation succeeds, as
    everywhere above. *)

(** [fread (buf, 1, n, file)] on a freshly opened file: as many of the [n]
    bytes as the file has go to the front of [buf]; returns the count. *)
Definition fread (buf : list Z) (n : Z) (file : list Z) : list Z * Z :=
  let got := take (Z.to_nat n) file in
  (got ++ drop (length got) buf, Z.of_nat (length got)).

(** [strlen (name) > 3 && strncmp (&name[strlen (name) - 3], ".po", 3) == 0]
    chooses ProDOS sector order; everything else is DOS 3.3 order. *)
Definition sector_format_of_name (name : list Z) : dsk_sector_format :=
  let len := Z.of_nat (length name) in
  if (3 <? len)
     && bool_decide (take 3 (ptr_add name (len - 3)) = [46; 112; 111])
  then dsk_sector_format_prodos
  else dsk_sector_format_dos_3_3.

Record files : Type := {
  input_contents : option (list Z);
  output_opens : bool;
  fwrite_count : Z
}.

Definition run (uninit : nat → list Z) (argc : Z) (argv1 : list Z)
    (w : files) : option (Z * option (list Z)) :=
  if negb (argc =? 3) then Some (-1, None)
  else
    match input_contents w with
    | None => Some (-2, None)
    | Some file =>
        let '(dsk, bytes_read) :=
          fread (uninit (Z.to_nat DSK_IMAGE_SIZE)) DSK_IMAGE_SIZE file in
        if negb (bytes_read =? DSK_IMAGE_SIZE) then Some (-2, None)
        else
          let sector_format := sector_format_of_name argv1 in
          woz ← main uninit dsk sector_format;
          let woz_image_size := Z.of_nat (length woz) in
          if negb (output_opens w) then Some (-5, None)
          else if negb (fwrite_count w =? woz_image_size)
               then Some (-6, Some woz)
               else Some (0, Some woz)
    end.

(** * Verification *)

(** ** Basic facts about arrays *)

Lemma load_Some (a : list Z) (i : Z) :
  0 ≤ i < Z.of_nat (length a) → ∃ v, load a i = Some v.
Proof.
  intros Hi. unfold load.
  destruct (Z.leb_spec 0 i); [|lia].
  apply lookup_lt_is_Some_2. lia.
Qed.

Lemma load_lookup (a : list Z) (i : Z) :
  0 ≤ i → load a i = a !! Z.to_nat i.
Proof. intros Hi. unfold load. destruct (Z.leb_spec 0 i); [done|lia]. Qed.

Lemma load_nat (a : list Z) (j : nat) : load a (Z.of_nat j) = a !! j.
Proof. rewrite load_lookup by lia. by rewrite Nat2Z.id. Qed.

Lemma load_bound (a : list Z) (i v : Z) :
  load a i = Some v → 0 ≤ i < Z.of_nat (length a).
Proof.
  unfold load. destruct (Z.leb_spec 0 i); [|done].
  intros Hl%lookup_lt_Some. lia.
Qed.

Lemma store_Some (a : list Z) (i v : Z) :
  0 ≤ i < Z.of_nat (length a) → store a i v = Some (<[Z.to_nat i := v]> a).
Proof.
  intros Hi. unfold store.
  destruct (Z.leb_spec 0 i); [|lia].
  destruct (Z.ltb_spec i (Z.of_nat (length a))); [done|lia].
Qed.

Lemma store_inv (a a' : list Z) (i v : Z) :
  store a i v = Some a' →
  0 ≤ i < Z.of_nat (length a) ∧ a' = <[Z.to_nat i := v]> a.
Proof.
  unfold store.
  destruct (Z.leb_spec 0 i); [|done].
  destruct (Z.ltb_spec i (Z.of_nat (length a))); [|done].
  intros [= <-]. split; [lia|done].
Qed.

Lemma load_store_eq (a : list Z) (i v : Z) :
  0 ≤ i < Z.of_nat (length a) → load (<[Z.to_nat i := v]> a) i = Some v.
Proof.
  intros Hi. rewrite load_lookup by lia.
  apply list_lookup_insert_eq. lia.
Qed.

Lemma load_store_ne (a : list Z) (i j v : Z) :
  0 ≤ i → 0 ≤ j → i ≠ j → load (<[Z.to_nat i := v]> a) j = load a j.
Proof.
  intros Hi Hj Hne. rewrite !load_lookup by lia.
  apply list_lookup_insert_ne. lia.
Qed.

Lemma store_length (a a' : list Z) (i v : Z) :
  store a i v = Some a' → length a' = length a.
Proof. intros [_ ->]%store_inv. apply length_insert. Qed.

(** ** Loop rules *)

Lemma for_loop_inv {St : Type} (I : Z → St → Prop)
    (body : Z → St → option St) (n : nat) (lo : Z) (s : St) :
  I lo s →
  (∀ i s, lo ≤ i < lo + Z.of_nat n → I i s →
     ∃ s', body i s = Some s' ∧ I (i + 1) s') →
  ∃ s', for_loop lo n body s = Some s' ∧ I (lo + Z.of_nat n) s'.
Proof.
  revert lo s. induction n as [|n IH]; intros lo s H0 Hstep.
  - exists s. split; [done|]. by replace (lo + Z.of_nat 0) with lo by lia.
  - destruct (Hstep lo s) as (s1 & Hb & H1); [lia|done|].
    destruct (IH (lo + 1) s1) as (s2 & Hl & H2); [done| |].
    + intros i s' Hi. apply Hstep. lia.
    + exists s2. simpl. rewrite Hb. simpl. split; [done|].
      by replace (lo + Z.of_nat (S n)) with (lo + 1 + Z.of_nat n) by lia.
Qed.

Lemma for_range_inv {St : Type} (I : Z → St → Prop)
    (body : Z → St → option St) (lo hi : Z) (s : St) :
  lo ≤ hi →
  I lo s →
  (∀ i s, lo ≤ i < hi → I i s → ∃ s', body i s = Some s' ∧ I (i + 1) s') →
  ∃ s', for_range lo hi body s = Some s' ∧ I hi s'.
Proof.
  intros Hle H0 Hstep. unfold for_range.
  destruct (for_loop_inv I body (Z.to_nat (hi - lo)) lo s) as (s' & Hl & Hs');
    [done| |].
  - intros i s1 Hi. apply Hstep. lia.
  - exists s'. split; [done|].
    by replace hi with (lo + Z.of_nat (Z.to_nat (hi - lo))) by lia.
Qed.

Lemma while_loop_inv {St : Type} (I : St → Prop) (measure : St → nat)
    (cond : St → bool) (body : St → option St) (fuel : nat) (s : St) :
  I s →
  (measure s ≤ fuel)%nat →
  (∀ s, I s → cond s = true →
     ∃ s', body s = Some s' ∧ I s' ∧ (measure s' < measure s)%nat) →
  ∃ s', while_loop fuel cond body s = Some s' ∧ I s' ∧ cond s' = false.
Proof.
  intros H0 Hfuel Hstep. revert s H0 Hfuel.
  induction fuel as [|fuel IH]; intros s H0 Hfuel.
  - simpl. destruct (cond s) eqn:Hc.
    + destruct (Hstep s H0 Hc) as (s' & _ & _ & Hm). lia.
    + by exists s.
  - simpl. destruct (cond s) eqn:Hc.
    + destruct (Hstep s H0 Hc) as (s' & Hb & H1 & Hm).
      rewrite Hb. simpl. apply IH; [done|lia].
    + by exists s.
Qed.

(** One step of the option monad: [Some x ≫= f] becomes [f x]. *)
Ltac mstep := cbn [mbind option_bind].

(** ** Checking a property on a range of integers by evaluation *)

Lemma range_forallb (f : Z → bool) (lo : Z) (n : nat) :
  forallb f (seqZ lo (Z.of_nat n)) = true →
  ∀ t, lo ≤ t < lo + Z.of_nat n → f t = true.
Proof.
  intros Hall t Ht. rewrite forallb_forall in Hall. apply Hall.
  apply list_elem_of_In, elem_of_seqZ. lia.
Qed.

(** ** Bit-level facts about bytes *)

Lemma land7_mod (x : Z) : Z.land x 7 = x mod 8.
Proof. apply (Z.land_ones x 3). lia. Qed.

Lemma shiftr3_div (x : Z) : Z.shiftr x 3 = x / 8.
Proof. apply (Z.shiftr_div_pow2 x 3). lia. Qed.

Lemma byte_testbit_high (v k : Z) : is_byte v → 8 ≤ k → Z.testbit v k = false.
Proof.
  intros Hv Hk. rewrite <- (Z.mod_small v (2 ^ 8)) by (unfold is_byte in Hv; lia).
  apply Z.mod_pow2_bits_high. lia.
Qed.

Lemma to_uint8_byte (x : Z) : is_byte (to_uint8 x).
Proof. unfold is_byte, to_uint8. apply Z.mod_pos_bound. lia. Qed.

Lemma to_uint8_small (x : Z) : is_byte x → to_uint8 x = x.
Proof. intros Hx. apply Z.mod_small. exact Hx. Qed.

Lemma to_uint8_testbit (x k : Z) :
  0 ≤ k < 8 → Z.testbit (to_uint8 x) k = Z.testbit x k.
Proof. intros Hk. apply (Z.mod_pow2_bits_low x 8 k). lia. Qed.

Lemma to_uint8_lor (a b : Z) :
  is_byte a → to_uint8 (Z.lor a b) = Z.lor a (to_uint8 b).
Proof.
  intros Ha. unfold to_uint8. change 256 with (2 ^ 8).
  rewrite <- !Z.land_ones by lia.
  rewrite Z.land_lor_distr_l. f_equal.
  rewrite Z.land_ones by lia. apply Z.mod_small. exact Ha.
Qed.

Lemma lor_byte (a b : Z) : is_byte a → is_byte b → is_byte (Z.lor a b).
Proof.
  intros Ha Hb. rewrite <- (to_uint8_small b Hb).
  rewrite <- to_uint8_lor by done. apply to_uint8_byte.
Qed.

(** ** The bit writer *)

Lemma bits_write_byte_run (buffer : list Z) (index value : Z) :
  0 ≤ index → index + 8 ≤ 8 * Z.of_nat (length buffer) →
  ∃ old, load buffer (index / 8) = Some old ∧
    let new0 := to_uint8 (Z.lor old (Z.shiftr value (index mod 8))) in
    if index mod 8 =? 0 then
      bits_write_byte buffer index value
      = Some (<[Z.to_nat (index / 8) := new0]> buffer, index + 8)
    else
      ∃ old1, load buffer (index / 8 + 1) = Some old1 ∧
        bits_write_byte buffer index value
        = Some (<[Z.to_nat (index / 8 + 1) :=
                   to_uint8 (Z.lor old1 (Z.shiftl value (8 - index mod 8)))]>
                  (<[Z.to_nat (index / 8) := new0]> buffer), index + 8).
Proof.
  intros H0 Hcap.
  destruct (load_Some buffer (index / 8)) as [old Hold]; [lia|].
  exists old. split; [done|]. cbv zeta.
  unfold bits_write_byte. rewrite land7_mod, shiftr3_div, Hold. simpl.
  rewrite store_Some by lia. simpl.
  destruct (Z.eqb_spec (index mod 8) 0) as [Hz|Hnz]; [done|].
  destruct (load_Some buffer (index / 8 + 1)) as [old1 Hold1]; [lia|].
  exists old1. split; [done|].
  rewrite load_store_ne by lia. rewrite Hold1. simpl.
  rewrite store_Some by (rewrite length_insert; lia). done.
Qed.

Lemma bits_write_byte_ok (buffer : list Z) (index value : Z) :
  0 ≤ index → index + 8 ≤ 8 * Z.of_nat (length buffer) →
  ∃ buffer', bits_write_byte buffer index value = Some (buffer', index + 8)
    ∧ length buffer' = length buffer.
Proof.
  intros H0 Hcap.
  destruct (bits_write_byte_run buffer index value H0 Hcap) as (old & _ & Hrun).
  cbv zeta in Hrun. destruct (index mod 8 =? 0).
  - eexists. split; [exact Hrun|]. by rewrite length_insert.
  - destruct Hrun as (old1 & _ & Hrun).
    eexists. split; [exact Hrun|]. by rewrite !length_insert.
Qed.

Lemma buf_bit_load (buffer : list Z) (p b : Z) :
  load buffer (p / 8) = Some b →
  buf_bit buffer p = Z.testbit b (7 - p mod 8).
Proof. intros Hb. unfold buf_bit. by rewrite shiftr3_div, land7_mod, Hb. Qed.

Lemma buf_bit_eq (b1 b2 : list Z) (p : Z) :
  load b1 (p / 8) = load b2 (p / 8) → buf_bit b1 p = buf_bit b2 p.
Proof. intros Hb. unfold buf_bit. by rewrite shiftr3_div, Hb. Qed.

Lemma new_byte0_bit (old value sh k : Z) :
  0 ≤ sh → 0 ≤ k < 8 →
  Z.testbit (to_uint8 (Z.lor old (Z.shiftr value sh))) k
  = Z.testbit old k || Z.testbit value (k + sh).
Proof.
  intros Hsh Hk. rewrite to_uint8_testbit by done.
  rewrite Z.lor_spec, Z.shiftr_spec by lia. done.
Qed.

Lemma new_byte1_bit (old value sh k : Z) :
  0 ≤ k < 8 →
  Z.testbit (to_uint8 (Z.lor old (Z.shiftl value (8 - sh)))) k
  = Z.testbit old k || Z.testbit value (k - (8 - sh)).
Proof.
  intros Hk. rewrite to_uint8_testbit by done.
  rewrite Z.lor_spec, Z.shiftl_spec by lia. done.
Qed.

(** The effect of [bits_write_byte] on every bit of the buffer. *)
Lemma bits_write_byte_bits (buffer buffer' : list Z) (index value i' p : Z) :
  0 ≤ index → index + 8 ≤ 8 * Z.of_nat (length buffer) → is_byte value →
  bits_write_byte buffer index value = Some (buffer', i') →
  buf_bit buffer' p
  = buf_bit buffer p
    || ((index <=? p) && (p <? index + 8) && Z.testbit value (index + 7 - p)).
Proof.
  intros H0 Hcap Hv Hw.
  destruct (bits_write_byte_run buffer index value H0 Hcap) as (old & Hold & Hrun).
  cbv zeta in Hrun.
  assert (Hsh : 0 ≤ index mod 8 < 8) by (apply Z.mod_pos_bound; lia).
  assert (Hk : 0 ≤ p mod 8 < 8) by (apply Z.mod_pos_bound; lia).
  destruct (Z.eqb_spec (index mod 8) 0) as [Hz|Hnz].
  - rewrite Hw in Hrun. injection Hrun as -> _.
    destruct (decide (p / 8 = index / 8)) as [Heq|Hne].
    + rewrite (buf_bit_load _ p (to_uint8 (Z.lor old (Z.shiftr value (index mod 8)))))
        by (rewrite Heq; apply load_store_eq; lia).
      rewrite (buf_bit_load buffer p old) by (by rewrite Heq).
      rewrite new_byte0_bit by lia. f_equal.
      replace (7 - p mod 8 + index mod 8) with (index + 7 - p) by lia.
      destruct (Z.leb_spec index p); destruct (Z.ltb_spec p (index + 8));
        simpl; try done; try lia; try (apply byte_testbit_high; [done|lia]).
    + destruct (Z.leb_spec index p); destruct (Z.ltb_spec p (index + 8));
        simpl; try lia.
      all: rewrite ?orb_false_r; apply buf_bit_eq.
      all: destruct (decide (0 ≤ p));
        [apply load_store_ne; lia
        |unfold load; destruct (Z.leb_spec 0 (p / 8)); [lia|done]].
  - destruct Hrun as (old1 & Hold1 & Hrun).
    rewrite Hw in Hrun. injection Hrun as -> _.
    destruct (decide (p / 8 = index / 8)) as [Heq|Hne];
      [|destruct (decide (p / 8 = index / 8 + 1)) as [Heq1|Hne1]].
    + rewrite (buf_bit_load _ p (to_uint8 (Z.lor old (Z.shiftr value (index mod 8))))).
      2:{ rewrite Heq, load_store_ne by lia. apply load_store_eq. lia. }
      rewrite (buf_bit_load buffer p old) by (by rewrite Heq).
      rewrite new_byte0_bit by lia. f_equal.
      replace (7 - p mod 8 + index mod 8) with (index + 7 - p) by lia.
      destruct (Z.leb_spec index p); destruct (Z.ltb_spec p (index + 8));
        simpl; try done; try lia; try (apply byte_testbit_high; [done|lia]).
    + rewrite (buf_bit_load _ p
                 (to_uint8 (Z.lor old1 (Z.shiftl value (8 - index mod 8))))).
      2:{ rewrite Heq1. apply load_store_eq. rewrite length_insert. lia. }
      rewrite (buf_bit_load buffer p old1) by (by rewrite Heq1).
      rewrite new_byte1_bit by lia. f_equal.
      replace (7 - p mod 8 - (8 - index mod 8)) with (index + 7 - p) by lia.
      destruct (Z.leb_spec index p); destruct (Z.ltb_spec p (index + 8));
        simpl; try done; try lia; try (apply Z.testbit_neg_r; lia).
    + destruct (Z.leb_spec index p); destruct (Z.ltb_spec p (index + 8));
        simpl; try lia.
      all: rewrite ?orb_false_r; apply buf_bit_eq.
      all: destruct (decide (0 ≤ p));
        [rewrite !load_store_ne by lia; done
        |unfold load; destruct (Z.leb_spec 0 (p / 8)); [lia|done]].
Qed.

Lemma shiftr_byte (v n : Z) : is_byte v → 0 ≤ n → is_byte (Z.shiftr v n).
Proof.
  unfold is_byte. intros Hv Hn. rewrite Z.shiftr_div_pow2 by done.
  assert (0 < 2 ^ n) by (apply Z.pow_pos_nonneg; lia).
  split; [apply Z.div_pos; lia|].
  apply Z.le_lt_trans with v; [|lia].
  apply Z.div_le_upper_bound; nia.
Qed.

Lemma load_byte (a : list Z) (i v : Z) :
  Forall is_byte a → load a i = Some v → is_byte v.
Proof.
  intros Ha Hl. rewrite load_lookup in Hl by (apply load_bound in Hl; lia).
  by eapply Forall_lookup_1.
Qed.

(** C10. For a buffer of bytes, a bit index and an 8-bit value with
    [index + 8] inside the bit capacity of the buffer, [bits_write_byte]
    returns [index + 8]; it leaves every byte other than the one at
    [index >> 3] and its successor unchanged, and the successor too when
    the index is byte-aligned; each byte becomes its old value bitwise-ORed
    with some byte, so no set bit is cleared; no bit before [index] or from
    [index + 8] on changes; and the eight bits from [index] receive the bits
    of the value, most significant first. *)
Theorem bits_write_byte_frame (buffer : list Z) (index value : Z) :
  0 ≤ index →
  index + 8 ≤ 8 * Z.of_nat (length buffer) →
  is_byte value →
  Forall is_byte buffer →
  ∃ buffer',
    bits_write_byte buffer index value = Some (buffer', index + 8)
    ∧ length buffer' = length buffer
    ∧ (∀ j, j ≠ Z.shiftr index 3 →
            j ≠ Z.shiftr index 3 + 1 ∨ Z.land index 7 = 0 →
            load buffer' j = load buffer j)
    ∧ (∀ j old, load buffer j = Some old →
                ∃ m, is_byte m ∧ load buffer' j = Some (Z.lor old m))
    ∧ (∀ p, buf_bit buffer p = true → buf_bit buffer' p = true)
    ∧ (∀ p, p < index ∨ index + 8 ≤ p → buf_bit buffer' p = buf_bit buffer p)
    ∧ (∀ p, index ≤ p < index + 8 →
            buf_bit buffer' p
            = buf_bit buffer p || Z.testbit value (index + 7 - p)).
Proof.
  intros H0 Hcap Hv Hbytes.
  destruct (bits_write_byte_ok buffer index value H0 Hcap) as (buffer' & Hw & Hlen).
  exists buffer'. split; [done|]. split; [done|].
  assert (Hbits' : ∀ p, buf_bit buffer' p
            = buf_bit buffer p
              || ((index <=? p) && (p <? index + 8)
                  && Z.testbit value (index + 7 - p)))
    by (intros p; by eapply bits_write_byte_bits).
  destruct (bits_write_byte_run buffer index value H0 Hcap) as (old0 & Hold0 & Hrun).
  cbv zeta in Hrun. rewrite land7_mod, shiftr3_div.
  assert (Hsh : 0 ≤ index mod 8 < 8) by (apply Z.mod_pos_bound; lia).
  assert (Hframe : ∀ j, j ≠ index / 8 → j ≠ index / 8 + 1 ∨ index mod 8 = 0 →
                        load buffer' j = load buffer j).
  { intros j Hj Hj1.
    destruct (decide (0 ≤ j)) as [Hj0|Hj0];
      [|unfold load; destruct (Z.leb_spec 0 j); [lia|done]].
    destruct (Z.eqb_spec (index mod 8) 0) as [Hz|Hnz].
    - rewrite Hw in Hrun. injection Hrun as ->. apply load_store_ne; lia.
    - destruct Hrun as (old1 & Hold1 & Hrun).
      rewrite Hw in Hrun. injection Hrun as ->.
      rewrite !load_store_ne by lia. done. }
  split; [exact Hframe|]. split.
  { intros j old Hold.
    destruct (decide (j = index / 8)) as [->|Hj];
      [|destruct (decide (j = index / 8 + 1 ∧ index mod 8 ≠ 0)) as [[-> Hnz]|Hj1]].
    - assert (old = old0) as -> by congruence.
      exists (Z.shiftr value (index mod 8)).
      split; [apply shiftr_byte; [done|lia]|].
      rewrite <- (to_uint8_small (Z.lor old0 (Z.shiftr value (index mod 8))))
        by (apply lor_byte; [by eapply load_byte|apply shiftr_byte; [done|lia]]).
      destruct (Z.eqb_spec (index mod 8) 0) as [Hz|Hnz].
      + rewrite Hw in Hrun. injection Hrun as ->. apply load_store_eq. lia.
      + destruct Hrun as (old1 & Hold1 & Hrun).
        rewrite Hw in Hrun. injection Hrun as ->.
        rewrite load_store_ne by lia. apply load_store_eq. lia.
    - destruct (Z.eqb_spec (index mod 8) 0) as [Hz|_]; [done|].
      destruct Hrun as (old1 & Hold1 & Hrun).
      assert (old = old1) as -> by congruence.
      exists (to_uint8 (Z.shiftl value (8 - index mod 8))).
      split; [apply to_uint8_byte|].
      rewrite <- to_uint8_lor by (by eapply load_byte).
      rewrite Hw in Hrun. injection Hrun as ->.
      apply load_store_eq. rewrite length_insert. lia.
    - exists 0. split; [unfold is_byte; lia|].
      rewrite Z.lor_0_r, <- Hold. apply Hframe; [done|].
      destruct (decide (j = index / 8 + 1)); [right|left; done].
      destruct (decide (index mod 8 = 0)); [done|]. exfalso. by apply Hj1. }
  split; [|split].
  - intros p Hp. rewrite Hbits', Hp. done.
  - intros p Hp. rewrite Hbits'.
    destruct (Z.leb_spec index p); destruct (Z.ltb_spec p (index + 8));
      simpl; rewrite ?orb_false_r; try done; lia.
  - intros p Hp. rewrite Hbits'.
    destruct (Z.leb_spec index p); destruct (Z.ltb_spec p (index + 8));
      simpl; try done; lia.
Qed.

Lemma bits_write_byte_frame_witness :
  ∃ buffer',
    bits_write_byte [0; 0] 3 255 = Some (buffer', 3 + 8)
    ∧ length buffer' = length [0; 0]
    ∧ (∀ j, j ≠ Z.shiftr 3 3 →
            j ≠ Z.shiftr 3 3 + 1 ∨ Z.land 3 7 = 0 →
            load buffer' j = load [0; 0] j)
    ∧ (∀ j old, load [0; 0] j = Some old →
                ∃ m, is_byte m ∧ load buffer' j = Some (Z.lor old m))
    ∧ (∀ p, buf_bit [0; 0] p = true → buf_bit buffer' p = true)
    ∧ (∀ p, p < 3 ∨ 3 + 8 ≤ p → buf_bit buffer' p = buf_bit [0; 0] p)
    ∧ (∀ p, 3 ≤ p < 3 + 8 →
            buf_bit buffer' p
            = buf_bit [0; 0] p || Z.testbit 255 (3 + 7 - p)).
Proof.
  apply (bits_write_byte_frame [0; 0] 3 255).
  - lia.
  - simpl. lia.
  - unfold is_byte. lia.
  - repeat constructor; lia.
Defined.

(** ** Sector interleave *)

Example logical_sector_tables :
  map (logical_sector dsk_sector_format_dos_3_3) (seqZ 0 16)
  = [0; 7; 14; 6; 13; 5; 12; 4; 11; 3; 10; 2; 9; 1; 8; 15]
  ∧ map (logical_sector dsk_sector_format_prodos) (seqZ 0 16)
    = [0; 8; 1; 9; 2; 10; 3; 11; 4; 12; 5; 13; 6; 14; 7; 15].
Proof. by vm_compute. Qed.

Lemma physical_logical (fmt : dsk_sector_format) (s : Z) :
  0 ≤ s < 16 →
  (0 ≤ logical_sector fmt s < 16)
  ∧ physical_sector fmt (logical_sector fmt s) = s.
Proof.
  intros Hs.
  assert (((0 <=? logical_sector fmt s) && (logical_sector fmt s <? 16)
           && (physical_sector fmt (logical_sector fmt s) =? s)) = true) as Hb.
  { apply (range_forallb
             (λ s, (0 <=? logical_sector fmt s) && (logical_sector fmt s <? 16)
                   && (physical_sector fmt (logical_sector fmt s) =? s)) 0 16);
      [by destruct fmt; vm_compute|lia]. }
  apply andb_prop in Hb as [Hb H3]. apply andb_prop in Hb as [H1 H2].
  lia.
Qed.

Lemma logical_physical (fmt : dsk_sector_format) (l : Z) :
  0 ≤ l < 16 →
  (0 ≤ physical_sector fmt l < 16)
  ∧ logical_sector fmt (physical_sector fmt l) = l.
Proof.
  intros Hl.
  assert (((0 <=? physical_sector fmt l) && (physical_sector fmt l <? 16)
           && (logical_sector fmt (physical_sector fmt l) =? l)) = true) as Hb.
  { apply (range_forallb
             (λ l, (0 <=? physical_sector fmt l) && (physical_sector fmt l <? 16)
                   && (logical_sector fmt (physical_sector fmt l) =? l)) 0 16);
      [by destruct fmt; vm_compute|lia]. }
  apply andb_prop in Hb as [Hb H3]. apply andb_prop in Hb as [H1 H2].
  lia.
Qed.

(** C2. For DOS 3.3 (multiplier 7) and ProDOS (multiplier 8) the map from
    physical to logical sector, 15 for sector 15 and [(s * k) mod 15]
    otherwise, is a bijection of 0..15: it stays in range, no two physical
    sectors share a logical sector, and every logical sector is reached. *)
Theorem logical_sector_bijection (fmt : dsk_sector_format) :
  (∀ s, 0 ≤ s < 16 →
     logical_sector fmt s
     = (if s =? 15 then 15
        else (s * match fmt with
                  | dsk_sector_format_dos_3_3 => 7
                  | dsk_sector_format_prodos => 8
                  end) mod 15)
     ∧ 0 ≤ logical_sector fmt s < 16)
  ∧ (∀ s1 s2, 0 ≤ s1 < 16 → 0 ≤ s2 < 16 →
       logical_sector fmt s1 = logical_sector fmt s2 → s1 = s2)
  ∧ (∀ l, 0 ≤ l < 16 → ∃ s, 0 ≤ s < 16 ∧ logical_sector fmt s = l).
Proof.
  split; [|split].
  - intros s Hs. split; [|by apply physical_logical].
    unfold logical_sector. destruct (s =? 15); [done|].
    apply Z.rem_mod_nonneg; destruct fmt; lia.
  - intros s1 s2 H1 H2 Heq.
    rewrite <- (proj2 (physical_logical fmt s1 H1)).
    rewrite <- (proj2 (physical_logical fmt s2 H2)).
    by rewrite Heq.
  - intros l Hl. exists (physical_sector fmt l).
    by apply logical_physical.
Qed.

Lemma logical_sector_bijection_witness :
  (∀ s1 s2, 0 ≤ s1 < 16 → 0 ≤ s2 < 16 →
     logical_sector dsk_sector_format_dos_3_3 s1
     = logical_sector dsk_sector_format_dos_3_3 s2 → s1 = s2)
  ∧ logical_sector dsk_sector_format_prodos 3 = 9.
Proof.
  split.
  - apply (logical_sector_bijection dsk_sector_format_dos_3_3).
  - destruct (logical_sector_bijection dsk_sector_format_prodos) as (H & _).
    destruct (H 3) as [-> _]; [lia|reflexivity].
Defined.

(** ** The TMAP chunk *)

Lemma create_tmap_chunk_run :
  ∃ chunk, create_tmap_chunk = Some chunk
    ∧ name chunk = tag_TMAP
    ∧ data_length chunk = 160
    ∧ length (data chunk) = 160%nat.
Proof. eexists. split; [by vm_compute|]. by vm_compute. Qed.

(** C5. In the 160-byte TMAP payload, entry [t] is 0xFF when [t mod 4 = 2]
    or [t >= 139]; below that cut-off it is [t / 4] when [t mod 4] is 0 or 1
    and [t / 4 + 1] when [t mod 4 = 3]. *)
Theorem tmap_entries :
  ∃ chunk, create_tmap_chunk = Some chunk
    ∧ data_length chunk = 160
    ∧ length (data chunk) = 160%nat
    ∧ ∀ t, 0 ≤ t < 160 →
        ∃ entry, load (data chunk) t = Some entry
          ∧ (t mod 4 = 2 ∨ 139 ≤ t → entry = 0xFF)
          ∧ (t < 139 → t mod 4 = 0 ∨ t mod 4 = 1 → entry = t / 4)
          ∧ (t < 139 → t mod 4 = 3 → entry = t / 4 + 1).
Proof.
  destruct create_tmap_chunk_run as (chunk & Hrun & _ & Hdl & Hlen).
  exists chunk. split; [done|]. split; [done|]. split; [done|].
  intros t Ht.
  set (expected := λ t : Z,
         if (t mod 4 =? 2) || (139 <=? t) then 0xFF
         else if t mod 4 =? 3 then t / 4 + 1 else t / 4).
  assert (load (data chunk) t = Some (expected t)) as Hload.
  { set (check := λ t, match load (data chunk) t with
                         | Some v => v =? expected t
                         | None => false
                         end).
    assert (check t = true) as Hb.
    { apply (range_forallb check 0 160); [|lia].
      vm_compute in Hrun. injection Hrun as <-. by vm_compute. }
    unfold check in Hb. destruct (load (data chunk) t) as [v|]; [|done].
    f_equal. lia. }
  exists (expected t). split; [done|]. unfold expected.
  destruct (Z.eqb_spec (t mod 4) 2); destruct (Z.leb_spec 139 t);
    destruct (Z.eqb_spec (t mod 4) 3); simpl; lia.
Qed.

Lemma tmap_entries_witness :
  ∃ chunk, create_tmap_chunk = Some chunk
    ∧ load (data chunk) 7 = Some 2
    ∧ load (data chunk) 140 = Some 0xFF.
Proof.
  destruct tmap_entries as (chunk & Hrun & _ & _ & Hent).
  exists chunk. split; [exact Hrun|]. split.
  - destruct (Hent 7) as (e & -> & _ & _ & H3); [lia|].
    f_equal. apply H3; [lia|reflexivity].
  - destruct (Hent 140) as (e & -> & H1 & _); [lia|].
    f_equal. apply H1. right. lia.
Defined.

(** C6, as stated, fails: the payload does not have 139 populated entries
    and 21 entries equal to 0xFF. *)
Lemma tmap_counts_counterexample :
  ¬ ∃ chunk, create_tmap_chunk = Some chunk
      ∧ count_populated (data chunk) = 139%nat
      ∧ count_unused (data chunk) = 21%nat.
Proof.
  intros (chunk & Hrun & _ & Hc).
  vm_compute in Hrun. injection Hrun as <-.
  vm_compute in Hc. discriminate Hc.
Qed.

(** C6, amended. Positions 139..159 of the TMAP payload, 21 entries, all
    hold 0xFF; among positions 0..138 an entry is 0xFF exactly when
    [t mod 4 = 2], which are 35 more; so 56 entries in all equal 0xFF and
    104 hold a track number. *)
Theorem tmap_counts :
  ∃ chunk, create_tmap_chunk = Some chunk
    ∧ (∀ t, 139 ≤ t < 160 → load (data chunk) t = Some 0xFF)
    ∧ (∀ t, 0 ≤ t < 139 → load (data chunk) t = Some 0xFF ↔ t mod 4 = 2)
    ∧ count_unused (data chunk) = 56%nat
    ∧ count_populated (data chunk) = 104%nat.
Proof.
  destruct create_tmap_chunk_run as (chunk & Hrun & _).
  exists chunk. split; [done|].
  vm_compute in Hrun. injection Hrun as Hchunk.
  split; [|split; [|split; subst chunk; by vm_compute]].
  - intros t Ht.
    set (check := λ t, match load (data chunk) t with
                       | Some v => v =? 0xFF
                       | None => false
                       end).
    assert (check t = true) as Hb
      by (apply (range_forallb check 139 21);
          [subst chunk; by vm_compute|lia]).
    unfold check in Hb. destruct (load _ t) as [v|]; [|done]. f_equal. lia.
  - intros t Ht.
    set (check := λ t, match load (data chunk) t with
                       | Some v => Bool.eqb (v =? 0xFF) (t mod 4 =? 2)
                       | None => false
                       end).
    assert (check t = true) as Hb
      by (apply (range_forallb check 0 139);
          [subst chunk; by vm_compute|lia]).
    unfold check in Hb. destruct (load _ t) as [v|]; [|done].
    apply Bool.eqb_prop in Hb.
    split.
    + intros [= ->]. simpl in Hb. symmetry in Hb. lia.
    + intros Hm. f_equal.
      destruct (Z.eqb_spec (t mod 4) 2); [|done]. lia.
Qed.

Lemma tmap_counts_witness :
  ∃ chunk, create_tmap_chunk = Some chunk
    ∧ load (data chunk) 2 = Some 0xFF
    ∧ load (data chunk) 159 = Some 0xFF.
Proof.
  destruct tmap_counts as (chunk & Hrun & Hhi & Hlo & _).
  exists chunk. split; [exact Hrun|]. split.
  - apply Hlo; [lia|reflexivity].
  - apply Hhi. lia.
Defined.

(** ** Bounds through bitwise operations *)

Lemma bits_of_small (x n k : Z) :
  0 ≤ x < 2 ^ n → n ≤ k → Z.testbit x k = false.
Proof.
  intros Hx Hk. rewrite <- (Z.mod_small x (2 ^ n)) by done.
  apply Z.mod_pow2_bits_high.
  split; [|done]. destruct (decide (0 ≤ n)); [done|].
  rewrite Z.pow_neg_r in Hx by lia. lia.
Qed.

Lemma small_of_bits (x n : Z) :
  0 ≤ n → (∀ k, n ≤ k → Z.testbit x k = false) → 0 ≤ x < 2 ^ n.
Proof.
  intros Hn Hbits.
  assert (x = x mod 2 ^ n) as ->.
  { apply Z.bits_inj'. intros k Hk.
    destruct (decide (k < n)).
    - by rewrite Z.mod_pow2_bits_low.
    - rewrite Z.mod_pow2_bits_high by lia. apply Hbits. lia. }
  apply Z.mod_pos_bound. by apply Z.pow_pos_nonneg.
Qed.

Lemma lor_small (a b n : Z) :
  0 ≤ n → 0 ≤ a < 2 ^ n → 0 ≤ b < 2 ^ n → 0 ≤ Z.lor a b < 2 ^ n.
Proof.
  intros Hn Ha Hb. apply small_of_bits; [done|]. intros k Hk.
  by rewrite Z.lor_spec, (bits_of_small a n k), (bits_of_small b n k).
Qed.

Lemma lxor_small (a b n : Z) :
  0 ≤ n → 0 ≤ a < 2 ^ n → 0 ≤ b < 2 ^ n → 0 ≤ Z.lxor a b < 2 ^ n.
Proof.
  intros Hn Ha Hb. apply small_of_bits; [done|]. intros k Hk.
  by rewrite Z.lxor_spec, (bits_of_small a n k), (bits_of_small b n k).
Qed.

Lemma shiftl_small (a m n : Z) :
  0 ≤ m → 0 ≤ n → 0 ≤ a < 2 ^ n → 0 ≤ Z.shiftl a m < 2 ^ (n + m).
Proof.
  intros Hm Hn Ha. rewrite Z.shiftl_mul_pow2 by done.
  rewrite Z.pow_add_r by done.
  assert (0 < 2 ^ m) by (by apply Z.pow_pos_nonneg). nia.
Qed.

Lemma shiftr_small (a m n : Z) :
  0 ≤ m → 0 ≤ n → 0 ≤ a < 2 ^ (n + m) → 0 ≤ Z.shiftr a m < 2 ^ n.
Proof.
  intros Hm Hn Ha. rewrite Z.shiftr_div_pow2 by done.
  rewrite Z.pow_add_r in Ha by done.
  assert (0 < 2 ^ m) by (by apply Z.pow_pos_nonneg).
  split; [apply Z.div_pos; lia|].
  apply Z.div_lt_upper_bound; [done|nia].
Qed.

(** ** The sector encoder *)

Example encode_zero_sector :
  encode_6_and_2 (replicate 343 0) (replicate 256 0)
  = Some (replicate 343 0x96).
Proof. by vm_compute. Qed.

Lemma reverse_2bit_small (v : Z) : 0 ≤ reverse_2bit v < 4.
Proof. destruct v as [|[[| |]|[| |]|]|]; simpl; lia. Qed.

Lemma bit_reverse_load (v : Z) :
  load bit_reverse (Z.land v 3) = Some (reverse_2bit (Z.land v 3)).
Proof.
  assert (0 ≤ Z.land v 3 < 4) as Hr.
  { change 3 with (Z.ones 2). rewrite Z.land_ones by lia.
    apply Z.mod_pos_bound. lia. }
  assert (Z.land v 3 = 0 ∨ Z.land v 3 = 1 ∨ Z.land v 3 = 2 ∨ Z.land v 3 = 3)
    as [-> | [-> | [-> | ->]]] by lia; reflexivity.
Qed.

Lemma low_part_small (src : list Z) (c : Z) : 0 ≤ low_part src c < 2 ^ 2.
Proof. apply reverse_2bit_small. Qed.

Lemma extend_store (d : list Z) (c v : Z) (P : Z → Z) :
  0 ≤ c < Z.of_nat (length d) →
  (∀ j, 0 ≤ j < c → load d j = Some (P j)) →
  v = P c →
  ∀ j, 0 ≤ j < c + 1 → load (<[Z.to_nat c := v]> d) j = Some (P j).
Proof.
  intros Hc Hd -> j Hj. destruct (decide (j = c)) as [->|Hne].
  - by apply load_store_eq.
  - rewrite load_store_ne by lia. apply Hd. lia.
Qed.

Lemma store_extend (d : list Z) (c v : Z) (P : Z → Z) :
  0 ≤ c < Z.of_nat (length d) →
  (∀ j, 0 ≤ j < c → load d j = Some (P j)) →
  v = P c →
  ∃ d', store d c v = Some d' ∧ length d' = length d
    ∧ ∀ j, 0 ≤ j < c + 1 → load d' j = Some (P j).
Proof.
  intros Hc Hd Hv. rewrite store_Some by done.
  eexists. split; [done|]. split; [by rewrite length_insert|].
  by apply extend_store.
Qed.

Lemma nibble_load (v : Z) :
  0 ≤ v < 64 → load six_and_two_mapping v = Some (nibble v).
Proof.
  intros Hv. destruct (load_Some six_and_two_mapping v) as [m Hm];
    [simpl; lia|].
  unfold nibble. by rewrite Hm.
Qed.

Lemma list_of_loads (d : list Z) (f : Z → Z) (n : Z) :
  Z.of_nat (length d) = n →
  (∀ j, 0 ≤ j < n → load d j = Some (f j)) →
  d = map f (seqZ 0 n).
Proof.
  intros Hlen Hd. apply list_eq. intros i.
  change (map f (seqZ 0 n)) with (f <$> seqZ 0 n).
  rewrite list_lookup_fmap.
  destruct (decide (Z.of_nat i < n)) as [Hi|Hi].
  - rewrite lookup_seqZ_lt by lia. simpl.
    rewrite <- load_nat. rewrite Hd by lia. done.
  - rewrite lookup_seqZ_ge by lia. simpl.
    apply lookup_ge_None. lia.
Qed.

Section Sector.

Variable src : list Z.
Hypothesis src_length : 256 ≤ Z.of_nat (length src).
Hypothesis src_bytes : Forall is_byte src.

Lemma src_load (c : Z) : 0 ≤ c < 256 → load src c = Some (src_byte src c).
Proof.
  intros Hc. destruct (load_Some src c) as [v Hv]; [lia|].
  unfold src_byte. by rewrite Hv.
Qed.

Lemma src_byte_byte (c : Z) : 0 ≤ c < 256 → is_byte (src_byte src c).
Proof. intros Hc. eapply load_byte; [done|by apply src_load]. Qed.

Lemma high_part_small (c : Z) : 0 ≤ c < 256 → 0 ≤ high_part src c < 2 ^ 6.
Proof.
  intros Hc. apply shiftr_small; [lia..|]. by apply src_byte_byte.
Qed.

Lemma pre_nibble_small (c : Z) : 0 ≤ c < 343 → 0 ≤ pre_nibble src c < 2 ^ 6.
Proof.
  intros Hc. unfold pre_nibble.
  pose proof (low_part_small src c). pose proof (low_part_small src (c + 86)).
  pose proof (low_part_small src (c + 172)).
  pose proof (shiftl_small (low_part src (c + 86)) 2 2).
  pose proof (shiftl_small (low_part src (c + 172)) 4 2).
  destruct (Z.ltb_spec c 84); [|destruct (Z.ltb_spec c 86);
    [|destruct (Z.ltb_spec c 342)]].
  - apply lor_small; [lia| |simpl in *; lia].
    apply lor_small; simpl in *; lia.
  - apply lor_small; simpl in *; lia.
  - apply high_part_small. lia.
  - apply high_part_small. lia.
Qed.

Lemma xor_chain_small (top c : Z) :
  0 ≤ c < 343 → 0 ≤ xor_chain top (pre_nibble src) c < 2 ^ 6.
Proof.
  intros Hc. unfold xor_chain.
  destruct (Z.leb_spec 1 c); destruct (Z.leb_spec c top); simpl;
    try (apply pre_nibble_small; lia).
  apply lxor_small; [lia|apply pre_nibble_small; lia..].
Qed.


Lemma pre_nibble_low3 (c : Z) :
  c < 84 →
  pre_nibble src c
  = Z.lor (Z.lor (low_part src c) (Z.shiftl (low_part src (c + 86)) 2))
          (Z.shiftl (low_part src (c + 172)) 4).
Proof.
  intros Hc. unfold pre_nibble. by destruct (Z.ltb_spec c 84); [|lia].
Qed.

Lemma pre_nibble_low2 (c : Z) :
  84 ≤ c < 86 →
  pre_nibble src c
  = Z.lor (low_part src c) (Z.shiftl (low_part src (c + 86)) 2).
Proof.
  intros Hc. unfold pre_nibble.
  destruct (Z.ltb_spec c 84); [lia|]. by destruct (Z.ltb_spec c 86); [|lia].
Qed.

Lemma pre_nibble_high (c : Z) :
  86 ≤ c < 342 → pre_nibble src c = high_part src (c - 86).
Proof.
  intros Hc. unfold pre_nibble.
  destruct (Z.ltb_spec c 84); [lia|]. destruct (Z.ltb_spec c 86); [lia|].
  by destruct (Z.ltb_spec c 342); [|lia].
Qed.

Lemma pre_nibble_last : pre_nibble src 342 = pre_nibble src 341.
Proof. reflexivity. Qed.

Lemma to_uint8_pre_nibble (c : Z) :
  0 ≤ c < 343 → to_uint8 (pre_nibble src c) = pre_nibble src c.
Proof.
  intros Hc. apply to_uint8_small.
  pose proof (pre_nibble_small c Hc). unfold is_byte. simpl in *. lia.
Qed.

(** The state of the array before the table lookup. *)
Lemma encode_6_and_2_fill_run (dest : list Z) :
  length dest = 343%nat →
  ∃ pre, encode_6_and_2_fill dest src = Some pre
    ∧ length pre = 343%nat
    ∧ ∀ i, 0 ≤ i < 343 →
        load pre i = Some (xor_chain 341 (pre_nibble src) i).
Proof.
  intros Hlen. unfold encode_6_and_2_fill.
  (* the three-field bytes *)
  match goal with |- context [for_range 0 84 ?body dest] =>
    destruct (for_range_inv
      (λ c d, length d = 343%nat
              ∧ ∀ j, 0 ≤ j < c → load d j = Some (pre_nibble src j))
      body 0 84 dest) as (d1 & -> & Hl1 & H1)
  end.
  { lia. }
  { split; [done|]. intros j Hj. lia. }
  { intros c d Hc [Hl Hd]. rewrite !src_load by lia. mstep.
    rewrite !bit_reverse_load. mstep. rewrite store_Some by lia.
    eexists. split; [done|]. split; [by rewrite length_insert|].
    apply extend_store; [lia|done|].
    rewrite <- (to_uint8_pre_nibble c) by lia.
    by rewrite pre_nibble_low3 by lia. }
  mstep.
  (* the two-field bytes *)
  rewrite !src_load by lia. mstep. rewrite !bit_reverse_load. mstep.
  rewrite !Z.shiftl_0_r.
  match goal with |- context [store d1 84 ?v] =>
    destruct (store_extend d1 84 v (pre_nibble src))
      as (d1a & -> & Hl1a & H2)
  end; [lia|done| |].
  { rewrite <- (to_uint8_pre_nibble 84) by lia.
    by rewrite pre_nibble_low2 by lia. }
  mstep.
  match goal with |- context [store d1a 85 ?v] =>
    destruct (store_extend d1a 85 v (pre_nibble src))
      as (d1b & -> & Hl1b & H3)
  end; [lia|done| |].
  { rewrite <- (to_uint8_pre_nibble 85) by lia.
    by rewrite pre_nibble_low2 by lia. }
  mstep. clear H1 H2.
  (* the six-bit bytes *)
  match goal with |- context [for_range 0 256 ?body ?d0] =>
    destruct (for_range_inv
      (λ c d, length d = 343%nat
              ∧ ∀ j, 0 ≤ j < 86 + c → load d j = Some (pre_nibble src j))
      body 0 256 d0) as (d2 & -> & Hl2 & H4)
  end.
  { lia. }
  { split; [lia|exact H3]. }
  { intros c d Hc [Hl Hd]. rewrite src_load by lia. mstep.
    rewrite store_Some by lia.
    eexists. split; [done|]. split; [by rewrite length_insert|].
    replace (86 + (c + 1)) with (86 + c + 1) by lia.
    apply extend_store; [lia|done|].
    rewrite pre_nibble_high by lia.
    replace (86 + c - 86) with c by lia.
    apply to_uint8_small. pose proof (high_part_small c Hc).
    unfold is_byte. simpl in *. lia. }
  mstep. clear H3.
  (* the copy of the last byte *)
  rewrite (H4 341) by lia. mstep.
  destruct (store_extend d2 342 (pre_nibble src 341) (pre_nibble src))
    as (d2a & -> & Hl2a & H5); [lia|done|done|].
  mstep.
  (* the exclusive-or pass *)
  match goal with |- context [while_loop 342 ?cond ?body ?s0] =>
    destruct (while_loop_inv
      (λ '(d, location),
         1 ≤ location ≤ 342 ∧ length d = 343%nat
         ∧ ∀ j, 0 ≤ j < 343 →
             load d j
             = Some (if (location <=? j) && (j <=? 341)
                     then Z.lxor (pre_nibble src j) (pre_nibble src (j - 1))
                     else pre_nibble src j))
      (λ '(_, location), Z.to_nat location)
      cond body 342 s0) as ([d3 loc] & -> & (Hloc & Hl3 & H6) & Hexit)
  end.
  { split; [lia|]. split; [lia|].
    intros j Hj. rewrite H5 by lia.
    destruct (Z.leb_spec 342 j); destruct (Z.leb_spec j 341); mstep;
      try done; lia. }
  { lia. }
  { intros [d location] (Hloc & Hl & Hd) Hcond.
    apply Z.ltb_lt in Hcond.
    rewrite (Hd (location - 1)), (Hd (location - 1 - 1)) by lia.
    destruct (Z.leb_spec location (location - 1)); [lia|].
    destruct (Z.leb_spec location (location - 1 - 1)); [lia|].
    mstep. rewrite store_Some by lia. mstep.
    eexists. split; [done|]. split; [|lia].
    split; [lia|]. split; [by rewrite length_insert|].
    intros j Hj. destruct (decide (j = location - 1)) as [->|Hne].
    - rewrite load_store_eq by lia.
      destruct (Z.leb_spec (location - 1) (location - 1)); [|lia].
      destruct (Z.leb_spec (location - 1) 341); [|lia]. mstep.
      f_equal. apply to_uint8_small.
      pose proof (lxor_small (pre_nibble src (location - 1))
                    (pre_nibble src (location - 1 - 1)) 6 ltac:(lia)
                    (pre_nibble_small (location - 1) ltac:(lia))
                    (pre_nibble_small (location - 1 - 1) ltac:(lia))).
      unfold is_byte. simpl in *. lia.
    - rewrite load_store_ne by lia. rewrite Hd by done.
      destruct (Z.leb_spec location j); destruct (Z.leb_spec (location - 1) j);
        try lia; done. }
  mstep. exists d3. split; [done|]. split; [done|].
  intros i Hi. rewrite H6 by done. unfold xor_chain.
  simpl in Hexit. apply Z.ltb_ge in Hexit.
  assert (loc = 1) as -> by lia. done.
Qed.

Lemma encode_6_and_2_run (dest : list Z) :
  length dest = 343%nat →
  encode_6_and_2 dest src = Some (encode_sector_ref src).
Proof.
  intros Hlen. unfold encode_6_and_2.
  destruct (encode_6_and_2_fill_run dest Hlen) as (pre & -> & Hl & Hpre).
  mstep.
  match goal with |- context [for_range 0 343 ?body pre] =>
    destruct (for_range_inv
      (λ c d, length d = 343%nat
              ∧ (∀ j, 0 ≤ j < c →
                   load d j
                   = Some (nibble (xor_chain 341 (pre_nibble src) j)))
              ∧ (∀ j, c ≤ j < 343 →
                   load d j = Some (xor_chain 341 (pre_nibble src) j)))
      body 0 343 pre) as (out & -> & Hlo & Hout & _)
  end.
  { lia. }
  { split; [done|]. split; [intros j Hj; lia|]. intros j Hj. apply Hpre. lia. }
  { intros c d Hc (Hld & Hlow & Hhigh).
    rewrite Hhigh by lia. mstep.
    rewrite nibble_load by (pose proof (xor_chain_small 341 c); simpl in *; lia).
    mstep. rewrite store_Some by lia.
    eexists. split; [done|]. split; [by rewrite length_insert|]. split.
    - by apply extend_store; [lia|done|].
    - intros j Hj. rewrite load_store_ne by lia. apply Hhigh. lia. }
  f_equal. apply list_of_loads; [lia|done].
Qed.

End Sector.

(** C1, as stated, fails: on the sector of 256 bytes 0xFF the code does not
    produce what the chain from index 342 down to 1 produces (the last byte
    is 0xFF, not the image 0x96 of zero). *)
Lemma encode_6_and_2_spec_counterexample :
  encode_6_and_2 (replicate 343 0) (replicate 256 255)
  ≠ Some (encode_sector_spec (replicate 256 255))
  ∧ (encode_6_and_2 (replicate 343 0) (replicate 256 255)
       ≫= λ out, load out 342) = Some 0xFF
  ∧ load (encode_sector_spec (replicate 256 255)) 342 = Some 0x96.
Proof.
  split; [|split]; [|by vm_compute..].
  intros Heq.
  assert ((encode_6_and_2 (replicate 343 0) (replicate 256 255)
             ≫= λ out, load out 342)
          = load (encode_sector_spec (replicate 256 255)) 342) as Hlast
    by (by rewrite Heq).
  vm_compute in Hlast. discriminate Hlast.
Qed.

(** C1, amended. For every 256-byte sector, [encode_6_and_2] fills a
    343-byte array with the table image of these intermediate bytes: bytes
    0..83 pack the bit-reversed low two bits of source bytes [c], [c+86],
    [c+172] into bit fields 0-1, 2-3, 4-5; bytes 84 and 85 pack two such
    fields (source 84/170 and 85/171); bytes 86..341 are [src[c] >> 2];
    byte 342 is a copy of byte 341; then each byte from index 341 down to 1
    is exclusive-ORed with its original predecessor, and byte 342 is left as
    the copy. *)
Theorem encode_6_and_2_correct (dest src : list Z) :
  length dest = 343%nat →
  length src = 256%nat →
  Forall is_byte src →
  encode_6_and_2 dest src = Some (encode_sector_ref src)
  ∧ length (encode_sector_ref src) = 343%nat
  ∧ ∀ i, 0 ≤ i < 343 →
      load (encode_sector_ref src) i
      = Some (nibble (if (1 <=? i) && (i <=? 341)
                      then Z.lxor (pre_nibble src i) (pre_nibble src (i - 1))
                      else pre_nibble src i)).
Proof.
  intros Hdest Hsrc Hbytes. split; [|split].
  - apply encode_6_and_2_run; [lia|done|done].
  - unfold encode_sector_ref, encode_sector_with.
    by rewrite length_map, length_seqZ.
  - intros i Hi. unfold encode_sector_ref, encode_sector_with.
    rewrite load_lookup by lia.
    change (map ?f ?l) with (f <$> l).
    rewrite list_lookup_fmap, lookup_seqZ_lt by lia.
    rewrite Z.add_0_l, Z2Nat.id by lia. done.
Qed.

Lemma encode_6_and_2_correct_witness :
  encode_6_and_2 (replicate 343 0) (replicate 256 255)
  = Some (encode_sector_ref (replicate 256 255)).
Proof.
  apply (encode_6_and_2_correct (replicate 343 0) (replicate 256 255)).
  - reflexivity.
  - reflexivity.
  - apply Forall_replicate. unfold is_byte. lia.
Defined.

(** C9. For every 256-byte sector, when [encode_6_and_2] reaches the table
    lookup every byte of the array is at most 0x3F, so each index into the
    64-entry table is in bounds: the lookups all succeed and the encoder
    returns a result. *)
Theorem encode_6_and_2_lookup_in_bounds (dest src : list Z) :
  length dest = 343%nat →
  length src = 256%nat →
  Forall is_byte src →
  ∃ pre, encode_6_and_2_fill dest src = Some pre
    ∧ length pre = 343%nat
    ∧ (∀ i v, load pre i = Some v →
         0 ≤ v ≤ 0x3F ∧ is_Some (load six_and_two_mapping v))
    ∧ is_Some (encode_6_and_2 dest src).
Proof.
  intros Hdest Hsrc Hbytes.
  assert (256 ≤ Z.of_nat (length src)) as Hsrc' by lia.
  destruct (encode_6_and_2_fill_run src Hsrc' Hbytes dest Hdest)
    as (pre & Hfill & Hlen & Hpre).
  exists pre. split; [done|]. split; [done|]. split.
  - intros i v Hv. pose proof (load_bound _ _ _ Hv) as Hi.
    rewrite Hpre in Hv by lia. injection Hv as <-.
    assert (0 ≤ i < 343) as Hi' by lia.
    pose proof (xor_chain_small src Hsrc' Hbytes 341 i Hi') as Hx.
    change (2 ^ 6) with 64 in Hx. split; [lia|].
    rewrite nibble_load by lia. done.
  - rewrite (encode_6_and_2_run src Hsrc' Hbytes dest Hdest). done.
Qed.

Lemma encode_6_and_2_lookup_in_bounds_witness :
  ∃ pre, encode_6_and_2_fill (replicate 343 0) (replicate 256 255) = Some pre
    ∧ length pre = 343%nat
    ∧ (∀ i v, load pre i = Some v →
         0 ≤ v ≤ 0x3F ∧ is_Some (load six_and_two_mapping v))
    ∧ is_Some (encode_6_and_2 (replicate 343 0) (replicate 256 255)).
Proof.
  apply (encode_6_and_2_lookup_in_bounds (replicate 343 0) (replicate 256 255)).
  - reflexivity.
  - reflexivity.
  - apply Forall_replicate. unfold is_byte. lia.
Defined.

(** ** The track encoder *)

Lemma store_bytes (d d' : list Z) (c v : Z) :
  store d c v = Some d' → is_byte v → Forall is_byte d → Forall is_byte d'.
Proof. intros [_ ->]%store_inv Hv Hd. by apply Forall_insert. Qed.

Lemma bits_write_byte_bytes (buffer buffer' : list Z) (index value i' : Z) :
  bits_write_byte buffer index value = Some (buffer', i') →
  Forall is_byte buffer → Forall is_byte buffer'.
Proof.
  unfold bits_write_byte. intros Hw Hb.
  destruct (load buffer (Z.shiftr index 3)) as [old|]; [|done].
  cbn [mbind option_bind] in Hw.
  destruct (store buffer _ _) as [b1|] eqn:Hs1; [|done].
  cbn [mbind option_bind] in Hw.
  apply store_bytes in Hs1; [|apply to_uint8_byte|done].
  destruct (Z.land index 7 =? 0).
  - cbn [mbind option_bind] in Hw. by injection Hw as <- _.
  - destruct (load b1 _) as [old1|]; [|done].
    cbn [mbind option_bind] in Hw.
    destruct (store b1 _ _) as [b2|] eqn:Hs2; [|done].
    cbn [mbind option_bind] in Hw. injection Hw as <- _.
    apply store_bytes in Hs2; [done|apply to_uint8_byte|done].
Qed.

Lemma memset_run (dest : list Z) (c n : Z) :
  0 ≤ n ≤ Z.of_nat (length dest) →
  ∃ dest', memset dest c n = Some dest' ∧ length dest' = length dest
    ∧ (Forall is_byte dest → Forall is_byte dest')
    ∧ ∀ j, 0 ≤ j < n → load dest' j = Some (to_uint8 c).
Proof.
  intros Hn. unfold memset.
  destruct (Z.leb_spec 0 n); [|lia].
  destruct (Z.leb_spec n (Z.of_nat (length dest))); [|lia].
  eexists. split; [done|]. split; [|split].
  - rewrite length_app, length_replicate, length_drop. lia.
  - intros Hb. apply Forall_app. split.
    + apply Forall_replicate, to_uint8_byte.
    + by apply Forall_drop.
  - intros j Hj. rewrite load_lookup by lia.
    rewrite lookup_app_l by (rewrite length_replicate; lia).
    apply lookup_replicate_2. lia.
Qed.

Lemma step_byte_ok (value : Z) (dest : list Z) (bit_index : Z) :
  0 ≤ bit_index → bit_index + 8 ≤ 8 * Z.of_nat (length dest) →
  ∃ dest', step_byte value (dest, bit_index) = Some (dest', bit_index + 8)
    ∧ length dest' = length dest
    ∧ (Forall is_byte dest → Forall is_byte dest').
Proof.
  intros H0 Hcap.
  destruct (bits_write_byte_ok dest bit_index value H0 Hcap) as (d & Hw & Hl).
  exists d. split; [done|]. split; [done|].
  by eapply bits_write_byte_bytes.
Qed.

Lemma step_4_and_4_ok (value : Z) (dest : list Z) (bit_index : Z) :
  0 ≤ bit_index → bit_index + 16 ≤ 8 * Z.of_nat (length dest) →
  ∃ dest', step_4_and_4 value (dest, bit_index) = Some (dest', bit_index + 16)
    ∧ length dest' = length dest
    ∧ (Forall is_byte dest → Forall is_byte dest').
Proof.
  intros H0 Hcap. unfold step_4_and_4, bits_write_4_and_4.
  destruct (step_byte_ok (Z.lor (Z.shiftr value 1) 170) dest bit_index)
    as (d1 & Hw1 & Hl1 & Hb1); [lia..|].
  unfold step_byte in Hw1. rewrite Hw1. mstep.
  destruct (step_byte_ok (Z.lor value 170) d1 (bit_index + 8))
    as (d2 & Hw2 & Hl2 & Hb2); [lia..|].
  unfold step_byte in Hw2. rewrite Hw2. mstep.
  exists d2. split; [f_equal; f_equal; lia|]. split; [lia|auto].
Qed.

Lemma bits_write_sync_ok (dest : list Z) (bit_index : Z) :
  0 ≤ bit_index → bit_index + 8 ≤ 8 * Z.of_nat (length dest) →
  ∃ dest', bits_write_sync dest bit_index = Some (dest', bit_index + 10)
    ∧ length dest' = length dest
    ∧ (Forall is_byte dest → Forall is_byte dest').
Proof.
  intros H0 Hcap. unfold bits_write_sync.
  destruct (step_byte_ok 255 dest bit_index) as (d1 & Hw1 & Hl1 & Hb1);
    [lia..|].
  unfold step_byte in Hw1. rewrite Hw1. mstep.
  exists d1. split; [f_equal; f_equal; lia|]. split; [lia|done].
Qed.

Lemma step_syncs_ok (n : Z) (dest : list Z) (bit_index : Z) :
  0 ≤ n → 0 ≤ bit_index → bit_index + 10 * n ≤ 8 * Z.of_nat (length dest) →
  ∃ dest', step_syncs n (dest, bit_index) = Some (dest', bit_index + 10 * n)
    ∧ length dest' = length dest
    ∧ (Forall is_byte dest → Forall is_byte dest').
Proof.
  intros Hn H0 Hcap. unfold step_syncs.
  match goal with |- context [for_range 0 n ?body ?s0] =>
    destruct (for_range_inv
      (λ i '(d, idx), length d = length dest ∧ idx = bit_index + 10 * i
                      ∧ (Forall is_byte dest → Forall is_byte d))
      body 0 n s0) as ([d idx] & -> & Hl & -> & Hb)
  end.
  - lia.
  - split; [done|]. split; [lia|done].
  - intros i [d idx] Hi (Hl & -> & Hb).
    destruct (bits_write_sync_ok d (bit_index + 10 * i))
      as (d' & -> & Hl' & Hb'); [lia..|].
    exists (d', bit_index + 10 * i + 10). split; [done|].
    split; [lia|]. split; [lia|auto].
  - by exists d.
Qed.

Lemma write_bytes_ok (encoded_contents dest : list Z) (n bit_index : Z) :
  0 ≤ n ≤ Z.of_nat (length encoded_contents) →
  0 ≤ bit_index → bit_index + 8 * n ≤ 8 * Z.of_nat (length dest) →
  ∃ dest',
    for_range 0 n (λ i '(dest, bit_index),
      v ← load encoded_contents i; bits_write_byte dest bit_index v)
      (dest, bit_index)
    = Some (dest', bit_index + 8 * n)
    ∧ length dest' = length dest
    ∧ (Forall is_byte dest → Forall is_byte dest').
Proof.
  intros Hn H0 Hcap.
  match goal with |- context [for_range 0 n ?body ?s0] =>
    destruct (for_range_inv
      (λ i '(d, idx), length d = length dest ∧ idx = bit_index + 8 * i
                      ∧ (Forall is_byte dest → Forall is_byte d))
      body 0 n s0) as ([d idx] & -> & Hl & -> & Hb)
  end.
  - lia.
  - split; [done|]. split; [lia|done].
  - intros i [d idx] Hi (Hl & -> & Hb).
    destruct (load_Some encoded_contents i) as [v ->]; [lia|]. mstep.
    destruct (step_byte_ok v d (bit_index + 8 * i)) as (d' & Hw & Hl' & Hb');
      [lia..|].
    unfold step_byte in Hw. rewrite Hw.
    exists (d', bit_index + 8 * i + 8). split; [done|].
    split; [lia|]. split; [lia|auto].
  - by exists d.
Qed.

Lemma ptr_add_length (a : list Z) (k : Z) :
  0 ≤ k ≤ Z.of_nat (length a) →
  Z.of_nat (length (ptr_add a k)) = Z.of_nat (length a) - k.
Proof. intros Hk. unfold ptr_add. rewrite length_drop. lia. Qed.

Lemma ptr_add_bytes (a : list Z) (k : Z) :
  Forall is_byte a → Forall is_byte (ptr_add a k).
Proof. apply Forall_drop. Qed.

Lemma ptr_add_load (a : list Z) (k i : Z) :
  0 ≤ k → 0 ≤ i → load (ptr_add a k) i = load a (k + i).
Proof.
  intros Hk Hi. rewrite !load_lookup by lia. unfold ptr_add.
  rewrite lookup_drop. f_equal. lia.
Qed.

Ltac keep_bytes d Hb :=
  match goal with
  | H : Forall is_byte d |- _ => specialize (Hb H)
  end.

Ltac run_step :=
  match goal with
  | |- context [step_byte ?v (?d, ?i)] =>
      let d' := fresh "d" in let Hl := fresh "Hl" in let Hb := fresh "Hb" in
      destruct (step_byte_ok v d i) as (d' & -> & Hl & Hb); [lia|lia|];
      keep_bytes d Hb; mstep
  | |- context [step_4_and_4 ?v (?d, ?i)] =>
      let d' := fresh "d" in let Hl := fresh "Hl" in let Hb := fresh "Hb" in
      destruct (step_4_and_4_ok v d i) as (d' & -> & Hl & Hb); [lia|lia|];
      keep_bytes d Hb; mstep
  | |- context [step_syncs ?n (?d, ?i)] =>
      let d' := fresh "d" in let Hl := fresh "Hl" in let Hb := fresh "Hb" in
      destruct (step_syncs_ok n d i) as (d' & -> & Hl & Hb); [lia|lia|lia|];
      keep_bytes d Hb; mstep
  end.

Section Track.

Variable uninit : nat → list Z.
Hypothesis uninit_length : ∀ n, length (uninit n) = n.
Hypothesis uninit_bytes : ∀ n, Forall is_byte (uninit n).

Lemma encode_bits_for_track_run (dest src : list Z) (track_number : Z)
    (sector_format : dsk_sector_format) :
  6656 ≤ Z.of_nat (length dest) →
  4096 ≤ Z.of_nat (length src) →
  Forall is_byte src →
  Forall is_byte dest →
  ∃ dest',
    encode_bits_for_track uninit dest src track_number sector_format
    = Some (dest', 50632)
    ∧ length dest' = length dest
    ∧ Forall is_byte dest'.
Proof.
  intros Hdest Hsrc Hbytes Hdbytes. unfold encode_bits_for_track.
  destruct (memset_run dest 0 BITS_TRACK_SIZE) as (d0 & -> & Hl0 & Hb0 & _);
    [unfold BITS_TRACK_SIZE, BITS_BLOCKS_PER_TRACK, BITS_BLOCK_SIZE; lia|].
  specialize (Hb0 Hdbytes).
  mstep. unfold TRACK_LEADER_SYNC_COUNT, SECTORS_PER_TRACK.
  run_step.
  match goal with |- context [for_range 0 16 ?body ?s0] =>
    destruct (for_range_inv
      (λ s '(d, idx),
         length d = length dest
         ∧ idx = 640 + 3134 * s - (if s =? 16 then 152 else 0)
         ∧ Forall is_byte d)
      body 0 16 s0) as ([dend idx] & -> & Hlend & -> & Hbend)
  end.
  - lia.
  - split; [lia|]. split; [simpl; lia|done].
  - intros s [dcur idx] Hs (Hlcur & -> & Hbcur).
    destruct (Z.eqb_spec s 16) as [|_]; [lia|].
    repeat run_step.
    pose proof (physical_logical sector_format s ltac:(lia)) as [Hlog _].
    rewrite (encode_6_and_2_run
               (ptr_add src (logical_sector sector_format s * BYTES_PER_SECTOR)));
      [| rewrite ptr_add_length; unfold BYTES_PER_SECTOR; lia
       | by apply ptr_add_bytes
       | by rewrite uninit_length ].
    mstep.
    match goal with
    | Hd : Forall is_byte ?d |- context [for_range 0 _ ?body (?d, ?i)] =>
      destruct (write_bytes_ok
                  (encode_sector_ref
                     (ptr_add src
                        (logical_sector sector_format s * BYTES_PER_SECTOR)))
                  d BITS_SECTOR_CONTENTS_SIZE i) as (dd & -> & Hldd & Hbdd);
        [| | |specialize (Hbdd Hd)]
    end.
    { unfold BITS_SECTOR_CONTENTS_SIZE, encode_sector_ref, encode_sector_with.
      rewrite length_map, length_seqZ. lia. }
    { lia. }
    { unfold BITS_SECTOR_CONTENTS_SIZE. lia. }
    mstep. unfold BITS_SECTOR_CONTENTS_SIZE.
    repeat run_step.
    destruct (Z.ltb_spec s (16 - 1)).
    + eexists (_, _). split; [done|]. split; [lia|].
      split; [destruct (Z.eqb_spec (s + 1) 16); lia|done].
    + eexists (_, _). split; [done|]. split; [lia|].
      split; [destruct (Z.eqb_spec (s + 1) 16); lia|done].
  - exists dend. split; [done|]. split; [lia|done].
Qed.


Lemma encode_tracks_run (dsk : list Z) (sector_format : dsk_sector_format) :
  Z.of_nat (length dsk) = DSK_IMAGE_SIZE →
  Forall is_byte dsk →
  ∃ track_data,
    encode_tracks uninit dsk sector_format = Some (track_data, 50632)
    ∧ Z.of_nat (length track_data) = TRACKS_PER_DISK * BITS_TRACK_SIZE
    ∧ Forall is_byte track_data.
Proof.
  unfold encode_tracks, DSK_IMAGE_SIZE, BYTES_PER_TRACK, SECTORS_PER_TRACK,
    BYTES_PER_SECTOR, BITS_TRACK_SIZE, BITS_BLOCKS_PER_TRACK, BITS_BLOCK_SIZE,
    TRACKS_PER_DISK.
  intros Hdsk Hbytes.
  match goal with |- context [for_range 0 35 ?body ?s0] =>
    destruct (for_range_inv
      (λ t '(td, vb),
         Z.of_nat (length td) = 232960 ∧ (0 < t → vb = 50632)
         ∧ Forall is_byte td)
      body 0 35 s0) as ([td vb] & -> & Hl & Hvb & Hb)
  end.
  - lia.
  - rewrite uninit_length. split; [lia|]. split; [lia|done].
  - intros t [td vb] Ht (Hl & _ & Hb).
    destruct (encode_bits_for_track_run
                (ptr_add td (t * (13 * 512))) (ptr_add dsk (t * (16 * 256)))
                t sector_format) as (dest' & -> & Hl' & Hb').
    { rewrite ptr_add_length; lia. }
    { rewrite ptr_add_length; lia. }
    { by apply ptr_add_bytes. }
    { by apply ptr_add_bytes. }
    mstep. eexists (_, _). split; [done|]. split; [|split; [done|]].
    + rewrite length_app, length_take, Hl'.
      pose proof (ptr_add_length td (t * (13 * 512)) ltac:(lia)). lia.
    + apply Forall_app. split; [by apply Forall_take|done].
  - exists td. split; [|split; [lia|done]]. f_equal. f_equal. lia.
Qed.

End Track.

(** C3. For every 143,360-byte disk image, every track 0..34 and either
    sector format, [encode_bits_for_track] returns the same valid bit count,
    50,632, whatever the track number and the sector contents, and this
    count is at most 53,248, the bit capacity of a 13-block track buffer;
    the loop over the 35 tracks in [main] ends with that count. *)
Theorem valid_bit_count_uniform (uninit : nat → list Z) (dsk : list Z)
    (sector_format : dsk_sector_format) :
  (∀ n, length (uninit n) = n) →
  (∀ n, Forall is_byte (uninit n)) →
  Z.of_nat (length dsk) = DSK_IMAGE_SIZE →
  Forall is_byte dsk →
  50632 ≤ 8 * BITS_TRACK_SIZE
  ∧ 8 * BITS_TRACK_SIZE = 53248
  ∧ (∀ t dest, 0 ≤ t < TRACKS_PER_DISK →
       Z.of_nat (length dest) = BITS_TRACK_SIZE →
       Forall is_byte dest →
       ∃ dest',
         encode_bits_for_track uninit dest
           (ptr_add dsk (t * BYTES_PER_TRACK)) t sector_format
         = Some (dest', 50632))
  ∧ ∃ track_data,
      encode_tracks uninit dsk sector_format = Some (track_data, 50632).
Proof.
  intros Huninit Hjunk Hdsk Hbytes.
  split; [by vm_compute|]. split; [done|]. split.
  - intros t dest Ht Hdest Hdbytes.
    unfold DSK_IMAGE_SIZE, BYTES_PER_TRACK, SECTORS_PER_TRACK, BYTES_PER_SECTOR,
      BITS_TRACK_SIZE, BITS_BLOCKS_PER_TRACK, BITS_BLOCK_SIZE, TRACKS_PER_DISK
      in *.
    destruct (encode_bits_for_track_run uninit Huninit dest
                (ptr_add dsk (t * (16 * 256))) t sector_format)
      as (dest' & Hrun & _).
    + lia.
    + rewrite ptr_add_length; lia.
    + by apply ptr_add_bytes.
    + done.
    + by exists dest'.
  - destruct (encode_tracks_run uninit Huninit Hjunk dsk sector_format
                Hdsk Hbytes) as (td & Hrun & _).
    by exists td.
Qed.

Lemma valid_bit_count_uniform_witness :
  ∃ dest',
    encode_bits_for_track (λ n, replicate n 0)
      (replicate (Z.to_nat BITS_TRACK_SIZE) 0)
      (ptr_add (replicate (Z.to_nat DSK_IMAGE_SIZE) 0) (34 * BYTES_PER_TRACK))
      34 dsk_sector_format_prodos
    = Some (dest', 50632).
Proof.
  destruct (valid_bit_count_uniform (λ n, replicate n 0)
              (replicate (Z.to_nat DSK_IMAGE_SIZE) 0) dsk_sector_format_prodos)
    as (_ & _ & Htrack & _).
  - intros n. apply length_replicate.
  - intros n. apply Forall_replicate. unfold is_byte. lia.
  - rewrite length_replicate. apply Z2Nat.id. by vm_compute.
  - apply Forall_replicate. unfold is_byte. lia.
  - apply Htrack.
    + unfold TRACKS_PER_DISK. lia.
    + rewrite length_replicate. apply Z2Nat.id. by vm_compute.
    + apply Forall_replicate. unfold is_byte. lia.
Defined.

(** ** Filling an array from left to right *)

Lemma filled_start (P Q : Z → Z) (d : list Z) :
  (∀ j, 0 ≤ j < Z.of_nat (length d) → load d j = Some (Q j)) →
  filled P Q 0 d.
Proof. intros Hd. split; [intros j Hj; lia|done]. Qed.

Lemma filled_store (P Q : Z → Z) (c : Z) (d : list Z) (v : Z) :
  filled P Q c d →
  0 ≤ c < Z.of_nat (length d) →
  v = P c →
  ∃ d', store d c v = Some d' ∧ length d' = length d ∧ filled P Q (c + 1) d'.
Proof.
  intros [Hp Hq] Hc ->. rewrite store_Some by done.
  eexists. split; [done|]. split; [by rewrite length_insert|]. split.
  - by apply extend_store.
  - intros j Hj. rewrite length_insert in Hj.
    rewrite load_store_ne by lia. apply Hq. lia.
Qed.

Lemma filled_skip (P Q : Z → Z) (c : Z) (d : list Z) :
  filled P Q c d → 0 ≤ c < Z.of_nat (length d) → P c = Q c →
  filled P Q (c + 1) d.
Proof.
  intros [Hp Hq] Hc Heq. split.
  - intros j Hj. destruct (decide (j = c)) as [->|].
    + rewrite Heq. apply Hq. lia.
    + apply Hp. lia.
  - intros j Hj. apply Hq. lia.
Qed.

Lemma filled_end (P Q : Z → Z) (c j : Z) (d : list Z) :
  filled P Q c d → 0 ≤ j < Z.of_nat (length d) →
  load d j = Some (if j <? c then P j else Q j).
Proof.
  intros [Hp Hq] Hj. destruct (Z.ltb_spec j c); [apply Hp|apply Hq]; lia.
Qed.

Lemma replicate_load (n : nat) (v j : Z) :
  0 ≤ j < Z.of_nat n → load (replicate n v) j = Some v.
Proof.
  intros Hj. rewrite load_lookup by lia. apply lookup_replicate_2. lia.
Qed.

Lemma memcpy_run (dest : list Z) (off : Z) (src : list Z) (n : Z) :
  0 ≤ off → 0 ≤ n → off + n ≤ Z.of_nat (length dest) →
  n ≤ Z.of_nat (length src) →
  ∃ dest', memcpy dest off src n = Some dest'
    ∧ length dest' = length dest
    ∧ (∀ j, 0 ≤ j < off → load dest' j = load dest j)
    ∧ (∀ k, 0 ≤ k < n → load dest' (off + k) = load src k)
    ∧ (∀ j, off + n ≤ j → load dest' j = load dest j).
Proof.
  intros Hoff Hn Hd Hs. unfold memcpy.
  destruct (Z.leb_spec 0 off); [|lia]. destruct (Z.leb_spec 0 n); [|lia].
  destruct (Z.leb_spec (off + n) (Z.of_nat (length dest))); [|lia].
  destruct (Z.leb_spec n (Z.of_nat (length src))); [|lia].
  eexists. split; [done|].
  assert (length (take (Z.to_nat off) dest) = Z.to_nat off) as Hl1
    by (rewrite length_take; lia).
  assert (length (take (Z.to_nat n) src) = Z.to_nat n) as Hl2
    by (rewrite length_take; lia).
  split; [|split; [|split]].
  - rewrite !length_app, Hl1, Hl2, length_drop. lia.
  - intros j Hj. rewrite !load_lookup by lia.
    rewrite lookup_app_l by lia. apply lookup_take_lt. lia.
  - intros k Hk. rewrite !load_lookup by lia.
    rewrite lookup_app_r by lia. rewrite lookup_app_l by lia.
    rewrite lookup_take_lt by lia. f_equal. lia.
  - intros j Hj. rewrite !load_lookup by lia.
    rewrite lookup_app_r by lia. rewrite lookup_app_r by lia.
    rewrite lookup_drop. f_equal. lia.
Qed.

(** ** Little-endian fields *)

Lemma land_255 (v : Z) : Z.land v 255 = v mod 256.
Proof. apply (Z.land_ones v 8). lia. Qed.

Lemma shiftr_div (v n : Z) : 0 ≤ n → Z.shiftr v n = v / 2 ^ n.
Proof. apply Z.shiftr_div_pow2. Qed.

Lemma le16_value (v : Z) :
  0 ≤ v < 65536 →
  Z.land v 255 + 256 * Z.land (Z.shiftr v 8) 255 = v.
Proof.
  intros Hv. rewrite !land_255, shiftr_div by lia.
  change (2 ^ 8) with 256. lia.
Qed.

Lemma le32_value (v : Z) :
  0 ≤ v < 4294967296 →
  Z.land v 255 + 256 * Z.land (Z.shiftr v 8) 255
  + 65536 * Z.land (Z.shiftr v 16) 255
  + 16777216 * Z.land (Z.shiftr v 24) 255 = v.
Proof.
  intros Hv. rewrite !land_255, !shiftr_div by lia.
  change (2 ^ 8) with 256. change (2 ^ 16) with 65536.
  change (2 ^ 24) with 16777216. lia.
Qed.

Ltac store_step tac :=
  match goal with
  | Hf : filled ?P ?Q ?c0 ?d |- context [store ?d ?c ?v] =>
      let d' := fresh "d" in
      let Hl := fresh "Hl" in
      let Hf' := fresh "Hf" in
      replace c0 with c in Hf by lia;
      destruct (filled_store P Q c d v Hf) as (d' & -> & Hl & Hf');
      [lia | tac | ]; clear Hf; mstep
  end.

Ltac skip_step tac :=
  match goal with
  | Hf : filled ?P ?Q ?c ?d |- _ =>
      let Hf' := fresh "Hf" in
      assert (filled P Q (c + 1) d) as Hf'
        by (apply filled_skip; [exact Hf | lia | tac]);
      clear Hf
  end.

(** ** The TRKS chunk *)

Ltac trk_field i :=
  unfold trk_entry_byte;
  match goal with
  | |- context [?p mod 8] =>
      replace (p / 8) with i by lia;
      first [ replace (p mod 8) with 0 by lia
            | replace (p mod 8) with 1 by lia
            | replace (p mod 8) with 2 by lia
            | replace (p mod 8) with 3 by lia
            | replace (p mod 8) with 4 by lia
            | replace (p mod 8) with 5 by lia
            | replace (p mod 8) with 6 by lia
            | replace (p mod 8) with 7 by lia ]
  end; reflexivity.

Lemma create_trks_chunk_run (track_data : list Z) (valid_bits : Z) :
  232960 ≤ Z.of_nat (length track_data) →
  ∃ chunk, create_trks_chunk track_data valid_bits = Some chunk
    ∧ name chunk = tag_TRKS
    ∧ data_length chunk = 234240
    ∧ Z.of_nat (length (data chunk)) = 234240
    ∧ (∀ j, 0 ≤ j < 280 →
         load (data chunk) j = Some (trk_entry_byte valid_bits j))
    ∧ (∀ j, 280 ≤ j < 1280 → load (data chunk) j = Some 0)
    ∧ (∀ k, 0 ≤ k < 232960 →
         load (data chunk) (1280 + k) = load track_data k).
Proof.
  intros Htd. unfold create_trks_chunk, create_chunk, TRACKS_PER_DISK,
    BITS_TRACK_SIZE, BITS_BLOCKS_PER_TRACK, BITS_BLOCK_SIZE.
  cbn [data name data_length set_data].
  change (35 * (13 * 512)) with 232960.
  change (160 * 8 + 232960) with 234240.
  set (P := trk_entry_byte valid_bits). set (Q := λ _ : Z, 0).
  match goal with |- context [for_range 0 35 ?body ?s0] =>
    destruct (for_range_inv
      (λ i '(d, byte_index, starting_block),
         Z.of_nat (length d) = 234240 ∧ byte_index = 8 * i
         ∧ starting_block = 3 + 13 * i ∧ filled P Q (8 * i) d)
      body 0 35 s0) as ([[d bi] sb] & -> & Hl & _ & _ & Hf)
  end.
  - lia.
  - rewrite length_replicate. split; [lia|]. split; [lia|]. split; [lia|].
    apply filled_start. intros j Hj. apply replicate_load.
    rewrite length_replicate in Hj. lia.
  - intros i [[d bi] sb] Hi (Hl & -> & -> & Hf).
    unfold write_uint16, write_uint32.
    do 8 (store_step ltac:(subst P; trk_field i)).
    eexists (_, _, _). split; [done|].
    split; [lia|]. split; [lia|]. split; [unfold to_uint16; lia|].
    by replace (8 * (i + 1)) with (8 * i + 2 + 2 + 3 + 1) by lia.
  - mstep.
    destruct (memcpy_run d 1280 track_data 232960)
      as (d' & -> & Hl' & Hlow & Hmid & _); [lia..|].
    mstep. eexists. split; [done|]. cbn [data name data_length set_data].
    split; [done|]. split; [done|]. split; [lia|].
    split; [|split].
    + intros j Hj. rewrite Hlow by lia. rewrite (filled_end P Q _ j d Hf) by lia.
      destruct (Z.ltb_spec j (8 * 35)); [done|lia].
    + intros j Hj. rewrite Hlow by lia. rewrite (filled_end P Q _ j d Hf) by lia.
      destruct (Z.ltb_spec j (8 * 35)); [lia|done].
    + intros k Hk. by apply Hmid.
Qed.

Lemma trk_entry_byte_at (valid_bits i k : Z) :
  0 ≤ k < 8 →
  trk_entry_byte valid_bits (8 * i + k)
  = match k with
    | 0 => Z.land (3 + 13 * i) 255
    | 1 => Z.land (Z.shiftr (3 + 13 * i) 8) 255
    | 2 => 13
    | 3 => 0
    | 4 => Z.land valid_bits 255
    | 5 => Z.land (Z.shiftr valid_bits 8) 255
    | 6 => Z.land (Z.shiftr valid_bits 16) 255
    | _ => Z.land (Z.shiftr valid_bits 24) 255
    end.
Proof.
  intros Hk. unfold trk_entry_byte.
  replace ((8 * i + k) / 8) with i by lia.
  by replace ((8 * i + k) mod 8) with k by lia.
Qed.

Lemma land_255_byte (v : Z) : is_byte (Z.land v 255).
Proof. rewrite land_255. unfold is_byte. lia. Qed.

Lemma trk_entry_byte_byte (valid_bits j : Z) :
  is_byte (trk_entry_byte valid_bits j).
Proof.
  unfold trk_entry_byte.
  assert (j mod 8 = 0 ∨ j mod 8 = 1 ∨ j mod 8 = 2 ∨ j mod 8 = 3
          ∨ j mod 8 = 4 ∨ j mod 8 = 5 ∨ j mod 8 = 6 ∨ j mod 8 = 7)
    as [-> | [-> | [-> | [-> | [-> | [-> | [-> | ->]]]]]]] by lia;
    try apply land_255_byte; unfold is_byte; lia.
Qed.

(** C7. In the TRKS payload, directory entry [i] of the 35 tracks, the 8
    bytes at offset [8 * i], holds little-endian the starting block
    [3 + 13 * i], the block count 13 and the 32-bit valid bit count; the
    slots of indices 35..159 are zero; and the 35 track buffers follow from
    byte 1280 of the payload, right after the 160-entry directory. *)
Theorem trks_chunk_layout (track_data : list Z) (valid_bits_per_track : Z) :
  Z.of_nat (length track_data) = TRACKS_PER_DISK * BITS_TRACK_SIZE →
  0 ≤ valid_bits_per_track < 4294967296 →
  ∃ chunk, create_trks_chunk track_data valid_bits_per_track = Some chunk
    ∧ Z.of_nat (length (data chunk))
      = 160 * 8 + TRACKS_PER_DISK * BITS_TRACK_SIZE
    ∧ data_length chunk = 160 * 8 + TRACKS_PER_DISK * BITS_TRACK_SIZE
    ∧ (∀ i, 0 ≤ i < TRACKS_PER_DISK →
         le16 (data chunk) (8 * i) = Some (3 + 13 * i)
         ∧ le16 (data chunk) (8 * i + 2) = Some 13
         ∧ le32 (data chunk) (8 * i + 4) = Some valid_bits_per_track)
    ∧ (∀ j, 0 ≤ j < 160 * 8 →
         ∃ b, load (data chunk) j = Some b ∧ is_byte b)
    ∧ (∀ j, 8 * TRACKS_PER_DISK ≤ j < 160 * 8 →
         load (data chunk) j = Some 0)
    ∧ ptr_add (data chunk) 1280 = track_data.
Proof.
  unfold TRACKS_PER_DISK, BITS_TRACK_SIZE, BITS_BLOCKS_PER_TRACK,
    BITS_BLOCK_SIZE.
  intros Htd Hvb.
  destruct (create_trks_chunk_run track_data valid_bits_per_track)
    as (chunk & Hrun & _ & Hdl & Hlen & Hdir & Hzero & Hbits); [lia|].
  exists chunk. split; [done|]. split; [lia|]. split; [lia|].
  split; [|split; [|split]].
  - intros i Hi. unfold le16, le32.
    assert (∀ p k, p = 8 * i + k → 0 ≤ k < 8 →
              load (data chunk) p
              = Some (trk_entry_byte valid_bits_per_track (8 * i + k)))
      as Hat by (intros p k -> Hk; apply Hdir; lia).
    rewrite (Hat (8 * i) 0), (Hat (8 * i + 1) 1), (Hat (8 * i + 2) 2),
      (Hat (8 * i + 2 + 1) 3), (Hat (8 * i + 4) 4), (Hat (8 * i + 4 + 1) 5),
      (Hat (8 * i + 4 + 2) 6), (Hat (8 * i + 4 + 3) 7) by lia.
    mstep. rewrite !trk_entry_byte_at by lia.
    split; [|split].
    + f_equal. apply le16_value. lia.
    + done.
    + f_equal. by apply le32_value.
  - intros j Hj. destruct (decide (j < 280)).
    + rewrite Hdir by lia. eexists. split; [done|]. apply trk_entry_byte_byte.
    + rewrite Hzero by lia. eexists. split; [done|]. unfold is_byte. lia.
  - intros j Hj. apply Hzero. lia.
  - apply list_eq. intros k. unfold ptr_add. rewrite lookup_drop.
    destruct (decide (Z.of_nat k < 232960)).
    + rewrite <- !load_nat. rewrite <- Hbits by lia.
      rewrite !load_lookup by lia. f_equal. lia.
    + rewrite !lookup_ge_None_2; [done|lia|lia].
Qed.


Lemma trks_chunk_layout_witness :
  ∃ chunk,
    create_trks_chunk (replicate (Z.to_nat (TRACKS_PER_DISK * BITS_TRACK_SIZE)) 0)
      50632 = Some chunk
    ∧ le16 (data chunk) (8 * 34) = Some (3 + 13 * 34)
    ∧ le32 (data chunk) (8 * 34 + 4) = Some 50632.
Proof.
  destruct (trks_chunk_layout
              (replicate (Z.to_nat (TRACKS_PER_DISK * BITS_TRACK_SIZE)) 0) 50632)
    as (chunk & Hrun & _ & _ & Hdir & _).
  - rewrite length_replicate. apply Z2Nat.id. by vm_compute.
  - lia.
  - exists chunk. split; [exact Hrun|].
    destruct (Hdir 34) as (H1 & _ & H3); [unfold TRACKS_PER_DISK; lia|].
    split; [exact H1|exact H3].
Defined.

(** ** CRC-32: the table and the bitwise definition *)

Example crc32_check_value :
  crc32 0 [49; 50; 51; 52; 53; 54; 55; 56; 57] 9 = Some 0xCBF43926
  ∧ crc32_reference [49; 50; 51; 52; 53; 54; 55; 56; 57] = 0xCBF43926.
Proof. by vm_compute. Qed.

Lemma crc32_tab_reflected :
  crc32_tab = map (λ i, Nat.iter 8 crc_bit_step i) (seqZ 0 256).
Proof. by vm_compute. Qed.

Lemma crc32_tab_load (i : Z) :
  0 ≤ i < 256 →
  load crc32_tab i = Some (Nat.iter 8 crc_bit_step i)
  ∧ 0 ≤ Nat.iter 8 crc_bit_step i < 2 ^ 32.
Proof.
  intros Hi.
  set (check := λ i, match load crc32_tab i with
                     | Some t => (t =? Nat.iter 8 crc_bit_step i)
                                 && (0 <=? t) && (t <? 2 ^ 32)
                     | None => false
                     end).
  assert (check i = true) as Hb
    by (apply (range_forallb check 0 256); [by vm_compute|lia]).
  unfold check in Hb. destruct (load crc32_tab i) as [t|]; [|done].
  apply andb_prop in Hb as [Hb H3]. apply andb_prop in Hb as [H1 H2].
  apply Z.eqb_eq in H1 as <-. split; [done|lia].
Qed.

Lemma crc_bit_step_lxor (a b : Z) :
  crc_bit_step (Z.lxor a b) = Z.lxor (crc_bit_step a) (crc_bit_step b).
Proof.
  unfold crc_bit_step. rewrite Z.lxor_spec, Z.shiftr_lxor.
  set (sa := Z.shiftr a 1). set (sb := Z.shiftr b 1).
  set (p := 3988292384).
  destruct (Z.testbit a 0), (Z.testbit b 0); simpl.
  - rewrite (Z.lxor_comm sb p), Z.lxor_assoc, <- (Z.lxor_assoc p p sb).
    by rewrite Z.lxor_nilpotent, Z.lxor_0_l.
  - rewrite !Z.lxor_assoc. f_equal. apply Z.lxor_comm.
  - by rewrite Z.lxor_assoc.
  - done.
Qed.

Lemma crc_bit_steps_lxor (n : nat) (a b : Z) :
  Nat.iter n crc_bit_step (Z.lxor a b)
  = Z.lxor (Nat.iter n crc_bit_step a) (Nat.iter n crc_bit_step b).
Proof.
  induction n as [|n IH]; [done|]. simpl. by rewrite IH, crc_bit_step_lxor.
Qed.

Lemma crc_bit_steps_shiftl (n : nat) (y : Z) :
  Nat.iter n crc_bit_step (Z.shiftl y (Z.of_nat n)) = y.
Proof.
  revert y. induction n as [|n IH]; intros y.
  - simpl. apply Z.shiftl_0_r.
  - rewrite Nat.iter_succ_r. unfold crc_bit_step at 2.
    rewrite Z.shiftl_spec_low by lia.
    rewrite Z.shiftr_shiftl_l by lia.
    replace (Z.of_nat (S n) - 1) with (Z.of_nat n) by lia.
    apply IH.
Qed.

Lemma split_low_byte (x : Z) :
  x = Z.lxor (Z.land x 255) (Z.shiftl (Z.shiftr x 8) 8).
Proof.
  apply Z.bits_inj'. intros k Hk.
  rewrite Z.lxor_spec, Z.land_spec.
  change 255 with (Z.ones 8).
  destruct (decide (k < 8)).
  - rewrite Z.ones_spec_low, Z.shiftl_spec_low by lia.
    by rewrite andb_true_r, xorb_false_r.
  - rewrite Z.ones_spec_high, Z.shiftl_spec, Z.shiftr_spec by lia.
    rewrite andb_false_r. simpl. f_equal. lia.
Qed.

Lemma crc_table_step (c b : Z) :
  is_byte b →
  ∃ t, load crc32_tab (Z.land (Z.lxor c b) 255) = Some t
    ∧ Z.lxor t (Z.shiftr c 8) = crc_byte_step c b.
Proof.
  intros Hb.
  assert (0 ≤ Z.land (Z.lxor c b) 255 < 256) as Hidx
    by (rewrite land_255; lia).
  destruct (crc32_tab_load _ Hidx) as [Hload _].
  eexists. split; [exact Hload|].
  unfold crc_byte_step.
  rewrite (split_low_byte (Z.lxor c b)) at 2.
  rewrite crc_bit_steps_lxor. f_equal.
  rewrite (crc_bit_steps_shiftl 8). rewrite Z.shiftr_lxor.
  replace (Z.shiftr b 8) with 0; [by rewrite Z.lxor_0_r|].
  symmetry. rewrite shiftr_div by lia. change (2 ^ 8) with 256.
  unfold is_byte in Hb. lia.
Qed.

Lemma crc_byte_step_small (c b : Z) :
  0 ≤ c < 2 ^ 32 → is_byte b → 0 ≤ crc_byte_step c b < 2 ^ 32.
Proof.
  intros Hc Hb. destruct (crc_table_step c b Hb) as (t & Hload & <-).
  assert (0 ≤ Z.land (Z.lxor c b) 255 < 256) as Hidx
    by (rewrite land_255; lia).
  destruct (crc32_tab_load _ Hidx) as [Hload' Ht].
  assert (t = Nat.iter 8 crc_bit_step (Z.land (Z.lxor c b) 255)) as ->
    by congruence.
  apply lxor_small; [lia|done|].
  rewrite shiftr_div by lia. change (2 ^ 8) with 256.
  change (2 ^ 32) with 4294967296 in *. lia.
Qed.

Lemma crc32_run (buf : list Z) (size : Z) :
  0 ≤ size ≤ Z.of_nat (length buf) →
  Forall is_byte buf →
  crc32 0 buf size = Some (crc32_reference (take (Z.to_nat size) buf))
  ∧ 0 ≤ crc32_reference (take (Z.to_nat size) buf) < 2 ^ 32.
Proof.
  intros Hsize Hbytes. unfold crc32, crc32_reference.
  rewrite Z.lxor_0_l.
  match goal with |- context [for_range 0 size ?body ?c0] =>
    destruct (for_range_inv
      (λ p c, c = fold_left crc_byte_step (take (Z.to_nat p) buf) c0
              ∧ 0 ≤ c < 2 ^ 32)
      body 0 size c0) as (c & -> & -> & Hc)
  end.
  - lia.
  - split; [done|]. change (2 ^ 32) with 4294967296. lia.
  - intros p c Hp [-> Hc].
    destruct (load_Some buf p) as [b Hb]; [lia|].
    rewrite Hb. mstep.
    pose proof (load_byte buf p b Hbytes Hb) as Hbyte.
    destruct (crc_table_step
                (fold_left crc_byte_step (take (Z.to_nat p) buf) 4294967295)
                b Hbyte) as (t & -> & Hstep).
    mstep. eexists. split; [done|]. rewrite Hstep.
    split; [|by apply crc_byte_step_small].
    replace (Z.to_nat (p + 1)) with (S (Z.to_nat p)) by lia.
    rewrite load_lookup in Hb by lia.
    rewrite (take_S_r _ _ _ Hb), fold_left_app. done.
  - mstep. split; [done|].
    apply lxor_small; [lia|done|]. change (2 ^ 32) with 4294967296. lia.
Qed.

(** ** The WRIT chunk *)

Lemma writ_entry_byte_at (track_data : list Z) (valid_bits t k : Z) :
  0 ≤ k < 20 →
  writ_entry_byte track_data valid_bits (20 * t + k)
  = let crc :=
      default 0 (crc32 0 (ptr_add track_data (t * BITS_TRACK_SIZE))
                   ((valid_bits + 7) / 8)) in
    match k with
    | 0 => t * 4
    | 1 => 1
    | 2 => 0
    | 3 => 0
    | 4 => Z.land crc 255
    | 5 => Z.land (Z.shiftr crc 8) 255
    | 6 => Z.land (Z.shiftr crc 16) 255
    | 7 => Z.land (Z.shiftr crc 24) 255
    | 8 => Z.land 640 255
    | 9 => Z.land (Z.shiftr 640 8) 255
    | 10 => 0
    | 11 => 0
    | 12 => Z.land (valid_bits - 640) 255
    | 13 => Z.land (Z.shiftr (valid_bits - 640) 8) 255
    | 14 => Z.land (Z.shiftr (valid_bits - 640) 16) 255
    | 15 => Z.land (Z.shiftr (valid_bits - 640) 24) 255
    | 16 => 0xFF
    | 17 => 10
    | _ => 0
    end.
Proof.
  intros Hk. unfold writ_entry_byte.
  replace ((20 * t + k) / 20) with t by lia.
  by replace ((20 * t + k) mod 20) with k by lia.
Qed.

Ltac writ_field t :=
  match goal with
  | |- context [writ_entry_byte ?td ?vb ?p] =>
      first [ replace p with (20 * t + 0) by lia
            | replace p with (20 * t + 1) by lia
            | replace p with (20 * t + 2) by lia
            | replace p with (20 * t + 3) by lia
            | replace p with (20 * t + 4) by lia
            | replace p with (20 * t + 5) by lia
            | replace p with (20 * t + 6) by lia
            | replace p with (20 * t + 7) by lia
            | replace p with (20 * t + 8) by lia
            | replace p with (20 * t + 9) by lia
            | replace p with (20 * t + 10) by lia
            | replace p with (20 * t + 11) by lia
            | replace p with (20 * t + 12) by lia
            | replace p with (20 * t + 13) by lia
            | replace p with (20 * t + 14) by lia
            | replace p with (20 * t + 15) by lia
            | replace p with (20 * t + 16) by lia
            | replace p with (20 * t + 17) by lia
            | replace p with (20 * t + 18) by lia
            | replace p with (20 * t + 19) by lia ];
      rewrite writ_entry_byte_at by lia; cbv zeta
  end.

Lemma create_writ_chunk_run (track_data : list Z) (valid_bits : Z) :
  Z.of_nat (length track_data) = 232960 →
  Forall is_byte track_data →
  640 ≤ valid_bits ≤ 53248 →
  ∃ chunk, create_writ_chunk track_data valid_bits = Some chunk
    ∧ name chunk = tag_WRIT
    ∧ data_length chunk = 700
    ∧ Z.of_nat (length (data chunk)) = 700
    ∧ ∀ j, 0 ≤ j < 700 →
        load (data chunk) j
        = Some (writ_entry_byte track_data valid_bits j).
Proof.
  intros Htd Hbytes Hvb. unfold create_writ_chunk, create_chunk, TRACKS_PER_DISK.
  cbn [data name data_length set_data].
  change (35 * 20) with 700.
  replace (Z.quot (to_uint32 (valid_bits + 7)) 8) with ((valid_bits + 7) / 8).
  2:{ unfold to_uint32. rewrite Z.mod_small by lia.
      symmetry. apply Z.quot_div_nonneg; lia. }
  replace (to_uint32 (valid_bits - TRACK_LEADER_SYNC_COUNT * 10))
    with (valid_bits - 640)
    by (unfold to_uint32, TRACK_LEADER_SYNC_COUNT; rewrite Z.mod_small; lia).
  set (P := writ_entry_byte track_data valid_bits). set (Q := λ _ : Z, 0).
  match goal with |- context [for_range 0 35 ?body ?s0] =>
    destruct (for_range_inv
      (λ t '(d, byte_index),
         Z.of_nat (length d) = 700 ∧ byte_index = 20 * t
         ∧ filled P Q (20 * t) d)
      body 0 35 s0) as ([d bi] & -> & Hl & _ & Hf)
  end.
  - lia.
  - rewrite length_replicate. split; [lia|]. split; [lia|].
    apply filled_start. intros j Hj. apply replicate_load.
    rewrite length_replicate in Hj. lia.
  - intros t [d bi] Ht (Hl & -> & Hf).
    destruct (crc32_run (ptr_add track_data (t * BITS_TRACK_SIZE))
                ((valid_bits + 7) / 8)) as [Hcrc Hrange].
    { rewrite ptr_add_length;
        unfold BITS_TRACK_SIZE, BITS_BLOCKS_PER_TRACK, BITS_BLOCK_SIZE; lia. }
    { by apply ptr_add_bytes. }
    unfold write_uint8, write_uint32.
    do 3 (store_step ltac:(subst P; writ_field t; try reflexivity;
                           apply to_uint8_small; unfold is_byte; lia)).
    skip_step ltac:(subst P Q; writ_field t; reflexivity).
    rewrite Hcrc. mstep.
    do 4 (store_step ltac:(subst P; writ_field t; rewrite Hcrc; reflexivity)).
    unfold TRACK_LEADER_SYNC_COUNT. change (64 * 10) with 640.
    do 4 (store_step ltac:(subst P; writ_field t; reflexivity)).
    do 4 (store_step ltac:(subst P; writ_field t; reflexivity)).
    do 3 (store_step ltac:(subst P; writ_field t; reflexivity)).
    skip_step ltac:(subst P Q; writ_field t; reflexivity).
    eexists (_, _). split; [done|].
    split; [lia|]. split; [lia|].
    match goal with
    | H : filled P Q ?c ?d |- filled P Q ?c' ?d =>
        by replace c' with c by lia
    end.
  - mstep. eexists. split; [done|]. cbn [data name data_length set_data].
    split; [done|]. split; [done|]. split; [lia|].
    intros j Hj. rewrite (filled_end P Q _ j d Hf) by lia.
    by destruct (Z.ltb_spec j (20 * 35)); [|lia].
Qed.

(** C8. For every track [t] in 0..34 the 20-byte WRIT descriptor [t]
    holds: the track to write [t * 4], command count 1, flags 0 and a
    reserved zero byte; the CRC-32 of the first [ceil (valid_bits / 8)]
    bytes of the track's buffer, leader bytes included; the leader bit
    count 640 = 64 * 10; the rewrite bit count [valid_bits - 640]; the
    leader nibble 0xFF, its bit count 10, the leader count 0 and a zero
    padding byte. *)
Theorem writ_chunk_layout (track_data : list Z) (valid_bits_per_track : Z) :
  Z.of_nat (length track_data) = TRACKS_PER_DISK * BITS_TRACK_SIZE →
  Forall is_byte track_data →
  TRACK_LEADER_SYNC_COUNT * 10 ≤ valid_bits_per_track ≤ 8 * BITS_TRACK_SIZE →
  ∃ chunk, create_writ_chunk track_data valid_bits_per_track = Some chunk
    ∧ data_length chunk = TRACKS_PER_DISK * 20
    ∧ Z.of_nat (length (data chunk)) = TRACKS_PER_DISK * 20
    ∧ ∀ t, 0 ≤ t < TRACKS_PER_DISK →
        ∃ crc n,
          8 * (n - 1) < valid_bits_per_track ≤ 8 * n
          ∧ crc32 0 (ptr_add track_data (t * BITS_TRACK_SIZE)) n = Some crc
          ∧ crc = crc32_reference
                    (take (Z.to_nat n)
                       (ptr_add track_data (t * BITS_TRACK_SIZE)))
          ∧ load (data chunk) (20 * t) = Some (t * 4)
          ∧ load (data chunk) (20 * t + 1) = Some 1
          ∧ load (data chunk) (20 * t + 2) = Some 0
          ∧ load (data chunk) (20 * t + 3) = Some 0
          ∧ le32 (data chunk) (20 * t + 4) = Some crc
          ∧ le32 (data chunk) (20 * t + 8) = Some 640
          ∧ le32 (data chunk) (20 * t + 12)
            = Some (valid_bits_per_track - 640)
          ∧ load (data chunk) (20 * t + 16) = Some 0xFF
          ∧ load (data chunk) (20 * t + 17) = Some 10
          ∧ load (data chunk) (20 * t + 18) = Some 0
          ∧ load (data chunk) (20 * t + 19) = Some 0.
Proof.
  unfold TRACKS_PER_DISK, TRACK_LEADER_SYNC_COUNT.
  change (8 * BITS_TRACK_SIZE) with 53248.
  change (35 * BITS_TRACK_SIZE) with 232960.
  intros Htd Hbytes Hvb.
  destruct (create_writ_chunk_run track_data valid_bits_per_track)
    as (chunk & Hrun & _ & Hdl & Hlen & Hdata); [done|done|lia|].
  exists chunk. split; [done|]. split; [lia|]. split; [lia|].
  intros t Ht.
  destruct (crc32_run (ptr_add track_data (t * BITS_TRACK_SIZE))
              ((valid_bits_per_track + 7) / 8)) as [Hcrc Hrange].
  { rewrite ptr_add_length;
      unfold BITS_TRACK_SIZE, BITS_BLOCKS_PER_TRACK, BITS_BLOCK_SIZE; lia. }
  { by apply ptr_add_bytes. }
  eexists _, ((valid_bits_per_track + 7) / 8).
  split; [lia|]. split; [exact Hcrc|]. split; [done|].
  assert (∀ p k, p = 20 * t + k → 0 ≤ k < 20 →
            load (data chunk) p
            = Some (writ_entry_byte track_data valid_bits_per_track
                      (20 * t + k)))
    as Hat by (intros p k -> Hk; apply Hdata; lia).
  unfold le32.
  rewrite (Hat (20 * t) 0), (Hat (20 * t + 1) 1), (Hat (20 * t + 2) 2),
    (Hat (20 * t + 3) 3), (Hat (20 * t + 4) 4), (Hat (20 * t + 4 + 1) 5),
    (Hat (20 * t + 4 + 2) 6), (Hat (20 * t + 4 + 3) 7),
    (Hat (20 * t + 8) 8), (Hat (20 * t + 8 + 1) 9),
    (Hat (20 * t + 8 + 2) 10), (Hat (20 * t + 8 + 3) 11),
    (Hat (20 * t + 12) 12), (Hat (20 * t + 12 + 1) 13),
    (Hat (20 * t + 12 + 2) 14), (Hat (20 * t + 12 + 3) 15),
    (Hat (20 * t + 16) 16), (Hat (20 * t + 17) 17),
    (Hat (20 * t + 18) 18), (Hat (20 * t + 19) 19) by lia.
  mstep. rewrite !writ_entry_byte_at by lia. cbv zeta. rewrite Hcrc.
  cbn [default from_option].
  repeat split; try reflexivity.
  - f_equal. apply le32_value. change (2 ^ 32) with 4294967296 in Hrange. lia.
  - f_equal. apply le32_value. lia.
Qed.

Lemma writ_chunk_layout_witness :
  ∃ chunk,
    create_writ_chunk (replicate (Z.to_nat (TRACKS_PER_DISK * BITS_TRACK_SIZE)) 0)
      50632 = Some chunk
    ∧ load (data chunk) (20 * 34) = Some (34 * 4)
    ∧ le32 (data chunk) (20 * 34 + 12) = Some (50632 - 640).
Proof.
  destruct (writ_chunk_layout
              (replicate (Z.to_nat (TRACKS_PER_DISK * BITS_TRACK_SIZE)) 0) 50632)
    as (chunk & Hrun & _ & _ & Hdesc).
  - rewrite length_replicate. apply Z2Nat.id. by vm_compute.
  - apply Forall_replicate. unfold is_byte. lia.
  - by vm_compute.
  - exists chunk. split; [exact Hrun|].
    destruct (Hdesc 34) as (crc & n & _ & _ & _ & H0 & _ & _ & _ & _ & _ & H12 & _);
      [unfold TRACKS_PER_DISK; lia|].
    split; [exact H0|exact H12].
Defined.

(** ** Byte contents of the chunks *)

Lemma bytes_of_forallb (l : list Z) :
  forallb (λ b, (0 <=? b) && (b <? 256)) l = true → Forall is_byte l.
Proof.
  intros Hall. rewrite forallb_forall in Hall.
  apply Forall_forall. intros b Hb%list_elem_of_In.
  apply Hall in Hb. unfold is_byte. lia.
Qed.

Lemma bytes_of_loads (l : list Z) :
  (∀ j, 0 ≤ j < Z.of_nat (length l) → ∃ b, load l j = Some b ∧ is_byte b) →
  Forall is_byte l.
Proof.
  intros Hl. apply Forall_lookup. intros i x Hx.
  pose proof (lookup_lt_Some _ _ _ Hx) as Hi.
  destruct (Hl (Z.of_nat i)) as (b & Hb & Hbyte); [lia|].
  rewrite load_nat in Hb. congruence.
Qed.

Lemma create_info_chunk_run :
  ∃ chunk, create_info_chunk = Some chunk
    ∧ data_length chunk = 60
    ∧ Z.of_nat (length (data chunk)) = 60
    ∧ Forall is_byte (data chunk).
Proof.
  eexists. split; [by vm_compute|]. split; [done|]. split; [done|].
  apply bytes_of_forallb. by vm_compute.
Qed.

Lemma create_tmap_chunk_bytes :
  ∃ chunk, create_tmap_chunk = Some chunk
    ∧ data_length chunk = 160
    ∧ Z.of_nat (length (data chunk)) = 160
    ∧ Forall is_byte (data chunk).
Proof.
  eexists. split; [by vm_compute|]. split; [done|]. split; [done|].
  apply bytes_of_forallb. by vm_compute.
Qed.

Lemma create_trks_chunk_bytes (track_data : list Z) (valid_bits : Z) :
  Z.of_nat (length track_data) = 232960 →
  Forall is_byte track_data →
  ∃ chunk, create_trks_chunk track_data valid_bits = Some chunk
    ∧ data_length chunk = 234240
    ∧ Z.of_nat (length (data chunk)) = 234240
    ∧ Forall is_byte (data chunk).
Proof.
  intros Htd Hbytes.
  destruct (create_trks_chunk_run track_data valid_bits)
    as (chunk & Hrun & _ & Hdl & Hlen & Hdir & Hzero & Hbits); [lia|].
  exists chunk. split; [done|]. split; [done|]. split; [done|].
  apply bytes_of_loads. intros j Hj.
  destruct (decide (j < 280)); [|destruct (decide (j < 1280))].
  - rewrite Hdir by lia. eexists. split; [done|]. apply trk_entry_byte_byte.
  - rewrite Hzero by lia. eexists. split; [done|]. unfold is_byte. lia.
  - replace j with (1280 + (j - 1280)) by lia. rewrite Hbits by lia.
    destruct (load_Some track_data (j - 1280)) as [b Hb]; [lia|].
    exists b. split; [done|]. by eapply load_byte.
Qed.

Lemma writ_entry_byte_byte (track_data : list Z) (valid_bits j : Z) :
  0 ≤ j < 700 → is_byte (writ_entry_byte track_data valid_bits j).
Proof.
  intros Hj. unfold writ_entry_byte. cbv zeta.
  assert (0 ≤ j mod 20 < 20) as Hm by lia.
  assert (j mod 20 = 0 ∨ j mod 20 = 1 ∨ j mod 20 = 2 ∨ j mod 20 = 3
          ∨ j mod 20 = 4 ∨ j mod 20 = 5 ∨ j mod 20 = 6 ∨ j mod 20 = 7
          ∨ j mod 20 = 8 ∨ j mod 20 = 9 ∨ j mod 20 = 10 ∨ j mod 20 = 11
          ∨ j mod 20 = 12 ∨ j mod 20 = 13 ∨ j mod 20 = 14 ∨ j mod 20 = 15
          ∨ j mod 20 = 16 ∨ j mod 20 = 17 ∨ j mod 20 = 18 ∨ j mod 20 = 19)
    as Hcases by lia.
  repeat (destruct Hcases as [->|Hcases]); try rewrite Hcases;
    cbv beta iota; try apply land_255_byte; unfold is_byte; lia.
Qed.

Lemma create_writ_chunk_bytes (track_data : list Z) (valid_bits : Z) :
  Z.of_nat (length track_data) = 232960 →
  Forall is_byte track_data →
  640 ≤ valid_bits ≤ 53248 →
  ∃ chunk, create_writ_chunk track_data valid_bits = Some chunk
    ∧ data_length chunk = 700
    ∧ Z.of_nat (length (data chunk)) = 700
    ∧ Forall is_byte (data chunk).
Proof.
  intros Htd Hbytes Hvb.
  destruct (create_writ_chunk_run track_data valid_bits Htd Hbytes Hvb)
    as (chunk & Hrun & _ & Hdl & Hlen & Hdata).
  exists chunk. split; [done|]. split; [done|]. split; [done|].
  apply bytes_of_loads. intros j Hj. rewrite Hdata by lia.
  eexists. split; [done|]. apply writ_entry_byte_byte. lia.
Qed.

(** ** Writers *)

Lemma write_uint32_run (dest : list Z) (off value : Z) :
  0 ≤ off → off + 4 ≤ Z.of_nat (length dest) →
  ∃ dest', write_uint32 dest off value = Some dest'
    ∧ length dest' = length dest
    ∧ (Forall is_byte dest → Forall is_byte dest')
    ∧ (0 ≤ value < 4294967296 → le32 dest' off = Some value)
    ∧ (∀ j, j < off ∨ off + 4 ≤ j → load dest' j = load dest j).
Proof.
  intros Hoff Hlen. unfold write_uint32.
  rewrite store_Some by lia. mstep.
  rewrite store_Some by (rewrite !length_insert; lia). mstep.
  rewrite store_Some by (rewrite !length_insert; lia). mstep.
  rewrite store_Some by (rewrite !length_insert; lia).
  eexists. split; [done|]. split; [by rewrite !length_insert|].
  split; [|split].
  - intros Hb. repeat apply Forall_insert; try apply land_255_byte. done.
  - intros Hv. unfold le32.
    rewrite (load_store_ne _ (off + 3) off),
      (load_store_ne _ (off + 2) off), (load_store_ne _ (off + 1) off) by lia.
    rewrite (load_store_eq dest off) by lia. mstep.
    rewrite (load_store_ne _ (off + 3) (off + 1)),
      (load_store_ne _ (off + 2) (off + 1)) by lia.
    rewrite (load_store_eq _ (off + 1)) by (rewrite !length_insert; lia).
    mstep.
    rewrite (load_store_ne _ (off + 3) (off + 2)) by lia.
    rewrite (load_store_eq _ (off + 2)) by (rewrite !length_insert; lia).
    mstep.
    rewrite (load_store_eq _ (off + 3)) by (rewrite !length_insert; lia).
    mstep.
    f_equal. by apply le32_value.
  - intros j Hj. destruct (decide (0 ≤ j)) as [Hj0|Hj0].
    + by rewrite !load_store_ne by lia.
    + unfold load. by destruct (Z.leb_spec 0 j); [lia|].
Qed.

Lemma write_uint32_be_run (dest : list Z) (off value : Z) :
  0 ≤ off → off + 4 ≤ Z.of_nat (length dest) →
  ∃ dest', write_uint32_be dest off value = Some dest'
    ∧ length dest' = length dest
    ∧ (Forall is_byte dest → Forall is_byte dest').
Proof.
  intros Hoff Hlen. unfold write_uint32_be.
  rewrite store_Some by lia. mstep.
  rewrite store_Some by (rewrite !length_insert; lia). mstep.
  rewrite store_Some by (rewrite !length_insert; lia). mstep.
  rewrite store_Some by (rewrite !length_insert; lia).
  eexists. split; [done|]. split; [by rewrite !length_insert|].
  intros Hb. repeat apply Forall_insert; try apply land_255_byte. done.
Qed.

Lemma memcpy_bytes (dest dest' : list Z) (off : Z) (src : list Z) (n : Z) :
  memcpy dest off src n = Some dest' →
  Forall is_byte dest → Forall is_byte src → Forall is_byte dest'.
Proof.
  unfold memcpy. destruct (_ && _); [|done]. intros [= <-] Hd Hs.
  apply Forall_app. split; [by apply Forall_take|].
  apply Forall_app. split; [by apply Forall_take|by apply Forall_drop].
Qed.

Lemma write_chunk_run (dest : list Z) (off : Z) (chunk : woz_chunk) :
  0 ≤ off → 0 ≤ data_length chunk →
  Z.of_nat (length (data chunk)) = data_length chunk →
  off + 8 + data_length chunk ≤ Z.of_nat (length dest) →
  ∃ dest', write_chunk dest off chunk = Some (dest', 8 + data_length chunk)
    ∧ length dest' = length dest
    ∧ (Forall is_byte dest → Forall is_byte (data chunk) →
       Forall is_byte dest').
Proof.
  intros Hoff Hdl Hdata Hlen. unfold write_chunk.
  destruct (write_uint32_be_run dest off (name chunk))
    as (d1 & -> & Hl1 & Hb1); [lia..|]. mstep.
  destruct (write_uint32_run d1 (off + 4) (to_uint32 (data_length chunk)))
    as (d2 & -> & Hl2 & Hb2 & _); [lia..|]. mstep.
  destruct (memcpy_run d2 (off + 8) (data chunk) (data_length chunk))
    as (d3 & Hcpy & Hl3 & _); [lia..|].
  rewrite Hcpy. mstep. exists d3. split; [done|]. split; [lia|].
  intros Hb Hc. eapply memcpy_bytes; [exact Hcpy|auto|done].
Qed.

(** ** The assembled container *)

Lemma ptr_add_ext (a b : list Z) (k : Z) :
  0 ≤ k → length a = length b →
  (∀ j, k ≤ j → load a j = load b j) →
  ptr_add a k = ptr_add b k.
Proof.
  intros Hk Hlen Hab. apply list_eq. intros i. unfold ptr_add.
  rewrite !lookup_drop, <- !load_nat. apply Hab. lia.
Qed.

Section Container.

Variable uninit : nat → list Z.
Hypothesis uninit_length : ∀ n, length (uninit n) = n.
Hypothesis uninit_bytes : ∀ n, Forall is_byte (uninit n).

Lemma main_run (dsk : list Z) (sector_format : dsk_sector_format) :
  Z.of_nat (length dsk) = DSK_IMAGE_SIZE →
  Forall is_byte dsk →
  ∃ woz crc,
    main uninit dsk sector_format = Some woz
    ∧ Z.of_nat (length woz) = 235204
    ∧ Forall is_byte woz
    ∧ le32 woz 8 = Some crc
    ∧ crc32 0 (ptr_add woz 12) 235192 = Some crc
    ∧ crc = crc32_reference (ptr_add woz 12).
Proof.
  intros Hdsk Hbytes. unfold main.
  destruct (encode_tracks_run uninit uninit_length uninit_bytes dsk
              sector_format Hdsk Hbytes) as (td & -> & Htd & Htdb).
  change (TRACKS_PER_DISK * BITS_TRACK_SIZE) with 232960 in Htd.
  mstep. change (to_uint32 50632) with 50632.
  destruct create_info_chunk_run as (info & -> & Hi1 & Hi2 & Hi3).
  destruct create_tmap_chunk_bytes as (tmap & -> & Ht1 & Ht2 & Ht3).
  destruct (create_trks_chunk_bytes td 50632 Htd Htdb)
    as (trks & -> & Hk1 & Hk2 & Hk3).
  destruct (create_writ_chunk_bytes td 50632 Htd Htdb ltac:(lia))
    as (writ & -> & Hw1 & Hw2 & Hw3).
  mstep. unfold total_chunk_size, WOZ_HEADER_SIZE.
  rewrite Hi1, Ht1, Hk1, Hw1.
  change (12 + (4 + 4 + 60) + (4 + 4 + 160) + (4 + 4 + 234240)
          + (4 + 4 + 700)) with 235204.
  pose proof (uninit_length (Z.to_nat 235204)) as Hl0.
  pose proof (uninit_bytes (Z.to_nat 235204)) as Hb0.
  set (woz0 := uninit (Z.to_nat 235204)) in *.
  destruct (write_uint32_be_run woz0 0 tag_WOZ2) as (w1 & -> & Hl1 & Hb1);
    [lia..|]. mstep.
  rewrite store_Some by lia. mstep.
  rewrite store_Some by (rewrite !length_insert; lia). mstep.
  rewrite store_Some by (rewrite !length_insert; lia). mstep.
  rewrite store_Some by (rewrite !length_insert; lia). mstep.
  set (w2 := <[Z.to_nat 7 := 10]> _).
  assert (length w2 = length woz0) as Hl2
    by (unfold w2; rewrite !length_insert; lia).
  assert (Forall is_byte w2) as Hb2
    by (unfold w2; repeat apply Forall_insert; auto; unfold is_byte; lia).
  clearbody w2.
  destruct (write_chunk_run w2 12 info) as (w3 & -> & Hl3 & Hb3); [lia..|].
  mstep. rewrite Hi1.
  destruct (write_chunk_run w3 (12 + (8 + 60)) tmap)
    as (w4 & -> & Hl4 & Hb4); [lia..|].
  mstep. rewrite Ht1.
  destruct (write_chunk_run w4 (12 + (8 + 60) + (8 + 160)) trks)
    as (w5 & -> & Hl5 & Hb5); [lia..|].
  mstep. rewrite Hk1.
  destruct (write_chunk_run w5 (12 + (8 + 60) + (8 + 160) + (8 + 234240)) writ)
    as (w6 & -> & Hl6 & Hb6); [lia..|].
  mstep.
  assert (Forall is_byte w6) as Hbw by auto.
  change (235204 - 12) with 235192.
  destruct (crc32_run (ptr_add w6 12) 235192) as [Hcrc Hrange].
  { rewrite ptr_add_length; lia. }
  { by apply ptr_add_bytes. }
  rewrite take_ge in Hcrc, Hrange
    by (pose proof (ptr_add_length w6 12 ltac:(lia)); lia).
  rewrite Hcrc. mstep.
  destruct (write_uint32_run w6 8 (crc32_reference (ptr_add w6 12)))
    as (w7 & -> & Hl7 & Hb7 & Hle & Hframe); [lia..|].
  mstep.
  assert (ptr_add w7 12 = ptr_add w6 12) as Hsame.
  { apply ptr_add_ext; [lia|done|]. intros j Hj. apply Hframe. lia. }
  exists w7, (crc32_reference (ptr_add w6 12)).
  split; [reflexivity|]. split; [lia|]. split; [auto|].
  split; [apply Hle; change (2 ^ 32) with 4294967296 in Hrange; lia|].
  rewrite Hsame. split; [exact Hcrc|reflexivity].
Qed.

End Container.

(** C4. For every valid input the assembled container passes the CRC
    self-check: the four bytes at header offset 8 hold, little-endian, the
    CRC-32 (reflected polynomial 0xEDB88320, register inverted before and
    after, [crc] argument 0) of all the bytes after the 12-byte header. *)
Theorem container_crc_self_check (uninit : nat → list Z) (dsk : list Z)
    (sector_format : dsk_sector_format) :
  (∀ n, length (uninit n) = n) →
  (∀ n, Forall is_byte (uninit n)) →
  Z.of_nat (length dsk) = DSK_IMAGE_SIZE →
  Forall is_byte dsk →
  ∃ woz crc,
    main uninit dsk sector_format = Some woz
    ∧ Z.of_nat (length woz)
      = 12 + 68 + 168 + (1288 + TRACKS_PER_DISK * BITS_TRACK_SIZE) + 708
    ∧ le32 woz 8 = Some crc
    ∧ crc32 0 (ptr_add woz WOZ_HEADER_SIZE)
        (Z.of_nat (length woz) - WOZ_HEADER_SIZE) = Some crc
    ∧ crc = crc32_reference (ptr_add woz WOZ_HEADER_SIZE).
Proof.
  intros Hlen Hjunk Hdsk Hbytes.
  destruct (main_run uninit Hlen Hjunk dsk sector_format Hdsk Hbytes)
    as (woz & crc & Hrun & Hl & _ & Hle & Hcrc & Href).
  exists woz, crc. split; [exact Hrun|].
  split; [rewrite Hl; reflexivity|].
  split; [exact Hle|]. rewrite Hl. unfold WOZ_HEADER_SIZE.
  change (235204 - 12) with 235192. split; [exact Hcrc|exact Href].
Qed.

Lemma container_crc_self_check_witness :
  ∃ woz crc,
    main (λ n, replicate n 0) (replicate (Z.to_nat DSK_IMAGE_SIZE) 0)
      dsk_sector_format_dos_3_3 = Some woz
    ∧ le32 woz 8 = Some crc
    ∧ crc = crc32_reference (ptr_add woz WOZ_HEADER_SIZE).
Proof.
  destruct (container_crc_self_check (λ n, replicate n 0)
              (replicate (Z.to_nat DSK_IMAGE_SIZE) 0)
              dsk_sector_format_dos_3_3)
    as (woz & crc & Hrun & _ & Hle & _ & Href).
  - intros n. apply length_replicate.
  - intros n. apply Forall_replicate. unfold is_byte. lia.
  - rewrite length_replicate. apply Z2Nat.id. by vm_compute.
  - apply Forall_replicate. unfold is_byte. lia.
  - exists woz, crc. split; [exact Hrun|]. split; [exact Hle|exact Href].
Defined.

(** * Further properties of the program *)

(** ** The integer writers *)

Lemma le16_wrap (v : Z) :
  Z.land v 255 + 256 * Z.land (Z.shiftr v 8) 255 = to_uint16 v.
Proof.
  rewrite !land_255, shiftr_div by lia. change (2 ^ 8) with 256.
  unfold to_uint16. lia.
Qed.

Lemma le32_wrap (v : Z) :
  Z.land v 255 + 256 * Z.land (Z.shiftr v 8) 255
  + 65536 * Z.land (Z.shiftr v 16) 255
  + 16777216 * Z.land (Z.shiftr v 24) 255 = to_uint32 v.
Proof.
  rewrite !land_255, !shiftr_div by lia.
  change (2 ^ 8) with 256. change (2 ^ 16) with 65536.
  change (2 ^ 24) with 16777216. unfold to_uint32. lia.
Qed.

Lemma load_outside (a : list Z) (j : Z) :
  ¬ 0 ≤ j → load a j = None.
Proof. intros Hj. unfold load. by destruct (Z.leb_spec 0 j); [lia|]. Qed.

Lemma load_store_frame (a : list Z) (i j v : Z) :
  0 ≤ i → i ≠ j → load (<[Z.to_nat i := v]> a) j = load a j.
Proof.
  intros Hi Hne. destruct (decide (0 ≤ j)).
  - by apply load_store_ne.
  - by rewrite !load_outside.
Qed.

Lemma write_uint16_run (dest : list Z) (off value : Z) :
  0 ≤ off → off + 2 ≤ Z.of_nat (length dest) →
  ∃ dest', write_uint16 dest off value = Some dest'
    ∧ length dest' = length dest
    ∧ (Forall is_byte dest → Forall is_byte dest')
    ∧ le16 dest' off = Some (to_uint16 value)
    ∧ (∀ j, j < off ∨ off + 2 ≤ j → load dest' j = load dest j).
Proof.
  intros Hoff Hlen. unfold write_uint16.
  rewrite store_Some by lia. mstep.
  rewrite store_Some by (rewrite !length_insert; lia).
  eexists. split; [reflexivity|]. split; [by rewrite !length_insert|].
  split; [|split].
  - intros Hb. repeat apply Forall_insert; try apply land_255_byte. done.
  - unfold le16.
    rewrite (load_store_ne _ (off + 1) off) by lia.
    rewrite (load_store_eq dest off) by lia. mstep.
    rewrite (load_store_eq _ (off + 1)) by (rewrite !length_insert; lia).
    mstep. f_equal. apply le16_wrap.
  - intros j Hj. by rewrite !load_store_frame by lia.
Qed.

Lemma write_uint32_wrap (dest : list Z) (off value : Z) :
  0 ≤ off → off + 4 ≤ Z.of_nat (length dest) →
  ∃ dest', write_uint32 dest off value = Some dest'
    ∧ le32 dest' off = Some (to_uint32 value).
Proof.
  intros Hoff Hlen.
  destruct (write_uint32_run dest off (to_uint32 value) Hoff Hlen)
    as (d' & Hw & _ & _ & Hle & _).
  exists d'. split.
  - rewrite <- Hw. unfold write_uint32, to_uint32.
    rewrite !land_255, !shiftr_div by lia.
    change (2 ^ 8) with 256. change (2 ^ 16) with 65536.
    change (2 ^ 24) with 16777216.
    replace (value mod 4294967296 mod 256) with (value mod 256) by lia.
    replace (value mod 4294967296 / 256 mod 256) with (value / 256 mod 256)
      by lia.
    replace (value mod 4294967296 / 65536 mod 256)
      with (value / 65536 mod 256) by lia.
    replace (value mod 4294967296 / 16777216 mod 256)
      with (value / 16777216 mod 256) by lia.
    reflexivity.
  - apply Hle. unfold to_uint32. lia.
Qed.

(** X1. [write_uint16] and [write_uint32] store a value so that reading the
    bytes back little-endian gives the value reduced to 16 or 32 bits, hence
    the value itself when it fits; they keep the length of the array and
    change no byte outside the 2 or 4 they write. *)
Theorem write_little_endian_roundtrip (dest : list Z) (off value : Z) :
  0 ≤ off →
  off + 4 ≤ Z.of_nat (length dest) →
  (∃ d16, write_uint16 dest off value = Some d16
     ∧ length d16 = length dest
     ∧ le16 d16 off = Some (value mod 65536)
     ∧ (0 ≤ value < 65536 → le16 d16 off = Some value)
     ∧ (∀ j, j < off ∨ off + 2 ≤ j → load d16 j = load dest j))
  ∧ (∃ d32, write_uint32 dest off value = Some d32
       ∧ length d32 = length dest
       ∧ le32 d32 off = Some (value mod 4294967296)
       ∧ (0 ≤ value < 4294967296 → le32 d32 off = Some value)
       ∧ (∀ j, j < off ∨ off + 4 ≤ j → load d32 j = load dest j)).
Proof.
  intros Hoff Hlen. split.
  - destruct (write_uint16_run dest off value) as (d & Hw & Hl & _ & Hle & Hf);
      [lia..|].
    exists d. split; [exact Hw|]. split; [exact Hl|]. split; [exact Hle|].
    split; [|exact Hf].
    intros Hv. rewrite Hle. unfold to_uint16. f_equal. lia.
  - destruct (write_uint32_run dest off value Hoff Hlen)
      as (d & Hw & Hl & _ & Hle & Hf).
    destruct (write_uint32_wrap dest off value Hoff Hlen) as (d' & Hw' & Hle').
    assert (d' = d) as -> by congruence.
    exists d. split; [exact Hw|]. split; [exact Hl|]. split; [exact Hle'|].
    split; [exact Hle|exact Hf].
Qed.

Lemma write_little_endian_roundtrip_witness :
  ∃ d32, write_uint32 [9; 9; 9; 9; 9; 9] 1 50632 = Some d32
    ∧ le32 d32 1 = Some 50632.
Proof.
  destruct (write_little_endian_roundtrip [9; 9; 9; 9; 9; 9] 1 50632)
    as (_ & d & Hw & _ & _ & Hle & _).
  - lia.
  - simpl. lia.
  - exists d. split; [exact Hw|]. apply Hle. lia.
Defined.

Lemma write_uint32_eq (dest : list Z) (off value : Z) :
  0 ≤ off → off + 4 ≤ Z.of_nat (length dest) →
  write_uint32 dest off value
  = Some (<[Z.to_nat (off + 3) := Z.land (Z.shiftr value 24) 255]>
            (<[Z.to_nat (off + 2) := Z.land (Z.shiftr value 16) 255]>
               (<[Z.to_nat (off + 1) := Z.land (Z.shiftr value 8) 255]>
                  (<[Z.to_nat off := Z.land value 255]> dest)))).
Proof.
  intros Hoff Hlen. unfold write_uint32.
  rewrite store_Some by lia. mstep.
  rewrite store_Some by (rewrite !length_insert; lia). mstep.
  rewrite store_Some by (rewrite !length_insert; lia). mstep.
  by rewrite store_Some by (rewrite !length_insert; lia).
Qed.

Lemma write_uint32_be_eq (dest : list Z) (off value : Z) :
  0 ≤ off → off + 4 ≤ Z.of_nat (length dest) →
  write_uint32_be dest off value
  = Some (<[Z.to_nat (off + 3) := Z.land value 255]>
            (<[Z.to_nat (off + 2) := Z.land (Z.shiftr value 8) 255]>
               (<[Z.to_nat (off + 1) := Z.land (Z.shiftr value 16) 255]>
                  (<[Z.to_nat off := Z.land (Z.shiftr value 24) 255]> dest)))).
Proof.
  intros Hoff Hlen. unfold write_uint32_be.
  rewrite store_Some by lia. mstep.
  rewrite store_Some by (rewrite !length_insert; lia). mstep.
  rewrite store_Some by (rewrite !length_insert; lia). mstep.
  by rewrite store_Some by (rewrite !length_insert; lia).
Qed.

Lemma write_uint32_be_spec (dest : list Z) (off value : Z) :
  0 ≤ off →
  off + 4 ≤ Z.of_nat (length dest) →
  ∃ dbe dle,
    write_uint32_be dest off value = Some dbe
    ∧ write_uint32 dest off value = Some dle
    ∧ length dbe = length dest
    ∧ be32 dbe off = Some (value mod 4294967296)
    ∧ (∀ k, 0 ≤ k < 4 → load dbe (off + k) = load dle (off + (3 - k)))
    ∧ (∀ j, j < off ∨ off + 4 ≤ j → load dbe j = load dest j).
Proof.
  intros Hoff Hlen.
  rewrite (write_uint32_be_eq dest off value Hoff Hlen).
  rewrite (write_uint32_eq dest off value Hoff Hlen).
  eexists _, _. split; [reflexivity|]. split; [reflexivity|].
  split; [by rewrite !length_insert|].
  assert (∀ (a b c d : Z) k,
            0 ≤ k < 4 →
            load (<[Z.to_nat (off + 3) := d]>
                    (<[Z.to_nat (off + 2) := c]>
                       (<[Z.to_nat (off + 1) := b]>
                          (<[Z.to_nat off := a]> dest)))) (off + k)
            = Some (if k =? 0 then a else if k =? 1 then b
                    else if k =? 2 then c else d)) as Hrd.
  { intros a b c d k Hk.
    assert (k = 0 ∨ k = 1 ∨ k = 2 ∨ k = 3) as [-> | [-> | [-> | ->]]] by lia;
      cbn [Z.eqb Pos.eqb].
    - rewrite Z.add_0_r, !load_store_ne by lia. apply load_store_eq. lia.
    - rewrite !load_store_ne by lia. apply load_store_eq.
      rewrite !length_insert. lia.
    - rewrite !load_store_ne by lia. apply load_store_eq.
      rewrite !length_insert. lia.
    - apply load_store_eq. rewrite !length_insert. lia. }
  split; [|split].
  - unfold be32.
    rewrite <- (Z.add_0_r off) at 5.
    rewrite (Hrd _ _ _ _ 0), (Hrd _ _ _ _ 1), (Hrd _ _ _ _ 2),
      (Hrd _ _ _ _ 3) by lia.
    mstep. cbn [Z.eqb Pos.eqb]. f_equal.
    change (value mod 4294967296) with (to_uint32 value).
    rewrite <- (le32_wrap value). lia.
  - intros k Hk. rewrite !Hrd by lia.
    assert (k = 0 ∨ k = 1 ∨ k = 2 ∨ k = 3) as [-> | [-> | [-> | ->]]] by lia;
      reflexivity.
  - intros j Hj. by rewrite !load_store_frame by lia.
Qed.

(** X2. [write_uint32_be] stores the four bytes most significant first:
    reading them back big-endian gives the value reduced to 32 bits, they
    are the bytes of [write_uint32] in reverse order, and no other byte
    changes. *)
Theorem write_uint32_be_roundtrip (dest : list Z) (off value : Z) :
  0 ≤ off →
  off + 4 ≤ Z.of_nat (length dest) →
  ∃ dbe dle,
    write_uint32_be dest off value = Some dbe
    ∧ write_uint32 dest off value = Some dle
    ∧ length dbe = length dest
    ∧ be32 dbe off = Some (value mod 4294967296)
    ∧ (∀ k, 0 ≤ k < 4 → load dbe (off + k) = load dle (off + (3 - k)))
    ∧ (∀ j, j < off ∨ off + 4 ≤ j → load dbe j = load dest j).
Proof. apply write_uint32_be_spec. Qed.

Lemma write_uint32_be_roundtrip_witness :
  ∃ dbe, write_uint32_be [0; 0; 0; 0] 0 tag_WOZ2 = Some dbe
    ∧ be32 dbe 0 = Some (tag_WOZ2 mod 4294967296).
Proof.
  destruct (write_uint32_be_roundtrip [0; 0; 0; 0] 0 tag_WOZ2)
    as (dbe & _ & Hw & _ & _ & Hbe & _).
  - lia.
  - simpl. lia.
  - exists dbe. split; [exact Hw|exact Hbe].
Defined.

(** ** The string writer *)

(** X3. [write_utf8] fills exactly [n] bytes from the pointer: byte [i] is
    character [i] of the string while the string lasts and a space (0x20)
    after its end; a string longer than [n] is cut at [n]; no terminator is
    stored and no byte outside the [n] written ones changes. *)
Theorem write_utf8_truncates_and_pads (dest : list Z) (off : Z)
    (utf8string : list Z) (n : Z) :
  0 ≤ off → 0 ≤ n →
  off + n ≤ Z.of_nat (length dest) →
  ∃ dest', write_utf8 dest off utf8string n = Some dest'
    ∧ length dest' = length dest
    ∧ (∀ i c, 0 ≤ i < n → load utf8string i = Some c →
         load dest' (off + i) = Some (to_uint8 c))
    ∧ (∀ i, Z.of_nat (length utf8string) ≤ i < n →
         load dest' (off + i) = Some 32)
    ∧ (∀ j, j < off ∨ off + n ≤ j → load dest' j = load dest j).
Proof.
  intros Hoff Hn Hlen. unfold write_utf8.
  set (P := λ j, match load utf8string (j - off) with
                 | Some c => to_uint8 c
                 | None => 32
                 end).
  match goal with |- context [for_range 0 n ?body dest] =>
    destruct (for_range_inv
      (λ i d, length d = length dest
              ∧ (∀ j, off ≤ j < off + i → load d j = Some (P j))
              ∧ (∀ j, j < off ∨ off + i ≤ j → load d j = load dest j))
      body 0 n dest) as (d & -> & Hl & Hin & Hout)
  end.
  - lia.
  - split; [done|]. split; [intros j Hj; lia|done].
  - intros i d Hi (Hl & Hin & Hout).
    assert (∀ v, v = P (off + i) →
              ∃ s', store d (off + i) v = Some s'
                ∧ length s' = length dest
                ∧ (∀ j, off ≤ j < off + (i + 1) → load s' j = Some (P j))
                ∧ (∀ j, j < off ∨ off + (i + 1) ≤ j → load s' j = load dest j))
      as Hstore.
    { intros v ->. rewrite store_Some by lia. eexists. split; [done|].
      split; [by rewrite length_insert|]. split.
      - intros j Hj. destruct (decide (j = off + i)) as [->|].
        + apply load_store_eq. lia.
        + rewrite load_store_ne by lia. apply Hin. lia.
      - intros j Hj. rewrite load_store_frame by lia. apply Hout. lia. }
    destruct (Z.ltb_spec i (Z.of_nat (length utf8string))).
    + destruct (load_Some utf8string i) as [c Hc]; [lia|].
      rewrite Hc. mstep. apply Hstore. unfold P.
      replace (off + i - off) with i by lia. by rewrite Hc.
    + apply Hstore. unfold P. replace (off + i - off) with i by lia.
      destruct (load utf8string i) as [c|] eqn:Hc; [|done].
      apply load_bound in Hc. lia.
  - exists d. split; [done|]. split; [done|]. split; [|split; [|done]].
    + intros i c Hi Hc. rewrite Hin by lia. unfold P.
      replace (off + i - off) with i by lia. by rewrite Hc.
    + intros i Hi. rewrite Hin by lia. unfold P.
      replace (off + i - off) with i by lia.
      destruct (load utf8string i) as [c|] eqn:Hc; [|done].
      apply load_bound in Hc. lia.
Qed.

Lemma write_utf8_truncates_and_pads_witness :
  ∃ dest', write_utf8 (replicate 6 0) 1 CREATOR_NAME 3 = Some dest'
    ∧ load dest' (1 + 2) = Some (to_uint8 107)
    ∧ load dest' 4 = load (replicate 6 0) 4.
Proof.
  destruct (write_utf8_truncates_and_pads (replicate 6 0) 1 CREATOR_NAME 3)
    as (d & Hw & _ & Hin & _ & Hout).
  - lia.
  - lia.
  - simpl. lia.
  - exists d. split; [exact Hw|]. split.
    + apply Hin; [lia|reflexivity].
    + apply Hout. lia.
Defined.

(** ** Writing a chunk *)

Lemma be32_value (v : Z) :
  0 ≤ v < 4294967296 → v mod 4294967296 = v.
Proof. intros Hv. by apply Z.mod_small. Qed.

Lemma write_chunk_spec (dest : list Z) (off : Z) (chunk : woz_chunk) :
  0 ≤ off →
  0 ≤ name chunk < 4294967296 →
  0 ≤ data_length chunk < 4294967296 →
  Z.of_nat (length (data chunk)) = data_length chunk →
  off + total_chunk_size chunk ≤ Z.of_nat (length dest) →
  ∃ dest',
    write_chunk dest off chunk = Some (dest', total_chunk_size chunk)
    ∧ length dest' = length dest
    ∧ be32 dest' off = Some (name chunk)
    ∧ le32 dest' (off + 4) = Some (data_length chunk)
    ∧ (∀ k, 0 ≤ k < data_length chunk →
         load dest' (off + 8 + k) = load (data chunk) k)
    ∧ (∀ j, j < off ∨ off + total_chunk_size chunk ≤ j →
         load dest' j = load dest j).
Proof.
  unfold total_chunk_size.
  intros Hoff Hname Hdl Hdata Hlen. unfold write_chunk.
  destruct (write_uint32_be_spec dest off (name chunk))
    as (d1 & _ & -> & _ & Hl1 & Hbe & _ & Hf1); [lia..|]. mstep.
  destruct (write_uint32_run d1 (off + 4) (to_uint32 (data_length chunk)))
    as (d2 & -> & Hl2 & _ & Hle & Hf2); [lia..|]. mstep.
  destruct (memcpy_run d2 (off + 8) (data chunk) (data_length chunk))
    as (d3 & -> & Hl3 & Hlow & Hmid & Hhigh); [lia..|]. mstep.
  exists d3. split; [f_equal; f_equal; lia|]. split; [lia|].
  split; [|split; [|split]].
  - unfold be32 in *.
    rewrite !Hlow, !Hf2 by lia. rewrite Hbe. f_equal. by apply Z.mod_small.
  - unfold le32 in *. rewrite !Hlow by lia. rewrite Hle.
    + f_equal. by apply Z.mod_small.
    + unfold to_uint32. lia.
  - intros k Hk. by apply Hmid.
  - intros j Hj. destruct (decide (0 ≤ j)); [|by rewrite !load_outside].
    destruct Hj as [Hj|Hj].
    + rewrite Hlow, Hf2, Hf1 by lia. done.
    + rewrite Hhigh, Hf2, Hf1 by lia. done.
Qed.

(** X4. [write_chunk] lays a chunk out as the four bytes of its name, most
    significant first, the payload length in little-endian, then the payload
    unchanged; it returns [total_chunk_size], the number of bytes it wrote,
    and changes nothing outside that range. *)
Theorem write_chunk_layout (dest : list Z) (off : Z) (chunk : woz_chunk) :
  0 ≤ off →
  0 ≤ name chunk < 4294967296 →
  0 ≤ data_length chunk < 4294967296 →
  Z.of_nat (length (data chunk)) = data_length chunk →
  off + total_chunk_size chunk ≤ Z.of_nat (length dest) →
  ∃ dest',
    write_chunk dest off chunk = Some (dest', total_chunk_size chunk)
    ∧ length dest' = length dest
    ∧ be32 dest' off = Some (name chunk)
    ∧ le32 dest' (off + 4) = Some (data_length chunk)
    ∧ (∀ k, 0 ≤ k < data_length chunk →
         load dest' (off + 8 + k) = load (data chunk) k)
    ∧ (∀ j, j < off ∨ off + total_chunk_size chunk ≤ j →
         load dest' j = load dest j).
Proof. exact (write_chunk_spec dest off chunk). Qed.

Lemma write_chunk_layout_witness :
  ∃ dest',
    write_chunk (replicate 20 7) 2 (Build_woz_chunk tag_TMAP 3 [1; 2; 3])
    = Some (dest', 11)
    ∧ be32 dest' 2 = Some tag_TMAP
    ∧ le32 dest' (2 + 4) = Some 3.
Proof.
  destruct (write_chunk_layout (replicate 20 7) 2
              (Build_woz_chunk tag_TMAP 3 [1; 2; 3]))
    as (d & Hw & _ & Hbe & Hle & _).
  - lia.
  - by vm_compute.
  - by vm_compute.
  - reflexivity.
  - by vm_compute.
  - exists d. split; [exact Hw|]. split; [exact Hbe|exact Hle].
Defined.

(** ** Running the CRC in pieces *)

Lemma lxor_ones32_small (c : Z) :
  0 ≤ c < 2 ^ 32 → 0 ≤ Z.lxor c 4294967295 < 2 ^ 32.
Proof.
  intros Hc. apply lxor_small; [lia|done|].
  change (2 ^ 32) with 4294967296. lia.
Qed.

Lemma lxor_ones32_twice (c : Z) : Z.lxor (Z.lxor c 4294967295) 4294967295 = c.
Proof. by rewrite Z.lxor_assoc, Z.lxor_nilpotent, Z.lxor_0_r. Qed.

Lemma fold_crc_small (l : list Z) (c : Z) :
  Forall is_byte l → 0 ≤ c < 2 ^ 32 →
  0 ≤ fold_left crc_byte_step l c < 2 ^ 32.
Proof.
  intros Hl. revert c. induction Hl as [|b l Hb Hl IH]; intros c Hc; [done|].
  simpl. apply IH. by apply crc_byte_step_small.
Qed.

Lemma crc32_fold (crc : Z) (buf : list Z) (size : Z) :
  0 ≤ size ≤ Z.of_nat (length buf) →
  Forall is_byte buf →
  0 ≤ crc < 2 ^ 32 →
  crc32 crc buf size
  = Some (Z.lxor (fold_left crc_byte_step (take (Z.to_nat size) buf)
                    (Z.lxor crc 4294967295)) 4294967295).
Proof.
  intros Hsize Hbytes Hcrc. unfold crc32.
  pose proof (lxor_ones32_small crc Hcrc) as Hc0.
  match goal with |- context [for_range 0 size ?body ?c0] =>
    destruct (for_range_inv
      (λ p c, c = fold_left crc_byte_step (take (Z.to_nat p) buf) c0
              ∧ 0 ≤ c < 2 ^ 32)
      body 0 size c0) as (c & -> & -> & Hc)
  end.
  - lia.
  - done.
  - intros p c Hp [-> Hc].
    destruct (load_Some buf p) as [b Hb]; [lia|].
    rewrite Hb. mstep.
    pose proof (load_byte buf p b Hbytes Hb) as Hbyte.
    match goal with |- context [Z.lxor ?c b] =>
      destruct (crc_table_step c b Hbyte) as (t & -> & Hstep)
    end.
    mstep. eexists. split; [reflexivity|]. rewrite Hstep.
    split; [|by apply crc_byte_step_small].
    replace (Z.to_nat (p + 1)) with (S (Z.to_nat p)) by lia.
    rewrite load_lookup in Hb by lia.
    by rewrite (take_S_r _ _ _ Hb), fold_left_app.
  - reflexivity.
Qed.

(** X5. The [crc] argument of [crc32] continues a checksum: for byte
    buffers [a] and [b] and a 32-bit start value, running [crc32] over [a]
    and passing its result as the start value of a run over [b] gives the
    same checksum as one run over [a] followed by [b]; a run over zero bytes
    returns its start value; every result is a 32-bit value. *)
Theorem crc32_streaming (crc : Z) (a b : list Z) :
  Forall is_byte a →
  Forall is_byte b →
  0 ≤ crc < 4294967296 →
  ∃ c, crc32 crc a (Z.of_nat (length a)) = Some c
    ∧ 0 ≤ c < 4294967296
    ∧ crc32 c b (Z.of_nat (length b))
      = crc32 crc (a ++ b) (Z.of_nat (length a) + Z.of_nat (length b))
    ∧ crc32 c b 0 = Some c.
Proof.
  change 4294967296 with (2 ^ 32).
  intros Ha Hb Hcrc.
  pose proof (lxor_ones32_small crc Hcrc) as Hc0.
  assert (0 ≤ fold_left crc_byte_step a (Z.lxor crc 4294967295) < 2 ^ 32)
    as Hfa by (by apply fold_crc_small).
  eexists. split; [|split; [|split]].
  - rewrite crc32_fold by (done || lia).
    rewrite Nat2Z.id, firstn_all. reflexivity.
  - by apply lxor_ones32_small.
  - rewrite !crc32_fold;
      [| rewrite ?length_app; lia | by apply Forall_app
       | done | lia | done | by apply lxor_ones32_small].
    rewrite lxor_ones32_twice. f_equal. f_equal.
    rewrite Nat2Z.id, firstn_all.
    replace (Z.to_nat (Z.of_nat (length a) + Z.of_nat (length b)))
      with (length (a ++ b)) by (rewrite length_app; lia).
    by rewrite firstn_all, fold_left_app.
  - rewrite crc32_fold; [|lia|done|by apply lxor_ones32_small].
    change (Z.to_nat 0) with 0%nat. rewrite take_0. simpl.
    by rewrite lxor_ones32_twice.
Qed.

Lemma crc32_streaming_witness :
  ∃ c, crc32 0 [49; 50; 51; 52] 4 = Some c
    ∧ crc32 c [53; 54; 55; 56; 57] 5 = Some 0xCBF43926.
Proof.
  destruct (crc32_streaming 0 [49; 50; 51; 52] [53; 54; 55; 56; 57])
    as (c & Hc & _ & Hchain & _).
  - repeat constructor; unfold is_byte; lia.
  - repeat constructor; unfold is_byte; lia.
  - lia.
  - exists c. split; [exact Hc|].
    etrans; [exact Hchain|]. by vm_compute.
Defined.

(** ** Reading back what the bit writer wrote *)

Lemma testbit_b2z (c : bool) (n : Z) :
  Z.testbit (Z.b2z c) n = c && (n =? 0).
Proof.
  destruct c; simpl.
  - change 1 with (2 ^ 0). rewrite Z.pow2_bits_eqb by lia.
    by rewrite Z.eqb_sym.
  - apply Z.bits_0.
Qed.

Lemma bits_read_byte_testbit (buffer : list Z) (index k : Z) :
  0 ≤ k →
  Z.testbit (bits_read_byte buffer index) k
  = (k <? 8) && buf_bit buffer (index + 7 - k).
Proof.
  intros Hk. unfold bits_read_byte.
  rewrite !Z.lor_spec, !Z.shiftl_spec, !testbit_b2z by lia.
  destruct (Z.ltb_spec k 8) as [Hlt|Hge]; simpl.
  - assert (k = 0 ∨ k = 1 ∨ k = 2 ∨ k = 3 ∨ k = 4 ∨ k = 5 ∨ k = 6 ∨ k = 7)
      as [-> | [-> | [-> | [-> | [-> | [-> | [-> | ->]]]]]]] by lia;
      cbn [Z.sub Z.opp Z.add Z.pos_sub Z.succ_double Z.pred_double Z.double
           Pos.pred_double Z.eqb Pos.eqb andb orb];
      rewrite ?andb_false_r, ?andb_true_r, ?orb_false_r, ?orb_false_l;
      f_equal; lia.
  - repeat match goal with
           | |- context [?a =? 0] =>
               destruct (Z.eqb_spec a 0); [lia|]
           end.
    by rewrite ?andb_false_r.
Qed.

Lemma bits_read_byte_byte (buffer : list Z) (index : Z) :
  is_byte (bits_read_byte buffer index).
Proof.
  apply (small_of_bits _ 8); [lia|]. intros k Hk.
  rewrite bits_read_byte_testbit by lia.
  by destruct (Z.ltb_spec k 8); [lia|].
Qed.

Lemma bits_read_byte_ext (b1 b2 : list Z) (index : Z) :
  (∀ p, index ≤ p < index + 8 → buf_bit b1 p = buf_bit b2 p) →
  bits_read_byte b1 index = bits_read_byte b2 index.
Proof.
  intros Hp. unfold bits_read_byte. by rewrite !Hp by lia.
Qed.

Lemma bits_write_byte_read (buffer : list Z) (index value : Z) :
  0 ≤ index →
  index + 8 ≤ 8 * Z.of_nat (length buffer) →
  is_byte value →
  ∃ buffer',
    bits_write_byte buffer index value = Some (buffer', index + 8)
    ∧ length buffer' = length buffer
    ∧ (Forall is_byte buffer → Forall is_byte buffer')
    ∧ bits_read_byte buffer' index
      = Z.lor (bits_read_byte buffer index) value
    ∧ (∀ p, p < index ∨ index + 8 ≤ p →
         buf_bit buffer' p = buf_bit buffer p)
    ∧ (∀ q, q + 8 ≤ index ∨ index + 8 ≤ q →
         bits_read_byte buffer' q = bits_read_byte buffer q).
Proof.
  intros H0 Hcap Hv.
  destruct (bits_write_byte_ok buffer index value H0 Hcap) as (b' & Hw & Hl).
  exists b'. split; [exact Hw|]. split; [exact Hl|].
  split; [by eapply bits_write_byte_bytes|].
  assert (∀ p, buf_bit b' p
               = buf_bit buffer p
                 || ((index <=? p) && (p <? index + 8)
                     && Z.testbit value (index + 7 - p))) as Hbits
    by (intros p; by eapply bits_write_byte_bits).
  assert (∀ p, p < index ∨ index + 8 ≤ p → buf_bit b' p = buf_bit buffer p)
    as Hout.
  { intros p Hp. rewrite Hbits.
    destruct (Z.leb_spec index p); destruct (Z.ltb_spec p (index + 8));
      simpl; rewrite ?orb_false_r; try done; lia. }
  split; [|split; [exact Hout|]].
  - apply Z.bits_inj'. intros k Hk.
    rewrite Z.lor_spec, !bits_read_byte_testbit by lia.
    destruct (Z.ltb_spec k 8); simpl.
    + rewrite Hbits.
      destruct (Z.leb_spec index (index + 7 - k)); [|lia].
      destruct (Z.ltb_spec (index + 7 - k) (index + 8)); [|lia].
      simpl. do 2 f_equal. lia.
    + symmetry. apply byte_testbit_high; [done|lia].
  - intros q Hq. apply bits_read_byte_ext. intros p Hp. apply Hout. lia.
Qed.

(** X6. An 8-bit value written by [bits_write_byte] at any bit offset can
    be read back from the same offset: the eight bits there become the old
    bits ORed with the value, so they are the value itself when the target
    bits were zero; a byte read from any non-overlapping offset is as
    before. *)
Theorem bits_write_byte_read_back (buffer : list Z) (index value : Z) :
  0 ≤ index →
  index + 8 ≤ 8 * Z.of_nat (length buffer) →
  is_byte value →
  ∃ buffer',
    bits_write_byte buffer index value = Some (buffer', index + 8)
    ∧ bits_read_byte buffer' index
      = Z.lor (bits_read_byte buffer index) value
    ∧ (bits_read_byte buffer index = 0 →
       bits_read_byte buffer' index = value)
    ∧ (∀ q, q + 8 ≤ index ∨ index + 8 ≤ q →
         bits_read_byte buffer' q = bits_read_byte buffer q).
Proof.
  intros H0 Hcap Hv.
  destruct (bits_write_byte_read buffer index value H0 Hcap Hv)
    as (b' & Hw & _ & _ & Hrd & _ & Hother).
  exists b'. split; [exact Hw|]. split; [exact Hrd|]. split; [|exact Hother].
  intros Hz. by rewrite Hrd, Hz, Z.lor_0_l.
Qed.

Lemma bits_write_byte_read_back_witness :
  ∃ buffer',
    bits_write_byte [0; 0; 0] 5 0xD5 = Some (buffer', 5 + 8)
    ∧ bits_read_byte buffer' 5 = 0xD5.
Proof.
  destruct (bits_write_byte_read_back [0; 0; 0] 5 0xD5)
    as (b' & Hw & _ & Hz & _).
  - lia.
  - simpl. lia.
  - unfold is_byte. lia.
  - exists b'. split; [exact Hw|]. apply Hz. reflexivity.
Defined.

(** ** 4-and-4 *)

Lemma encode_4_and_4_decodes (value : Z) :
  is_byte value →
  decode_4_and_4 (fst (encode_4_and_4 value)) (snd (encode_4_and_4 value))
  = value
  ∧ 170 ≤ fst (encode_4_and_4 value) < 256
  ∧ 170 ≤ snd (encode_4_and_4 value) < 256.
Proof.
  intros Hv.
  set (check := λ v,
         (decode_4_and_4 (fst (encode_4_and_4 v)) (snd (encode_4_and_4 v)) =? v)
         && (170 <=? fst (encode_4_and_4 v)) && (fst (encode_4_and_4 v) <? 256)
         && (170 <=? snd (encode_4_and_4 v)) && (snd (encode_4_and_4 v) <? 256)).
  assert (check value = true) as Hb
    by (apply (range_forallb check 0 256); [by vm_compute|unfold is_byte in Hv; lia]).
  unfold check in Hb.
  repeat (apply andb_prop in Hb as [Hb ?]). lia.
Qed.

(** X7. [bits_write_4_and_4] writes, into sixteen zero bits, the two bytes
    [(value >> 1) | 0xAA] and [value | 0xAA]; both are at least 0xAA, so
    their top bit is set, and [((first << 1) | 1) & second] gives back the
    8-bit value. *)
Theorem bits_write_4_and_4_roundtrip (buffer : list Z) (index value : Z) :
  0 ≤ index →
  index + 16 ≤ 8 * Z.of_nat (length buffer) →
  is_byte value →
  bits_read_byte buffer index = 0 →
  bits_read_byte buffer (index + 8) = 0 →
  ∃ buffer',
    bits_write_4_and_4 buffer index value = Some (buffer', index + 16)
    ∧ bits_read_byte buffer' index = Z.lor (Z.shiftr value 1) 170
    ∧ bits_read_byte buffer' (index + 8) = Z.lor value 170
    ∧ 170 ≤ bits_read_byte buffer' index < 256
    ∧ 170 ≤ bits_read_byte buffer' (index + 8) < 256
    ∧ decode_4_and_4 (bits_read_byte buffer' index)
        (bits_read_byte buffer' (index + 8)) = value.
Proof.
  intros H0 Hcap Hv Hz1 Hz2.
  destruct (encode_4_and_4_decodes value Hv) as (Hdec & Ha & Hb).
  unfold encode_4_and_4 in *. simpl fst in *. simpl snd in *.
  unfold bits_write_4_and_4.
  destruct (bits_write_byte_read buffer index (Z.lor (Z.shiftr value 1) 170))
    as (b1 & -> & Hl1 & _ & Hr1 & _ & Ho1); [lia|lia|unfold is_byte; lia|].
  mstep.
  destruct (bits_write_byte_read b1 (index + 8) (Z.lor value 170))
    as (b2 & -> & Hl2 & _ & Hr2 & _ & Ho2); [lia|lia|unfold is_byte; lia|].
  mstep.
  assert (bits_read_byte b2 index = Z.lor (Z.shiftr value 1) 170) as Hfirst.
  { rewrite Ho2 by lia. by rewrite Hr1, Hz1, Z.lor_0_l. }
  assert (bits_read_byte b2 (index + 8) = Z.lor value 170) as Hsecond.
  { rewrite Hr2, Ho1 by lia. by rewrite Hz2, Z.lor_0_l. }
  exists b2. split; [f_equal; f_equal; lia|].
  rewrite Hfirst, Hsecond. done.
Qed.

Lemma bits_write_4_and_4_roundtrip_witness :
  ∃ buffer',
    bits_write_4_and_4 [0; 0; 0] 3 254 = Some (buffer', 3 + 16)
    ∧ decode_4_and_4 (bits_read_byte buffer' 3)
        (bits_read_byte buffer' (3 + 8)) = 254.
Proof.
  destruct (bits_write_4_and_4_roundtrip [0; 0; 0] 3 254)
    as (b' & Hw & _ & _ & _ & _ & Hdec).
  - lia.
  - simpl. lia.
  - unfold is_byte. lia.
  - reflexivity.
  - reflexivity.
  - exists b'. split; [exact Hw|exact Hdec].
Defined.

(** ** Decoding what the sector encoder produced *)

Lemma denibble_nibble (v : Z) : 0 ≤ v < 64 → denibble (nibble v) = v.
Proof.
  intros Hv.
  set (check := λ v, denibble (nibble v) =? v).
  assert (check v = true) as Hb
    by (apply (range_forallb check 0 64); [by vm_compute|lia]).
  unfold check in Hb. lia.
Qed.

Lemma nibble_readable (v : Z) :
  0 ≤ v < 64 →
  150 ≤ nibble v < 256
  ∧ readable_nibble (nibble v) = true
  ∧ nibble v ≠ 0xD5 ∧ nibble v ≠ 0xAA.
Proof.
  intros Hv.
  set (check := λ v, (150 <=? nibble v) && (nibble v <? 256)
                     && readable_nibble (nibble v)
                     && negb (nibble v =? 0xD5) && negb (nibble v =? 0xAA)).
  assert (check v = true) as Hb
    by (apply (range_forallb check 0 64); [by vm_compute|lia]).
  unfold check in Hb. repeat (apply andb_prop in Hb as [Hb ?]).
  repeat split; try lia; try done.
Qed.

Lemma encode_sector_ref_load (src : list Z) (i : Z) :
  0 ≤ i < 343 →
  load (encode_sector_ref src) i
  = Some (nibble (xor_chain 341 (pre_nibble src) i)).
Proof.
  intros Hi. unfold encode_sector_ref, encode_sector_with.
  rewrite load_lookup by lia.
  change (map ?f ?l) with (f <$> l).
  rewrite list_lookup_fmap, lookup_seqZ_lt by lia.
  by rewrite Z.add_0_l, Z2Nat.id by lia.
Qed.

Lemma encode_sector_ref_length (src : list Z) :
  length (encode_sector_ref src) = 343%nat.
Proof.
  unfold encode_sector_ref, encode_sector_with.
  by rewrite length_map, length_seqZ.
Qed.

Lemma low_fields (a b c q : Z) :
  0 ≤ a < 4 → 0 ≤ b < 4 → 0 ≤ c < 4 → 0 ≤ q < 3 →
  Z.land (Z.shiftr (Z.lor (Z.lor a (Z.shiftl b 2)) (Z.shiftl c 4)) (2 * q)) 3
  = (if q =? 0 then a else if q =? 1 then b else c).
Proof.
  intros Ha Hb Hc Hq.
  assert (a = 0 ∨ a = 1 ∨ a = 2 ∨ a = 3) as [-> | [-> | [-> | ->]]] by lia;
  assert (b = 0 ∨ b = 1 ∨ b = 2 ∨ b = 3) as [-> | [-> | [-> | ->]]] by lia;
  assert (c = 0 ∨ c = 1 ∨ c = 2 ∨ c = 3) as [-> | [-> | [-> | ->]]] by lia;
  assert (q = 0 ∨ q = 1 ∨ q = 2) as [-> | [-> | ->]] by lia;
  reflexivity.
Qed.

Lemma reverse_2bit_involutive (v : Z) :
  0 ≤ v < 4 → reverse_2bit (reverse_2bit v) = v.
Proof.
  intros Hv.
  assert (v = 0 ∨ v = 1 ∨ v = 2 ∨ v = 3) as [-> | [-> | [-> | ->]]] by lia;
    reflexivity.
Qed.

Lemma join_high_low (s : Z) :
  Z.lor (Z.shiftl (Z.shiftr s 2) 2) (Z.land s 3) = s.
Proof.
  apply Z.bits_inj'. intros k Hk.
  rewrite Z.lor_spec, Z.land_spec. change 3 with (Z.ones 2).
  destruct (decide (k < 2)).
  - rewrite Z.shiftl_spec_low, Z.ones_spec_low by lia.
    by rewrite andb_true_r.
  - rewrite Z.shiftl_spec, Z.shiftr_spec, Z.ones_spec_high by lia.
    rewrite andb_false_r, orb_false_r. f_equal. lia.
Qed.

Section Decode.

Variable src : list Z.
Hypothesis src_length : length src = 256%nat.
Hypothesis src_bytes : Forall is_byte src.

Let enc := encode_sector_ref src.

Lemma src_length_ge : 256 ≤ Z.of_nat (length src).
Proof. rewrite src_length. lia. Qed.

Lemma enc_value_chain (i : Z) :
  0 ≤ i < 343 → enc_value enc i = xor_chain 341 (pre_nibble src) i.
Proof.
  intros Hi. unfold enc_value, enc. rewrite encode_sector_ref_load by done.
  simpl. apply denibble_nibble.
  pose proof (xor_chain_small src src_length_ge src_bytes 341 i Hi) as Hx.
  change (2 ^ 6) with 64 in Hx. lia.
Qed.

Lemma running_xor_pre (n : nat) :
  (n ≤ 341)%nat →
  running_xor (enc_value enc) n = pre_nibble src (Z.of_nat n).
Proof.
  induction n as [|n IH]; intros Hn.
  - simpl. rewrite enc_value_chain by lia. reflexivity.
  - cbn [running_xor]. rewrite IH by lia.
    rewrite enc_value_chain by lia. unfold xor_chain.
    destruct (Z.leb_spec 1 (Z.of_nat (S n))); [|lia].
    destruct (Z.leb_spec (Z.of_nat (S n)) 341); [|lia]. simpl.
    replace (Z.of_nat (S n) - 1) with (Z.of_nat n) by lia.
    rewrite (Z.lxor_comm (pre_nibble src (Z.of_nat (S n)))).
    by rewrite <- Z.lxor_assoc, Z.lxor_nilpotent, Z.lxor_0_l.
Qed.

Lemma decoded_pre_eq (i : Z) :
  0 ≤ i ≤ 341 → decoded_pre enc i = pre_nibble src i.
Proof.
  intros Hi. unfold decoded_pre. rewrite running_xor_pre by lia.
  f_equal. lia.
Qed.

Lemma low_part_of_pre (c : Z) :
  0 ≤ c < 256 →
  Z.land (Z.shiftr (pre_nibble src (c mod 86)) (2 * (c / 86))) 3
  = low_part src c.
Proof.
  intros Hc.
  pose proof (low_part_small src (c mod 86)) as H0.
  pose proof (low_part_small src (c mod 86 + 86)) as H1.
  pose proof (low_part_small src (c mod 86 + 172)) as H2.
  change (2 ^ 2) with 4 in *.
  destruct (decide (c mod 86 < 84)) as [Hr|Hr].
  - rewrite pre_nibble_low3 by done.
    rewrite low_fields by lia.
    destruct (Z.eqb_spec (c / 86) 0); [f_equal; lia|].
    destruct (Z.eqb_spec (c / 86) 1); f_equal; lia.
  - rewrite pre_nibble_low2 by lia.
    match goal with |- context [Z.shiftr (Z.lor ?a ?b) _] =>
      replace (Z.lor a b) with (Z.lor (Z.lor a b) (Z.shiftl 0 4))
        by (by rewrite Z.shiftl_0_l, Z.lor_0_r)
    end.
    rewrite low_fields by lia.
    destruct (Z.eqb_spec (c / 86) 0); [f_equal; lia|].
    destruct (Z.eqb_spec (c / 86) 1); [f_equal; lia|lia].
Qed.

Lemma decode_encode_sector : decode_6_and_2 enc = Some src.
Proof.
  unfold decode_6_and_2.
  rewrite decoded_pre_eq, enc_value_chain by lia.
  change (xor_chain 341 (pre_nibble src) 342) with (pre_nibble src 341).
  rewrite Z.eqb_refl. f_equal. symmetry.
  apply list_of_loads; [rewrite src_length; lia|].
  intros c Hc.
  rewrite (src_load src src_length_ge c Hc). f_equal.
  rewrite !decoded_pre_eq by lia. rewrite low_part_of_pre by done.
  rewrite pre_nibble_high by lia.
  replace (86 + c - 86) with c by lia.
  unfold low_part, high_part.
  rewrite reverse_2bit_involutive.
  - symmetry. apply join_high_low.
  - change 3 with (Z.ones 2). rewrite Z.land_ones by lia. lia.
Qed.

End Decode.

(** X8. The 343 bytes that [encode_6_and_2] produces for a 256-byte sector
    decode back to that sector: inverting the table, undoing the
    exclusive-or chain, whose last value equals the checksum byte, and
    rejoining the six high and two low bits of each byte returns the source;
    so two different sectors never encode to the same bytes. *)
Theorem encode_6_and_2_decodes (dest src : list Z) :
  length dest = 343%nat →
  length src = 256%nat →
  Forall is_byte src →
  ∃ enc, encode_6_and_2 dest src = Some enc
    ∧ decode_6_and_2 enc = Some src
    ∧ decoded_pre enc 341 = enc_value enc 342
    ∧ ∀ dest' src',
        length dest' = 343%nat → length src' = 256%nat →
        Forall is_byte src' →
        encode_6_and_2 dest' src' = Some enc → src' = src.
Proof.
  intros Hdest Hsrc Hbytes.
  exists (encode_sector_ref src).
  split; [apply encode_6_and_2_run; [lia|done|done]|].
  split; [by apply decode_encode_sector|]. split.
  - rewrite decoded_pre_eq, enc_value_chain by (done || lia). reflexivity.
  - intros dest' src' Hdest' Hsrc' Hbytes' Henc.
    rewrite encode_6_and_2_run in Henc by (done || lia).
    assert (encode_sector_ref src' = encode_sector_ref src) as Heq
      by congruence.
    clear Henc. rename Heq into Henc.
    pose proof (decode_encode_sector src Hsrc Hbytes) as Hd1.
    pose proof (decode_encode_sector src' Hsrc' Hbytes') as Hd2.
    rewrite Henc in Hd2. congruence.
Qed.

Lemma encode_6_and_2_decodes_witness :
  ∃ enc, encode_6_and_2 (replicate 343 0) (replicate 256 0xA5) = Some enc
    ∧ decode_6_and_2 enc = Some (replicate 256 0xA5).
Proof.
  destruct (encode_6_and_2_decodes (replicate 343 0) (replicate 256 0xA5))
    as (enc & Henc & Hdec & _).
  - reflexivity.
  - reflexivity.
  - apply Forall_replicate. unfold is_byte. lia.
  - exists enc. split; [exact Henc|exact Hdec].
Defined.

(** X9. Every byte that [encode_6_and_2] emits is an entry of the table:
    it is at least 0x96 with its top bit set, has no three zero bits in a
    row, and is never 0xD5 or 0xAA, the bytes that open the address and data
    fields. *)
Theorem encode_6_and_2_emits_nibbles (dest src : list Z) :
  length dest = 343%nat →
  length src = 256%nat →
  Forall is_byte src →
  ∃ enc, encode_6_and_2 dest src = Some enc
    ∧ length enc = 343%nat
    ∧ ∀ i v, load enc i = Some v →
        v ∈ six_and_two_mapping
        ∧ 0x96 ≤ v ≤ 0xFF
        ∧ readable_nibble v = true
        ∧ v ≠ 0xD5 ∧ v ≠ 0xAA.
Proof.
  intros Hdest Hsrc Hbytes.
  exists (encode_sector_ref src).
  split; [apply encode_6_and_2_run; [lia|done|done]|].
  split; [apply encode_sector_ref_length|].
  intros i v Hv. pose proof (load_bound _ _ _ Hv) as Hi.
  rewrite encode_sector_ref_length in Hi.
  rewrite encode_sector_ref_load in Hv by lia. injection Hv as <-.
  assert (0 ≤ xor_chain 341 (pre_nibble src) i < 64) as Hx.
  { pose proof (xor_chain_small src ltac:(lia) Hbytes 341 i ltac:(lia)) as Hx.
    by change (2 ^ 6) with 64 in Hx. }
  destruct (nibble_readable _ Hx) as (Hr & Hn & Hd5 & Haa).
  split; [|repeat split; (done || lia)].
  pose proof (nibble_load _ Hx) as Hl.
  rewrite load_lookup in Hl by lia.
  by eapply list_elem_of_lookup_2.
Qed.

Lemma encode_6_and_2_emits_nibbles_witness :
  ∃ enc, encode_6_and_2 (replicate 343 0) (replicate 256 0xA5) = Some enc
    ∧ length enc = 343%nat.
Proof.
  destruct (encode_6_and_2_emits_nibbles (replicate 343 0) (replicate 256 0xA5))
    as (enc & Henc & Hlen & _).
  - reflexivity.
  - reflexivity.
  - apply Forall_replicate. unfold is_byte. lia.
  - exists enc. split; [exact Henc|exact Hlen].
Defined.

(** ** The bit stream of a track *)

Lemma item_len_pos (it : stream_item) : 8 ≤ item_len it.
Proof. destruct it; simpl; lia. Qed.

Lemma stream_len_nonneg (items : list stream_item) : 0 ≤ stream_len items.
Proof.
  induction items as [|it r IH]; simpl; [lia|].
  pose proof (item_len_pos it). lia.
Qed.

Lemma stream_len_app (l1 l2 : list stream_item) :
  stream_len (l1 ++ l2) = stream_len l1 + stream_len l2.
Proof. induction l1 as [|it r IH]; simpl; lia. Qed.

Lemma stream_len_syncs (n : nat) : stream_len (replicate n Sync) = 10 * Z.of_nat n.
Proof. induction n as [|n IH]; simpl replicate; simpl stream_len; lia. Qed.

Lemma stream_len_nibbles (l : list Z) :
  stream_len (map Nibble l) = 8 * Z.of_nat (length l).
Proof. induction l as [|v r IH]; simpl map; simpl stream_len; simpl length; lia. Qed.

Lemma stream_bit_app (start : Z) (l1 l2 : list stream_item) (p : Z) :
  stream_bit start (l1 ++ l2) p
  = stream_bit start l1 p || stream_bit (start + stream_len l1) l2 p.
Proof.
  revert start. induction l1 as [|it r IH]; intros start.
  - simpl. by rewrite Z.add_0_r.
  - simpl.
    replace (start + (item_len it + stream_len r))
      with (start + item_len it + stream_len r) by lia.
    by rewrite IH, orb_assoc.
Qed.

Lemma stream_bit_before (start : Z) (items : list stream_item) (p : Z) :
  p < start → stream_bit start items p = false.
Proof.
  revert start. induction items as [|it r IH]; intros start Hp; [done|].
  simpl. rewrite IH by (pose proof (item_len_pos it); lia).
  destruct (Z.leb_spec start p); [lia|]. done.
Qed.

Lemma stream_bit_beyond (start : Z) (items : list stream_item) (p : Z) :
  start + stream_len items ≤ p → stream_bit start items p = false.
Proof.
  revert start. induction items as [|it r IH]; intros start Hp; [done|].
  simpl in *. pose proof (item_len_pos it). pose proof (stream_len_nonneg r).
  rewrite IH by lia.
  destruct (Z.ltb_spec p (start + 8)); [lia|].
  by rewrite andb_false_r.
Qed.

Lemma written_start (base : list Z) : written base [] (base, 0).
Proof.
  split; [done|]. split; [done|]. split; [done|].
  intros p. simpl. by rewrite orb_false_r.
Qed.

Lemma written_item (base : list Z) (items : list stream_item)
    (d d' : list Z) (i : Z) (it : stream_item) :
  written base items (d, i) →
  0 ≤ i → i + 8 ≤ 8 * Z.of_nat (length d) →
  is_byte (item_value it) →
  bits_write_byte d i (item_value it) = Some (d', i + 8) →
  written base (items ++ [it]) (d', i + item_len it).
Proof.
  intros (Hlen & Hl & Hb & Hbits) H0 Hcap Hv Hw. simpl in *.
  split; [|split; [|split]]; simpl.
  - rewrite stream_len_app. simpl. lia.
  - destruct (bits_write_byte_ok d i (item_value it) H0 Hcap) as (d2 & Hw2 & Hl2).
    congruence.
  - intros Hbase. eapply bits_write_byte_bytes; [exact Hw|auto].
  - intros p. rewrite (bits_write_byte_bits d d' i (item_value it) _ p H0 Hcap Hv Hw).
    rewrite Hbits, stream_bit_app, Hlen. simpl.
    by rewrite orb_false_r, orb_assoc.
Qed.

Lemma step_byte_written (base : list Z) (items : list stream_item)
    (d : list Z) (i v : Z) :
  written base items (d, i) →
  0 ≤ i → i + 8 ≤ 8 * Z.of_nat (length d) →
  is_byte v →
  ∃ d', step_byte v (d, i) = Some (d', i + 8)
    ∧ written base (items ++ [Nibble v]) (d', i + 8).
Proof.
  intros Hw H0 Hcap Hv.
  destruct (bits_write_byte_ok d i v H0 Hcap) as (d' & Hrun & _).
  exists d'. split; [exact Hrun|].
  by apply (written_item base items d d' i (Nibble v)).
Qed.

Lemma four_and_four_bytes (v : Z) :
  is_byte v →
  is_byte (Z.lor (Z.shiftr v 1) 170) ∧ is_byte (Z.lor v 170).
Proof.
  intros Hv. split; apply lor_byte; try (unfold is_byte; lia); try done.
  apply shiftr_byte; [done|lia].
Qed.

Lemma step_4_and_4_written (base : list Z) (items : list stream_item)
    (d : list Z) (i v : Z) :
  written base items (d, i) →
  0 ≤ i → i + 16 ≤ 8 * Z.of_nat (length d) →
  is_byte v →
  ∃ d', step_4_and_4 v (d, i) = Some (d', i + 16)
    ∧ written base (items ++ four_and_four_items v) (d', i + 16).
Proof.
  intros Hw H0 Hcap Hv. destruct (four_and_four_bytes v Hv) as [Ha Hb].
  unfold step_4_and_4, bits_write_4_and_4.
  destruct (step_byte_written base items d i _ Hw H0 ltac:(lia) Ha)
    as (d1 & Hr1 & Hw1).
  unfold step_byte in Hr1. rewrite Hr1. mstep.
  assert (length d1 = length d) as Hl1
    by (destruct Hw as (_ & Hl & _), Hw1 as (_ & Hl' & _); simpl in *; congruence).
  destruct (step_byte_written base _ d1 (i + 8) _ Hw1 ltac:(lia) ltac:(lia) Hb)
    as (d2 & Hr2 & Hw2).
  unfold step_byte in Hr2. rewrite Hr2. mstep.
  exists d2. split; [f_equal; f_equal; lia|].
  unfold four_and_four_items.
  replace (i + 16) with (i + 8 + 8) by lia.
  rewrite <- app_assoc in Hw2. exact Hw2.
Qed.

Lemma bits_write_sync_written (base : list Z) (items : list stream_item)
    (d : list Z) (i : Z) :
  written base items (d, i) →
  0 ≤ i → i + 8 ≤ 8 * Z.of_nat (length d) →
  ∃ d', bits_write_sync d i = Some (d', i + 10)
    ∧ written base (items ++ [Sync]) (d', i + 10).
Proof.
  intros Hw H0 Hcap. unfold bits_write_sync.
  destruct (bits_write_byte_ok d i 255 H0 Hcap) as (d' & Hrun & _).
  rewrite Hrun. mstep. exists d'. split; [f_equal; f_equal; lia|].
  apply (written_item base items d d' i Sync); try done;
    unfold is_byte; simpl; lia.
Qed.

Lemma written_length (base : list Z) (items : list stream_item)
    (d : list Z) (i : Z) :
  written base items (d, i) → length d = length base.
Proof. by intros (_ & Hl & _). Qed.

Lemma step_syncs_written (base : list Z) (items : list stream_item)
    (d : list Z) (i : Z) (n : nat) :
  written base items (d, i) →
  0 ≤ i → i + 10 * Z.of_nat n ≤ 8 * Z.of_nat (length d) →
  ∃ d', step_syncs (Z.of_nat n) (d, i) = Some (d', i + 10 * Z.of_nat n)
    ∧ written base (items ++ replicate n Sync) (d', i + 10 * Z.of_nat n).
Proof.
  intros Hw H0 Hcap. unfold step_syncs.
  pose proof (written_length _ _ _ _ Hw) as Hld.
  match goal with |- context [for_range 0 ?hi ?body ?s0] =>
    destruct (for_range_inv
      (λ k '(dk, idx),
         idx = i + 10 * k
         ∧ written base (items ++ replicate (Z.to_nat k) Sync) (dk, idx))
      body 0 hi s0) as ([d' idx] & -> & -> & Hw')
  end.
  - lia.
  - split; [lia|]. simpl. by rewrite app_nil_r.
  - intros k [dk idx] Hk [-> Hwk].
    pose proof (written_length _ _ _ _ Hwk) as Hlk.
    destruct (bits_write_sync_written base _ dk (i + 10 * k) Hwk)
      as (d' & -> & Hw'); [lia..|].
    eexists (_, _). split; [reflexivity|]. split; [lia|].
    replace (Z.to_nat (k + 1)) with (S (Z.to_nat k)) by lia.
    rewrite replicate_S_end, app_assoc.
    by replace (i + 10 * (k + 1)) with (i + 10 * k + 10) by lia.
  - exists d'. split; [reflexivity|]. by rewrite Nat2Z.id in Hw'.
Qed.

Lemma write_nibbles_written (base : list Z) (items : list stream_item)
    (encoded_contents d : list Z) (i : Z) :
  written base items (d, i) →
  Forall is_byte encoded_contents →
  0 ≤ i →
  i + 8 * Z.of_nat (length encoded_contents) ≤ 8 * Z.of_nat (length d) →
  ∃ d',
    for_range 0 (Z.of_nat (length encoded_contents))
      (λ i '(dest, bit_index),
         v ← load encoded_contents i; bits_write_byte dest bit_index v)
      (d, i)
    = Some (d', i + 8 * Z.of_nat (length encoded_contents))
    ∧ written base (items ++ map Nibble encoded_contents)
        (d', i + 8 * Z.of_nat (length encoded_contents)).
Proof.
  intros Hw Henc H0 Hcap.
  pose proof (written_length _ _ _ _ Hw) as Hld.
  match goal with |- context [for_range 0 ?hi ?body ?s0] =>
    destruct (for_range_inv
      (λ k '(dk, idx),
         idx = i + 8 * k
         ∧ written base
             (items ++ map Nibble (take (Z.to_nat k) encoded_contents))
             (dk, idx))
      body 0 hi s0) as ([d' idx] & -> & -> & Hw')
  end.
  - lia.
  - split; [lia|]. simpl. by rewrite app_nil_r.
  - intros k [dk idx] Hk [-> Hwk].
    pose proof (written_length _ _ _ _ Hwk) as Hlk.
    destruct (load_Some encoded_contents k) as [v Hv]; [lia|].
    rewrite Hv. mstep.
    destruct (step_byte_written base _ dk (i + 8 * k) v Hwk)
      as (d' & Hr & Hw'); [lia|lia|by eapply load_byte|].
    unfold step_byte in Hr. rewrite Hr.
    eexists (_, _). split; [reflexivity|]. split; [lia|].
    replace (Z.to_nat (k + 1)) with (S (Z.to_nat k)) by lia.
    rewrite load_lookup in Hv by lia.
    rewrite (take_S_r _ _ _ Hv), map_app, app_assoc. simpl map.
    by replace (i + 8 * (k + 1)) with (i + 8 * k + 8) by lia.
  - exists d'. split; [reflexivity|].
    by rewrite Nat2Z.id, firstn_all in Hw'.
Qed.

Lemma step_syncs_written_Z (base : list Z) (items : list stream_item)
    (d : list Z) (i n : Z) :
  written base items (d, i) →
  0 ≤ n → 0 ≤ i → i + 10 * n ≤ 8 * Z.of_nat (length d) →
  ∃ d', step_syncs n (d, i) = Some (d', i + 10 * n)
    ∧ written base (items ++ replicate (Z.to_nat n) Sync) (d', i + 10 * n).
Proof.
  intros Hw Hn H0 Hcap.
  pose proof (step_syncs_written base items d i (Z.to_nat n) Hw H0) as Hs.
  rewrite Z2Nat.id in Hs by done. by apply Hs.
Qed.

Lemma written_eq (base : list Z) (items items' : list stream_item)
    (d : list Z) (i i' : Z) :
  items = items' → i = i' →
  written base items (d, i) → written base items' (d, i').
Proof. by intros -> ->. Qed.

Lemma sectors_items_S (src : list Z) (t : Z) (fmt : dsk_sector_format)
    (s : Z) :
  0 ≤ s →
  sectors_items src t fmt (s + 1)
  = sectors_items src t fmt s ++ sector_items src t fmt s.
Proof.
  intros Hs. unfold sectors_items.
  replace (s + 1) with (Z.of_nat (S (Z.to_nat s))) by lia.
  rewrite seqZ_S, map_app, concat_app. simpl.
  rewrite app_nil_r. by rewrite Z2Nat.id by lia.
Qed.

Lemma encode_sector_ref_bytes (src : list Z) :
  256 ≤ Z.of_nat (length src) → Forall is_byte src →
  Forall is_byte (encode_sector_ref src).
Proof.
  intros Hlen Hbytes. apply bytes_of_loads. intros j Hj.
  rewrite encode_sector_ref_length in Hj.
  rewrite encode_sector_ref_load by lia.
  eexists. split; [reflexivity|].
  pose proof (xor_chain_small src Hlen Hbytes 341 j ltac:(lia)) as Hx.
  change (2 ^ 6) with 64 in Hx.
  destruct (nibble_readable _ Hx) as (Hr & _). unfold is_byte. lia.
Qed.

Ltac byte_side :=
  first [ assumption
        | unfold is_byte, DOS_VOLUME_NUMBER; lia
        | apply (lxor_small _ _ 8); [lia| |];
          first [ assumption | unfold is_byte, DOS_VOLUME_NUMBER in *;
                               change (2 ^ 8) with 256; lia
                | apply (lxor_small _ _ 8); [lia| |];
                  unfold is_byte, DOS_VOLUME_NUMBER in *;
                  change (2 ^ 8) with 256; lia ] ].

Ltac emit_step :=
  match goal with
  | Hw : written ?base ?items (?d, ?i) |- context [step_byte ?v (?d, ?i)] =>
      let d' := fresh "d" in
      let Hw' := fresh "Hw" in
      let Hl := fresh "Hl" in
      pose proof (written_length _ _ _ _ Hw) as Hl;
      destruct (step_byte_written base items d i v Hw) as (d' & -> & Hw');
      [lia | lia | byte_side | ]; clear Hw Hl; mstep
  | Hw : written ?base ?items (?d, ?i) |- context [step_4_and_4 ?v (?d, ?i)] =>
      let d' := fresh "d" in
      let Hw' := fresh "Hw" in
      let Hl := fresh "Hl" in
      pose proof (written_length _ _ _ _ Hw) as Hl;
      destruct (step_4_and_4_written base items d i v Hw) as (d' & -> & Hw');
      [lia | lia | byte_side | ]; clear Hw Hl; mstep
  | Hw : written ?base ?items (?d, ?i) |- context [step_syncs ?n (?d, ?i)] =>
      let d' := fresh "d" in
      let Hw' := fresh "Hw" in
      let Hl := fresh "Hl" in
      pose proof (written_length _ _ _ _ Hw) as Hl;
      destruct (step_syncs_written_Z base items d i n Hw) as (d' & -> & Hw');
      [lia | lia | lia | ]; clear Hw Hl; mstep
  end.

Section TrackStream.

Variable uninit : nat → list Z.
Hypothesis uninit_length : ∀ n, length (uninit n) = n.

Lemma encode_bits_for_track_written (dest src : list Z) (track_number : Z)
    (sector_format : dsk_sector_format) :
  6656 ≤ Z.of_nat (length dest) →
  4096 ≤ Z.of_nat (length src) →
  Forall is_byte src →
  is_byte track_number →
  ∃ base dest',
    memset dest 0 BITS_TRACK_SIZE = Some base
    ∧ encode_bits_for_track uninit dest src track_number sector_format
      = Some (dest', 50632)
    ∧ written base (track_items src track_number sector_format)
        (dest', 50632).
Proof.
  intros Hdest Hsrc Hbytes Htrack. unfold encode_bits_for_track.
  destruct (memset_run dest 0 BITS_TRACK_SIZE) as (base & Hms & Hl0 & _);
    [unfold BITS_TRACK_SIZE, BITS_BLOCKS_PER_TRACK, BITS_BLOCK_SIZE; lia|].
  exists base. rewrite Hms. mstep.
  unfold TRACK_LEADER_SYNC_COUNT, SECTORS_PER_TRACK.
  pose proof (written_start base) as Hw.
  emit_step. change (Z.to_nat 64) with 64%nat in *. simpl app in *.
  match goal with |- context [for_range 0 16 ?body ?s0] =>
    destruct (for_range_inv
      (λ s '(d, idx),
         idx = 640 + 3134 * s - (if s =? 16 then 152 else 0)
         ∧ written base
             (replicate 64 Sync
              ++ sectors_items src track_number sector_format s) (d, idx))
      body 0 16 s0) as ([dend idx] & Hrun & -> & Hwend)
  end.
  - lia.
  - split; [simpl; lia|]. unfold sectors_items. simpl concat.
    by rewrite app_nil_r.
  - intros s [dcur idx] Hs [-> Hwcur].
    destruct (Z.eqb_spec s 16) as [|_]; [lia|].
    assert (is_byte s) as Hsb by (unfold is_byte; lia).
    do 14 emit_step.
    pose proof (physical_logical sector_format s ltac:(lia)) as [Hlog _].
    set (sector := ptr_add src
                     (logical_sector sector_format s * BYTES_PER_SECTOR)) in *.
    assert (256 ≤ Z.of_nat (length sector)) as Hsl
      by (unfold sector; rewrite ptr_add_length; unfold BYTES_PER_SECTOR; lia).
    assert (Forall is_byte sector) as Hsbytes by (by apply ptr_add_bytes).
    rewrite (encode_6_and_2_run sector Hsl Hsbytes)
      by (by rewrite uninit_length).
    mstep.
    replace BITS_SECTOR_CONTENTS_SIZE
      with (Z.of_nat (length (encode_sector_ref sector)))
      by (by rewrite encode_sector_ref_length).
    match goal with
    | Hw : written base ?items (?d, ?i) |- _ =>
        pose proof (written_length _ _ _ _ Hw) as Hld;
        destruct (write_nibbles_written base items
                    (encode_sector_ref sector) d i Hw)
          as (dd & -> & Hwdd);
        [by apply encode_sector_ref_bytes | lia
        | rewrite encode_sector_ref_length; lia | ];
        clear Hw Hld
    end.
    mstep. rewrite encode_sector_ref_length in Hwdd |- *.
    do 3 emit_step.
    destruct (Z.ltb_spec s (16 - 1)).
    + emit_step. eexists (_, _). split; [reflexivity|].
      split; [destruct (Z.eqb_spec (s + 1) 16); lia|].
      rewrite sectors_items_S by lia.
      eapply written_eq; [| |eassumption]; [|reflexivity].
      unfold sector_items, four_and_four_items, SECTORS_PER_TRACK.
      fold sector.
      destruct (Z.ltb_spec s (16 - 1)); [|lia].
      change (Z.to_nat 7) with 7%nat. change (Z.to_nat 16) with 16%nat.
      rewrite <- !app_assoc. reflexivity.
    + emit_step. eexists (_, _). split; [reflexivity|].
      split; [destruct (Z.eqb_spec (s + 1) 16); lia|].
      rewrite sectors_items_S by lia.
      eapply written_eq; [| |eassumption]; [|reflexivity].
      unfold sector_items, four_and_four_items, SECTORS_PER_TRACK.
      fold sector.
      destruct (Z.ltb_spec s (16 - 1)); [lia|].
      change (Z.to_nat 7) with 7%nat.
      rewrite <- !app_assoc. reflexivity.
  - exists dend. rewrite Hrun. split; [reflexivity|].
    split; [reflexivity|]. exact Hwend.
Qed.

End TrackStream.

(** ** What a track buffer holds *)

Lemma memset_frame (dest dest' : list Z) (c n : Z) :
  memset dest c n = Some dest' →
  ∀ j, n ≤ j → load dest' j = load dest j.
Proof.
  unfold memset.
  destruct (Z.leb_spec 0 n); [|done].
  destruct (Z.leb_spec n (Z.of_nat (length dest))); [|done].
  intros [= <-] j Hj. rewrite !load_lookup by lia.
  rewrite lookup_app_r by (rewrite length_replicate; lia).
  rewrite length_replicate, lookup_drop. f_equal. lia.
Qed.

Lemma buf_bit_zero_byte (d : list Z) (p : Z) :
  load d (p / 8) = Some 0 → buf_bit d p = false.
Proof. intros Hl. rewrite (buf_bit_load d p 0 Hl). apply Z.bits_0. Qed.

Lemma buf_bit_outside (d : list Z) (p : Z) :
  p < 0 ∨ 8 * Z.of_nat (length d) ≤ p → buf_bit d p = false.
Proof.
  intros Hp. unfold buf_bit. rewrite shiftr3_div.
  destruct (load d (p / 8)) as [b|] eqn:Hb; [|done].
  apply load_bound in Hb. lia.
Qed.

Lemma byte_eq_of_bits (a b : Z) :
  is_byte a → is_byte b →
  (∀ k, 0 ≤ k < 8 → Z.testbit a k = Z.testbit b k) → a = b.
Proof.
  intros Ha Hb Hbits. apply Z.bits_inj'. intros k Hk.
  destruct (decide (k < 8)); [apply Hbits; lia|].
  by rewrite !byte_testbit_high by (done || lia).
Qed.

Lemma load_eq_of_bits (d1 d2 : list Z) (j : Z) :
  length d1 = length d2 →
  Forall is_byte d1 → Forall is_byte d2 →
  (∀ p, 8 * j ≤ p < 8 * j + 8 → buf_bit d1 p = buf_bit d2 p) →
  load d1 j = load d2 j.
Proof.
  intros Hlen H1 H2 Hbits.
  destruct (decide (0 ≤ j < Z.of_nat (length d1))) as [Hj|Hj].
  - destruct (load_Some d1 j Hj) as [a Ha].
    destruct (load_Some d2 j ltac:(lia)) as [b Hb].
    rewrite Ha, Hb. f_equal.
    apply byte_eq_of_bits;
      [exact (load_byte d1 j a H1 Ha)|exact (load_byte d2 j b H2 Hb)|].
    intros k Hk. specialize (Hbits (8 * j + (7 - k)) ltac:(lia)).
    rewrite (buf_bit_load d1 _ a), (buf_bit_load d2 _ b) in Hbits
      by (by replace ((8 * j + (7 - k)) / 8) with j by lia).
    replace (7 - (8 * j + (7 - k)) mod 8) with k in Hbits by lia. done.
  - destruct (load d1 j) as [a|] eqn:Ha; [apply load_bound in Ha; lia|].
    destruct (load d2 j) as [b|] eqn:Hb; [apply load_bound in Hb; lia|done].
Qed.

Lemma stream_len_sector (src : list Z) (t : Z) (fmt : dsk_sector_format)
    (s : Z) :
  stream_len (sector_items src t fmt s)
  = if s <? 15 then 3134 else 2982.
Proof.
  unfold sector_items, four_and_four_items, SECTORS_PER_TRACK.
  rewrite !stream_len_app, stream_len_nibbles, encode_sector_ref_length.
  change (16 - 1) with 15.
  destruct (s <? 15); rewrite ?stream_len_syncs; simpl; lia.
Qed.

Lemma stream_len_sectors (src : list Z) (t : Z) (fmt : dsk_sector_format)
    (n : nat) :
  (n ≤ 15)%nat →
  stream_len (sectors_items src t fmt (Z.of_nat n)) = 3134 * Z.of_nat n.
Proof.
  induction n as [|n IH]; intros Hn; [done|].
  replace (Z.of_nat (S n)) with (Z.of_nat n + 1) by lia.
  rewrite sectors_items_S, stream_len_app, IH, stream_len_sector by lia.
  destruct (Z.ltb_spec (Z.of_nat n) 15); lia.
Qed.

Lemma stream_len_track (src : list Z) (t : Z) (fmt : dsk_sector_format) :
  stream_len (track_items src t fmt) = 50632.
Proof.
  unfold track_items, SECTORS_PER_TRACK.
  change 16 with (Z.of_nat 15 + 1).
  rewrite sectors_items_S, !stream_len_app, stream_len_syncs by lia.
  rewrite stream_len_sectors, stream_len_sector by lia. reflexivity.
Qed.

Section TrackContent.

Variable uninit : nat → list Z.
Hypothesis uninit_length : ∀ n, length (uninit n) = n.

Lemma encode_bits_for_track_bits (dest src : list Z) (track_number : Z)
    (sector_format : dsk_sector_format) :
  6656 ≤ Z.of_nat (length dest) →
  4096 ≤ Z.of_nat (length src) →
  Forall is_byte src →
  Forall is_byte dest →
  is_byte track_number →
  ∃ dest',
    encode_bits_for_track uninit dest src track_number sector_format
    = Some (dest', 50632)
    ∧ length dest' = length dest
    ∧ Forall is_byte dest'
    ∧ (∀ p, 0 ≤ p < 53248 →
         buf_bit dest' p
         = stream_bit 0 (track_items src track_number sector_format) p)
    ∧ (∀ j, 6656 ≤ j → load dest' j = load dest j).
Proof.
  intros Hdest Hsrc Hbytes Hdbytes Htrack.
  destruct (encode_bits_for_track_written uninit uninit_length dest src
              track_number sector_format Hdest Hsrc Hbytes Htrack)
    as (base & dest' & Hms & Hrun & Hlen & Hl & Hb & Hbits).
  cbn [fst snd] in Hl, Hb, Hbits.
  destruct (memset_run dest 0 BITS_TRACK_SIZE) as (base' & Hms' & Hl0 & Hb0 & Hz);
    [unfold BITS_TRACK_SIZE, BITS_BLOCKS_PER_TRACK, BITS_BLOCK_SIZE; lia|].
  assert (base' = base) as -> by congruence.
  change BITS_TRACK_SIZE with 6656 in *.
  exists dest'. split; [exact Hrun|]. split; [lia|].
  split; [auto|]. split.
  - intros p Hp. rewrite Hbits.
    rewrite (buf_bit_zero_byte base p) by (apply Hz; lia). done.
  - intros j Hj. rewrite <- (memset_frame dest base 0 6656 Hms j Hj).
    apply load_eq_of_bits; [lia|auto|auto|].
    intros p Hp. rewrite Hbits.
    rewrite stream_bit_beyond; [by rewrite orb_false_r|].
    rewrite stream_len_track. lia.
Qed.

End TrackContent.

(** X10. The buffer filled by [encode_bits_for_track] is, bit for bit, the
    track's stream laid from bit 0: 64 sync words, then for each physical
    sector 0..15 the address field D5 AA 96, volume, track, sector and
    checksum in 4-and-4, DE AA EB, seven sync words, the data field D5 AA AD
    with the 343 encoded bytes of the logical sector, DE AA EB, and sixteen
    sync words or, after sector 15, the byte FF; the stream is 50,632 bits
    long and every later bit of the 6,656-byte buffer is zero. *)
Theorem encode_bits_for_track_stream (uninit : nat → list Z)
    (dest src : list Z) (track_number : Z) (sector_format : dsk_sector_format) :
  (∀ n, length (uninit n) = n) →
  Z.of_nat (length dest) = BITS_TRACK_SIZE →
  Z.of_nat (length src) = BYTES_PER_TRACK →
  Forall is_byte src →
  Forall is_byte dest →
  0 ≤ track_number < TRACKS_PER_DISK →
  ∃ dest',
    encode_bits_for_track uninit dest src track_number sector_format
    = Some (dest', 50632)
    ∧ stream_len (track_items src track_number sector_format) = 50632
    ∧ (∀ p, 0 ≤ p < 8 * BITS_TRACK_SIZE →
         buf_bit dest' p
         = stream_bit 0 (track_items src track_number sector_format) p)
    ∧ (∀ p, 50632 ≤ p → buf_bit dest' p = false)
    ∧ (∀ j, 6329 ≤ j < BITS_TRACK_SIZE → load dest' j = Some 0).
Proof.
  change BITS_TRACK_SIZE with 6656. change BYTES_PER_TRACK with 4096.
  unfold TRACKS_PER_DISK.
  intros Hul Hdest Hsrc Hbytes Hdbytes Htrack.
  destruct (encode_bits_for_track_bits uninit Hul dest src track_number
              sector_format) as (dest' & Hrun & Hl & Hb & Hbits & _);
    [lia|lia|done|done|unfold is_byte; lia|].
  exists dest'. split; [exact Hrun|].
  split; [apply stream_len_track|]. split; [exact Hbits|].
  assert (∀ p, 50632 ≤ p → buf_bit dest' p = false) as Hpad.
  { intros p Hp. destruct (decide (p < 53248)).
    - rewrite Hbits by lia. apply stream_bit_beyond.
      rewrite stream_len_track. lia.
    - apply buf_bit_outside. lia. }
  split; [exact Hpad|].
  intros j Hj. rewrite <- (replicate_load (length dest') 0 j) by lia.
  apply load_eq_of_bits.
  - by rewrite length_replicate.
  - done.
  - apply Forall_replicate. unfold is_byte. lia.
  - intros p Hp. rewrite Hpad by lia. symmetry.
    apply buf_bit_zero_byte. apply replicate_load. lia.
Qed.

Lemma encode_bits_for_track_stream_witness :
  ∃ dest',
    encode_bits_for_track (λ n, replicate n 0)
      (replicate (Z.to_nat BITS_TRACK_SIZE) 1)
      (replicate (Z.to_nat BYTES_PER_TRACK) 0xA5) 17 dsk_sector_format_dos_3_3
    = Some (dest', 50632)
    ∧ load dest' 6329 = Some 0.
Proof.
  destruct (encode_bits_for_track_stream (λ n, replicate n 0)
              (replicate (Z.to_nat BITS_TRACK_SIZE) 1)
              (replicate (Z.to_nat BYTES_PER_TRACK) 0xA5) 17
              dsk_sector_format_dos_3_3)
    as (dest' & Hrun & _ & _ & _ & Hz).
  - intros n. apply length_replicate.
  - rewrite length_replicate. apply Z2Nat.id. by vm_compute.
  - rewrite length_replicate. apply Z2Nat.id. by vm_compute.
  - apply Forall_replicate. unfold is_byte. lia.
  - apply Forall_replicate. unfold is_byte. lia.
  - unfold TRACKS_PER_DISK. lia.
  - exists dest'. split; [exact Hrun|]. apply Hz.
    unfold BITS_TRACK_SIZE, BITS_BLOCKS_PER_TRACK, BITS_BLOCK_SIZE. lia.
Defined.

(** X11. [encode_bits_for_track] writes only inside the 6,656-byte track
    buffer that its pointer designates, and what it leaves there does not
    depend on what the buffer or the local array held before: run on a
    larger array it leaves every byte from offset 6,656 on as it was, and
    two runs on the same sectors, track number and format give the same
    first 6,656 bytes. *)
Theorem encode_bits_for_track_local (uninit1 uninit2 : nat → list Z)
    (dest1 dest2 src : list Z) (track_number : Z)
    (sector_format : dsk_sector_format) :
  (∀ n, length (uninit1 n) = n) →
  (∀ n, length (uninit2 n) = n) →
  BITS_TRACK_SIZE ≤ Z.of_nat (length dest1) →
  BITS_TRACK_SIZE ≤ Z.of_nat (length dest2) →
  Forall is_byte dest1 →
  Forall is_byte dest2 →
  BYTES_PER_TRACK ≤ Z.of_nat (length src) →
  Forall is_byte src →
  0 ≤ track_number < TRACKS_PER_DISK →
  ∃ out1 out2 n,
    encode_bits_for_track uninit1 dest1 src track_number sector_format
    = Some (out1, n)
    ∧ encode_bits_for_track uninit2 dest2 src track_number sector_format
      = Some (out2, n)
    ∧ (∀ j, BITS_TRACK_SIZE ≤ j → load out1 j = load dest1 j)
    ∧ (∀ j, BITS_TRACK_SIZE ≤ j → load out2 j = load dest2 j)
    ∧ take (Z.to_nat BITS_TRACK_SIZE) out1
      = take (Z.to_nat BITS_TRACK_SIZE) out2.
Proof.
  change BITS_TRACK_SIZE with 6656. change BYTES_PER_TRACK with 4096.
  unfold TRACKS_PER_DISK.
  intros Hu1 Hu2 Hd1 Hd2 Hb1 Hb2 Hsrc Hbytes Htrack.
  destruct (encode_bits_for_track_bits uninit1 Hu1 dest1 src track_number
              sector_format) as (o1 & Hr1 & Hl1 & Hob1 & Hbits1 & Hf1);
    [lia|lia|done|done|unfold is_byte; lia|].
  destruct (encode_bits_for_track_bits uninit2 Hu2 dest2 src track_number
              sector_format) as (o2 & Hr2 & Hl2 & Hob2 & Hbits2 & Hf2);
    [lia|lia|done|done|unfold is_byte; lia|].
  exists o1, o2, 50632. split; [exact Hr1|]. split; [exact Hr2|].
  split; [exact Hf1|]. split; [exact Hf2|].
  apply list_eq. intros i.
  destruct (decide (i < Z.to_nat 6656)%nat) as [Hi|Hi].
  - rewrite !lookup_take_lt by done. rewrite <- !load_nat.
    assert (Forall is_byte (take (Z.to_nat 6656) o1)) as Ht1
      by (by apply Forall_take).
    assert (Forall is_byte (take (Z.to_nat 6656) o2)) as Ht2
      by (by apply Forall_take).
    assert (∀ o p, 6656 ≤ Z.of_nat (length o) → 0 ≤ p < 53248 →
              buf_bit (take (Z.to_nat 6656) o) p = buf_bit o p) as Htake.
    { intros o p Ho Hp. apply buf_bit_eq.
      rewrite !load_lookup by lia. apply lookup_take_lt. lia. }
    transitivity (load (take (Z.to_nat 6656) o1) (Z.of_nat i));
      [rewrite !load_nat; by rewrite lookup_take_lt|].
    transitivity (load (take (Z.to_nat 6656) o2) (Z.of_nat i));
      [|rewrite !load_nat; by rewrite lookup_take_lt].
    apply load_eq_of_bits; [rewrite !length_take; lia|done|done|].
    intros p Hp. rewrite !Htake by lia. rewrite Hbits1, Hbits2 by lia. done.
  - rewrite !lookup_take_ge by lia. done.
Qed.

Lemma encode_bits_for_track_local_witness :
  ∃ out1 out2 n,
    encode_bits_for_track (λ n, replicate n 0)
      (replicate (Z.to_nat BITS_TRACK_SIZE) 1)
      (replicate (Z.to_nat BYTES_PER_TRACK) 0xA5) 17 dsk_sector_format_prodos
    = Some (out1, n)
    ∧ encode_bits_for_track (λ n, replicate n 9)
        (replicate (Z.to_nat BITS_TRACK_SIZE + 5) 2)
        (replicate (Z.to_nat BYTES_PER_TRACK) 0xA5) 17 dsk_sector_format_prodos
      = Some (out2, n)
    ∧ take (Z.to_nat BITS_TRACK_SIZE) out1
      = take (Z.to_nat BITS_TRACK_SIZE) out2.
Proof.
  destruct (encode_bits_for_track_local (λ n, replicate n 0)
              (λ n, replicate n 9)
              (replicate (Z.to_nat BITS_TRACK_SIZE) 1)
              (replicate (Z.to_nat BITS_TRACK_SIZE + 5) 2)
              (replicate (Z.to_nat BYTES_PER_TRACK) 0xA5) 17
              dsk_sector_format_prodos)
    as (o1 & o2 & n & Hr1 & Hr2 & _ & _ & Heq).
  - intros n. apply length_replicate.
  - intros n. apply length_replicate.
  - rewrite length_replicate, Z2Nat.id by (by vm_compute). lia.
  - rewrite length_replicate, Nat2Z.inj_add, Z2Nat.id by (by vm_compute). lia.
  - apply Forall_replicate. unfold is_byte. lia.
  - apply Forall_replicate. unfold is_byte. lia.
  - rewrite length_replicate, Z2Nat.id by (by vm_compute). lia.
  - apply Forall_replicate. unfold is_byte. lia.
  - unfold TRACKS_PER_DISK. lia.
  - exists o1, o2, n. split; [exact Hr1|]. split; [exact Hr2|exact Heq].
Defined.

(** ** Reading the fields of a sector back *)

Lemma stream_bit_item (pre post : list stream_item) (it : stream_item)
    (q : Z) :
  0 ≤ q < item_len it →
  stream_bit 0 (pre ++ it :: post) (stream_len pre + q)
  = (q <? 8) && Z.testbit (item_value it) (7 - q).
Proof.
  intros Hq. rewrite stream_bit_app.
  rewrite stream_bit_beyond by lia.
  cbn [stream_bit orb]. pose proof (stream_len_nonneg pre).
  rewrite stream_bit_before by lia. rewrite orb_false_r.
  replace (0 + stream_len pre + 7 - (stream_len pre + q)) with (7 - q) by lia.
  destruct (Z.leb_spec (0 + stream_len pre) (stream_len pre + q)); [|lia].
  destruct (Z.ltb_spec (stream_len pre + q) (0 + stream_len pre + 8));
    destruct (Z.ltb_spec q 8); try lia; done.
Qed.

Lemma seqZ_split (n s : Z) :
  0 ≤ s < n → seqZ 0 n = seqZ 0 s ++ s :: seqZ (s + 1) (n - s - 1).
Proof.
  intros Hs. replace n with (s + (1 + (n - s - 1))) at 1 by lia.
  rewrite seqZ_app by lia. f_equal.
  rewrite seqZ_app by lia. done.
Qed.

Lemma track_items_split (src : list Z) (t : Z) (fmt : dsk_sector_format)
    (s : Z) :
  0 ≤ s < 16 →
  ∃ post,
    track_items src t fmt
    = (replicate 64 Sync ++ sectors_items src t fmt s)
      ++ sector_items src t fmt s ++ post.
Proof.
  intros Hs. unfold track_items, sectors_items, SECTORS_PER_TRACK.
  rewrite (seqZ_split 16 s Hs), map_app, concat_app. simpl map. simpl concat.
  eexists. rewrite <- !app_assoc. reflexivity.
Qed.

Lemma sector_start (src : list Z) (t : Z) (fmt : dsk_sector_format) (s : Z) :
  0 ≤ s < 16 →
  stream_len (replicate 64 Sync ++ sectors_items src t fmt s)
  = 640 + 3134 * s.
Proof.
  intros Hs. rewrite stream_len_app, stream_len_syncs.
  replace s with (Z.of_nat (Z.to_nat s)) at 1 by lia.
  rewrite stream_len_sectors by lia. lia.
Qed.

Lemma byte_of_bits (a b : Z) :
  is_byte a → is_byte b →
  (∀ q, 0 ≤ q < 8 → Z.testbit a (7 - q) = Z.testbit b (7 - q)) → a = b.
Proof.
  intros Ha Hb Hbits. apply byte_eq_of_bits; [done|done|].
  intros k Hk. specialize (Hbits (7 - k) ltac:(lia)).
  by replace (7 - (7 - k)) with k in Hbits by lia.
Qed.

(** A buffer that holds the track's stream, read at an item of sector [s]. *)
Lemma track_bit_in_sector (d src : list Z) (t : Z) (fmt : dsk_sector_format)
    (s : Z) (pre post : list stream_item) (it : stream_item) (q : Z) :
  (∀ p, 0 ≤ p < 53248 → buf_bit d p = stream_bit 0 (track_items src t fmt) p) →
  0 ≤ s < 16 →
  sector_items src t fmt s = pre ++ it :: post →
  0 ≤ q < item_len it →
  buf_bit d (640 + 3134 * s + stream_len pre + q)
  = (q <? 8) && Z.testbit (item_value it) (7 - q).
Proof.
  intros Hbits Hs Hsplit Hq.
  destruct (track_items_split src t fmt s Hs) as [rest Hrest].
  pose proof (stream_len_sector src t fmt s) as Hlen.
  rewrite Hsplit, stream_len_app in Hlen. cbn [stream_len] in Hlen.
  pose proof (stream_len_nonneg pre). pose proof (stream_len_nonneg post).
  assert (640 + 3134 * s + stream_len pre + item_len it ≤ 50632) as Hfit
    by (destruct (Z.ltb_spec s 15); lia).
  rewrite Hbits by lia.
  rewrite Hrest, Hsplit.
  rewrite <- (app_assoc pre), <- app_comm_cons, app_assoc.
  rewrite <- (sector_start src t fmt s Hs), <- stream_len_app.
  by apply stream_bit_item.
Qed.

Lemma track_read_in_sector (d src : list Z) (t : Z) (fmt : dsk_sector_format)
    (s : Z) (pre post : list stream_item) (it : stream_item) :
  (∀ p, 0 ≤ p < 53248 → buf_bit d p = stream_bit 0 (track_items src t fmt) p) →
  0 ≤ s < 16 →
  sector_items src t fmt s = pre ++ it :: post →
  is_byte (item_value it) →
  bits_read_byte d (640 + 3134 * s + stream_len pre) = item_value it.
Proof.
  intros Hbits Hs Hsplit Hv.
  apply byte_of_bits; [apply bits_read_byte_byte|done|].
  intros q Hq. rewrite bits_read_byte_testbit by lia.
  replace (640 + 3134 * s + stream_len pre + 7 - (7 - q))
    with (640 + 3134 * s + stream_len pre + q) by lia.
  rewrite (track_bit_in_sector d src t fmt s pre post it q Hbits Hs Hsplit)
    by (destruct it; simpl; lia).
  destruct (Z.ltb_spec (7 - q) 8); [|lia].
  destruct (Z.ltb_spec q 8); [|lia]. done.
Qed.

(** The same with the item given by its position [k] in the sector. *)
Lemma track_read_item (d src : list Z) (t : Z) (fmt : dsk_sector_format)
    (s : Z) (k : nat) (it : stream_item) :
  (∀ p, 0 ≤ p < 53248 → buf_bit d p = stream_bit 0 (track_items src t fmt) p) →
  0 ≤ s < 16 →
  sector_items src t fmt s !! k = Some it →
  is_byte (item_value it) →
  bits_read_byte d
    (640 + 3134 * s + stream_len (take k (sector_items src t fmt s)))
  = item_value it.
Proof.
  intros Hbits Hs Hk Hv.
  apply (track_read_in_sector d src t fmt s _
           (drop (S k) (sector_items src t fmt s)) it Hbits Hs);
    [|done].
  symmetry. by apply take_drop_middle.
Qed.

Lemma four_and_four_byte (v : Z) :
  is_byte v →
  is_byte (Z.lor (Z.shiftr v 1) 170) ∧ is_byte (Z.lor v 170).
Proof.
  intros Hv. destruct (encode_4_and_4_decodes v Hv) as (_ & H1 & H2).
  unfold encode_4_and_4 in *. simpl in *. unfold is_byte. lia.
Qed.

Lemma four_and_four_decodes (v : Z) :
  is_byte v →
  decode_4_and_4 (Z.lor (Z.shiftr v 1) 170) (Z.lor v 170) = v.
Proof.
  intros Hv. by destruct (encode_4_and_4_decodes v Hv) as (H & _).
Qed.

Lemma address_checksum_byte (t s : Z) :
  is_byte t → 0 ≤ s < 16 →
  is_byte (Z.lxor (Z.lxor DOS_VOLUME_NUMBER t) s).
Proof.
  intros Ht Hs. apply (small_of_bits _ 8); [lia|]. intros k Hk.
  rewrite !Z.lxor_spec.
  rewrite (byte_testbit_high DOS_VOLUME_NUMBER), (byte_testbit_high t),
    (byte_testbit_high s); try done; unfold is_byte, DOS_VOLUME_NUMBER; lia.
Qed.

(** The encoder reads only the first 256 bytes that its pointer designates. *)
Lemma src_byte_take (src : list Z) (c : Z) :
  0 ≤ c < 256 → src_byte (take 256 src) c = src_byte src c.
Proof.
  intros Hc. unfold src_byte. rewrite !load_lookup by lia.
  rewrite lookup_take_lt by lia. done.
Qed.

Lemma pre_nibble_take (src : list Z) (i : Z) :
  0 ≤ i → pre_nibble (take 256 src) i = pre_nibble src i.
Proof.
  intros Hi. unfold pre_nibble, low_part, high_part.
  destruct (Z.ltb_spec i 84); [by rewrite !src_byte_take by lia|].
  destruct (Z.ltb_spec i 86); [by rewrite !src_byte_take by lia|].
  destruct (Z.ltb_spec i 342); by rewrite !src_byte_take by lia.
Qed.

Lemma encode_sector_ref_take (src : list Z) :
  encode_sector_ref (take 256 src) = encode_sector_ref src.
Proof.
  unfold encode_sector_ref, encode_sector_with.
  apply map_ext_in. intros i Hi. apply list_elem_of_In, elem_of_seqZ in Hi.
  f_equal. unfold xor_chain.
  destruct ((1 <=? i) && (i <=? 341)) eqn:Hc.
  - apply andb_prop in Hc as [H1 _]. apply Z.leb_le in H1.
    by rewrite !pre_nibble_take by lia.
  - by rewrite pre_nibble_take by lia.
Qed.

Lemma sector_items_data (src : list Z) (t : Z) (fmt : dsk_sector_format)
    (s : Z) :
  ∃ tl,
    sector_items src t fmt s
    = take 24 (sector_items src t fmt s)
      ++ map Nibble
           (encode_sector_ref
              (ptr_add src (logical_sector fmt s * BYTES_PER_SECTOR)))
      ++ tl
    ∧ stream_len (take 24 (sector_items src t fmt s)) = 206.
Proof. eexists. split; reflexivity. Qed.

Lemma track_bit_item (d src : list Z) (t : Z) (fmt : dsk_sector_format)
    (s : Z) (k : nat) (it : stream_item) (q : Z) :
  (∀ p, 0 ≤ p < 53248 → buf_bit d p = stream_bit 0 (track_items src t fmt) p) →
  0 ≤ s < 16 →
  sector_items src t fmt s !! k = Some it →
  0 ≤ q < item_len it →
  buf_bit d
    (640 + 3134 * s + stream_len (take k (sector_items src t fmt s)) + q)
  = (q <? 8) && Z.testbit (item_value it) (7 - q).
Proof.
  intros Hbits Hs Hk Hq.
  apply (track_bit_in_sector d src t fmt s _
           (drop (S k) (sector_items src t fmt s)) it q Hbits Hs);
    [|done].
  symmetry. by apply take_drop_middle.
Qed.

(** A sync word read from a buffer that holds the track's stream: eight one
    bits and two zero bits. *)
Lemma track_read_sync (d src : list Z) (t : Z) (fmt : dsk_sector_format)
    (s : Z) (k : nat) :
  (∀ p, 0 ≤ p < 53248 → buf_bit d p = stream_bit 0 (track_items src t fmt) p) →
  0 ≤ s < 16 →
  sector_items src t fmt s !! k = Some Sync →
  let o := 640 + 3134 * s + stream_len (take k (sector_items src t fmt s)) in
  bits_read_byte d o = 0xFF
  ∧ buf_bit d (o + 8) = false ∧ buf_bit d (o + 9) = false.
Proof.
  intros Hbits Hs Hk o. split; [|split].
  - apply (track_read_item d src t fmt s k Sync Hbits Hs Hk).
    unfold is_byte. simpl. lia.
  - apply (track_bit_item d src t fmt s k Sync 8 Hbits Hs Hk). simpl. lia.
  - apply (track_bit_item d src t fmt s k Sync 9 Hbits Hs Hk). simpl. lia.
Qed.

(** [read_item H k n]: the byte read at item [k] of sector [s], which starts
    [n] bits into the sector. *)
Ltac read_item Hbits Hs H k n :=
  match type of Hbits with
  | ∀ p, _ → buf_bit ?d p = stream_bit 0 (track_items ?src ?t ?fmt) p =>
      match type of Hs with
      | 0 ≤ ?s < 16 =>
          pose proof (track_read_item d src t fmt s k _ Hbits Hs eq_refl) as H;
          change (stream_len (take k (sector_items src t fmt s))) with n in H;
          cbn [item_value] in H
      end
  end.

Ltac read_sync Hbits Hs H k n :=
  match type of Hbits with
  | ∀ p, _ → buf_bit ?d p = stream_bit 0 (track_items ?src ?t ?fmt) p =>
      match type of Hs with
      | 0 ≤ ?s < 16 =>
          pose proof (track_read_sync d src t fmt s k Hbits Hs eq_refl) as H;
          change (stream_len (take k (sector_items src t fmt s))) with n in H;
          cbv zeta in H
      end
  end.

(** X12. The address field of every physical sector can be read back from
    the track buffer.  Sector [s] starts at bit [640 + 3134 * s]; there the
    buffer holds D5 AA 96, then four 4-and-4 pairs that decode to the volume
    254, the track number, the physical sector number and the exclusive-or of
    the three, then DE AA EB, then seven sync words of eight one bits and two
    zero bits each. *)
Theorem address_field_read_back (uninit : nat → list Z)
    (dest src : list Z) (track_number : Z) (sector_format : dsk_sector_format)
    (s : Z) :
  (∀ n, length (uninit n) = n) →
  Z.of_nat (length dest) = BITS_TRACK_SIZE →
  Z.of_nat (length src) = BYTES_PER_TRACK →
  Forall is_byte src →
  Forall is_byte dest →
  0 ≤ track_number < TRACKS_PER_DISK →
  0 ≤ s < SECTORS_PER_TRACK →
  ∃ dest',
    encode_bits_for_track uninit dest src track_number sector_format
    = Some (dest', 50632)
    ∧ let o := 640 + 3134 * s in
      let rd := bits_read_byte dest' in
      map rd [o; o + 8; o + 16] = [0xD5; 0xAA; 0x96]
      ∧ decode_4_and_4 (rd (o + 24)) (rd (o + 32)) = DOS_VOLUME_NUMBER
      ∧ decode_4_and_4 (rd (o + 40)) (rd (o + 48)) = track_number
      ∧ decode_4_and_4 (rd (o + 56)) (rd (o + 64)) = s
      ∧ decode_4_and_4 (rd (o + 72)) (rd (o + 80))
        = Z.lxor (Z.lxor DOS_VOLUME_NUMBER track_number) s
      ∧ map rd [o + 88; o + 96; o + 104] = [0xDE; 0xAA; 0xEB]
      ∧ ∀ k, 0 ≤ k < 7 →
          rd (o + 112 + 10 * k) = 0xFF
          ∧ buf_bit dest' (o + 112 + 10 * k + 8) = false
          ∧ buf_bit dest' (o + 112 + 10 * k + 9) = false.
Proof.
  change BITS_TRACK_SIZE with 6656. change BYTES_PER_TRACK with 4096.
  unfold TRACKS_PER_DISK, SECTORS_PER_TRACK.
  intros Hul Hdest Hsrc Hbytes Hdbytes Htrack Hs.
  destruct (encode_bits_for_track_bits uninit Hul dest src track_number
              sector_format) as (dest' & Hrun & _ & _ & Hbits & _);
    [lia|lia|done|done|unfold is_byte; lia|].
  exists dest'. split; [exact Hrun|]. clear Hrun.
  assert (is_byte track_number) as Ht by (unfold is_byte; lia).
  assert (is_byte s) as Hsb by (unfold is_byte; lia).
  assert (is_byte DOS_VOLUME_NUMBER) as Hv
    by (unfold is_byte, DOS_VOLUME_NUMBER; lia).
  pose proof (address_checksum_byte track_number s Ht Hs) as Hc.
  assert (∀ v, 0 ≤ v < 256 → is_byte v) as Hlit by (intros v Hv'; exact Hv').
  read_item Hbits Hs H0 0%nat 0.
  read_item Hbits Hs H1 1%nat 8.
  read_item Hbits Hs H2 2%nat 16.
  read_item Hbits Hs H3 3%nat 24.
  read_item Hbits Hs H4 4%nat 32.
  read_item Hbits Hs H5 5%nat 40.
  read_item Hbits Hs H6 6%nat 48.
  read_item Hbits Hs H7 7%nat 56.
  read_item Hbits Hs H8 8%nat 64.
  read_item Hbits Hs H9 9%nat 72.
  read_item Hbits Hs H10 10%nat 80.
  read_item Hbits Hs H11 11%nat 88.
  read_item Hbits Hs H12 12%nat 96.
  read_item Hbits Hs H13 13%nat 104.
  cbv zeta. cbn [map].
  rewrite Z.add_0_r in H0.
  rewrite H0, H1, H2, H11, H12, H13 by (apply Hlit; lia).
  destruct (four_and_four_byte _ Hv) as [Hv1 Hv2].
  destruct (four_and_four_byte _ Ht) as [Ht1 Ht2].
  destruct (four_and_four_byte _ Hsb) as [Hs1 Hs2].
  destruct (four_and_four_byte _ Hc) as [Hc1 Hc2].
  rewrite (H3 Hv1), (H4 Hv2), (H5 Ht1), (H6 Ht2), (H7 Hs1), (H8 Hs2),
    (H9 Hc1), (H10 Hc2).
  rewrite !four_and_four_decodes by done.
  do 6 (split; [reflexivity|]).
  intros k Hk.
  read_sync Hbits Hs S0 14%nat 112.
  read_sync Hbits Hs S1 15%nat 122.
  read_sync Hbits Hs S2 16%nat 132.
  read_sync Hbits Hs S3 17%nat 142.
  read_sync Hbits Hs S4 18%nat 152.
  read_sync Hbits Hs S5 19%nat 162.
  read_sync Hbits Hs S6 20%nat 172.
  assert (k = 0 ∨ k = 1 ∨ k = 2 ∨ k = 3 ∨ k = 4 ∨ k = 5 ∨ k = 6) as Hcase
    by lia.
  destruct Hcase as [->|[->|[->|[->|[->|[->| ->]]]]]].
  - replace (640 + 3134 * s + 112 + 10 * 0) with (640 + 3134 * s + 112) by lia.
    exact S0.
  - replace (640 + 3134 * s + 112 + 10 * 1) with (640 + 3134 * s + 122) by lia.
    exact S1.
  - replace (640 + 3134 * s + 112 + 10 * 2) with (640 + 3134 * s + 132) by lia.
    exact S2.
  - replace (640 + 3134 * s + 112 + 10 * 3) with (640 + 3134 * s + 142) by lia.
    exact S3.
  - replace (640 + 3134 * s + 112 + 10 * 4) with (640 + 3134 * s + 152) by lia.
    exact S4.
  - replace (640 + 3134 * s + 112 + 10 * 5) with (640 + 3134 * s + 162) by lia.
    exact S5.
  - replace (640 + 3134 * s + 112 + 10 * 6) with (640 + 3134 * s + 172) by lia.
    exact S6.
Qed.

Lemma address_field_read_back_witness :
  ∃ dest',
    encode_bits_for_track (λ n, replicate n 0)
      (replicate (Z.to_nat BITS_TRACK_SIZE) 0)
      (replicate (Z.to_nat BYTES_PER_TRACK) 0xE5) 17 dsk_sector_format_dos_3_3
    = Some (dest', 50632)
    ∧ decode_4_and_4 (bits_read_byte dest' (640 + 3134 * 5 + 56))
        (bits_read_byte dest' (640 + 3134 * 5 + 64)) = 5.
Proof.
  destruct (address_field_read_back (λ n, replicate n 0)
              (replicate (Z.to_nat BITS_TRACK_SIZE) 0)
              (replicate (Z.to_nat BYTES_PER_TRACK) 0xE5) 17
              dsk_sector_format_dos_3_3 5)
    as (dest' & Hrun & _ & _ & _ & Hsec & _).
  - intros n. apply length_replicate.
  - rewrite length_replicate. apply Z2Nat.id. by vm_compute.
  - rewrite length_replicate. apply Z2Nat.id. by vm_compute.
  - apply Forall_replicate. unfold is_byte. lia.
  - apply Forall_replicate. unfold is_byte. lia.
  - unfold TRACKS_PER_DISK. lia.
  - unfold SECTORS_PER_TRACK. lia.
  - exists dest'. split; [exact Hrun|exact Hsec].
Defined.

(** The 343 bytes of the data field of sector [s], read from a buffer that
    holds the track's stream, decode to the logical sector. *)
Lemma sector_data_decodes (d src : list Z) (t : Z) (fmt : dsk_sector_format)
    (s : Z) :
  (∀ p, 0 ≤ p < 53248 → buf_bit d p = stream_bit 0 (track_items src t fmt) p) →
  4096 ≤ Z.of_nat (length src) →
  Forall is_byte src →
  0 ≤ s < 16 →
  decode_6_and_2
    (map (λ i, bits_read_byte d (640 + 3134 * s + 182 + 24 + 8 * i))
       (seqZ 0 343))
  = Some (take 256 (ptr_add src (logical_sector fmt s * BYTES_PER_SECTOR))).
Proof.
  intros Hbits Hsrc Hbytes Hs.
  destruct (physical_logical fmt s Hs) as [Hl _].
  set (sector := ptr_add src (logical_sector fmt s * BYTES_PER_SECTOR)).
  assert (256 ≤ Z.of_nat (length sector)) as Hseclen.
  { unfold sector, BYTES_PER_SECTOR. rewrite ptr_add_length by lia. lia. }
  assert (Forall is_byte sector) as Hsecbytes by (by apply ptr_add_bytes).
  pose proof (encode_sector_ref_bytes sector Hseclen Hsecbytes) as Hencbytes.
  assert (encode_sector_ref sector
          = map (λ i, bits_read_byte d (640 + 3134 * s + 182 + 24 + 8 * i))
              (seqZ 0 343)) as <-.
  { apply list_of_loads; [by rewrite encode_sector_ref_length|].
    intros j Hj.
    destruct (load_Some (encode_sector_ref sector) j) as [v Hv];
      [rewrite encode_sector_ref_length; lia|].
    rewrite Hv. f_equal.
    destruct (sector_items_data src t fmt s) as (tl & Hsplit & Hhdr).
    fold sector in Hsplit.
    rewrite load_lookup in Hv by lia.
    rewrite <- (take_drop_middle _ _ _ Hv) in Hsplit.
    rewrite map_app, map_cons in Hsplit.
    rewrite <- app_assoc, <- app_comm_cons, app_assoc in Hsplit.
    pose proof (track_read_in_sector d src t fmt s _ _ _ Hbits Hs Hsplit)
      as Hread.
    rewrite stream_len_app, Hhdr, stream_len_nibbles, length_take in Hread.
    rewrite encode_sector_ref_length in Hread.
    cbn [item_value] in Hread.
    replace (640 + 3134 * s + (206 + 8 * Z.of_nat (Z.to_nat j `min` 343)))
      with (640 + 3134 * s + 182 + 24 + 8 * j) in Hread by lia.
    symmetry. apply Hread.
    apply (Forall_lookup_1 _ _ _ _ Hencbytes Hv). }
  rewrite <- encode_sector_ref_take.
  apply decode_encode_sector.
  - rewrite length_take. lia.
  - by apply Forall_take.
Qed.

(** X13. The data field of every physical sector can be read back from the
    track buffer and decodes to the logical sector that the interleave
    assigns to it.  At bit [640 + 3134 * s + 182] the buffer holds D5 AA AD,
    then 343 bytes from which [decode_6_and_2] recovers the 256 bytes of
    logical sector [logical_sector sector_format s] of the track, checksum
    included, then DE AA EB; after that follow sixteen sync words, or the
    single byte FF when [s] is 15. *)
Theorem data_field_read_back (uninit : nat → list Z)
    (dest src : list Z) (track_number : Z) (sector_format : dsk_sector_format)
    (s : Z) :
  (∀ n, length (uninit n) = n) →
  Z.of_nat (length dest) = BITS_TRACK_SIZE →
  Z.of_nat (length src) = BYTES_PER_TRACK →
  Forall is_byte src →
  Forall is_byte dest →
  0 ≤ track_number < TRACKS_PER_DISK →
  0 ≤ s < SECTORS_PER_TRACK →
  ∃ dest',
    encode_bits_for_track uninit dest src track_number sector_format
    = Some (dest', 50632)
    ∧ let o := 640 + 3134 * s + 182 in
      let rd := bits_read_byte dest' in
      map rd [o; o + 8; o + 16] = [0xD5; 0xAA; 0xAD]
      ∧ decode_6_and_2 (map (λ i, rd (o + 24 + 8 * i)) (seqZ 0 343))
        = Some (take (Z.to_nat BYTES_PER_SECTOR)
                  (ptr_add src
                     (logical_sector sector_format s * BYTES_PER_SECTOR)))
      ∧ map rd [o + 2768; o + 2776; o + 2784] = [0xDE; 0xAA; 0xEB]
      ∧ (s = 15 → rd (o + 2792) = 0xFF)
      ∧ (s < 15 → ∀ k, 0 ≤ k < 16 →
           rd (o + 2792 + 10 * k) = 0xFF
           ∧ buf_bit dest' (o + 2792 + 10 * k + 8) = false
           ∧ buf_bit dest' (o + 2792 + 10 * k + 9) = false).
Proof.
  change BITS_TRACK_SIZE with 6656. change BYTES_PER_TRACK with 4096.
  unfold TRACKS_PER_DISK, SECTORS_PER_TRACK.
  intros Hul Hdest Hsrc Hbytes Hdbytes Htrack Hs.
  destruct (encode_bits_for_track_bits uninit Hul dest src track_number
              sector_format) as (dest' & Hrun & _ & _ & Hbits & _);
    [lia|lia|done|done|unfold is_byte; lia|].
  exists dest'. split; [exact Hrun|]. clear Hrun.
  assert (∀ v, 0 ≤ v < 256 → is_byte v) as Hlit by (intros v Hv'; exact Hv').
  read_item Hbits Hs P0 21%nat 182.
  read_item Hbits Hs P1 22%nat 190.
  read_item Hbits Hs P2 23%nat 198.
  read_item Hbits Hs E0 367%nat 2950.
  read_item Hbits Hs E1 368%nat 2958.
  read_item Hbits Hs E2 369%nat 2966.
  cbv zeta. cbn [map].
  replace (640 + 3134 * s + 182 + 8) with (640 + 3134 * s + 190) by lia.
  replace (640 + 3134 * s + 182 + 16) with (640 + 3134 * s + 198) by lia.
  replace (640 + 3134 * s + 182 + 2768) with (640 + 3134 * s + 2950) by lia.
  replace (640 + 3134 * s + 182 + 2776) with (640 + 3134 * s + 2958) by lia.
  replace (640 + 3134 * s + 182 + 2784) with (640 + 3134 * s + 2966) by lia.
  rewrite P0, P1, P2, E0, E1, E2 by (apply Hlit; lia).
  split; [reflexivity|]. split; [|split; [reflexivity|]].
  - change (Z.to_nat BYTES_PER_SECTOR) with 256%nat.
    apply (sector_data_decodes dest' src track_number sector_format s);
      [exact Hbits|lia|done|done].
  - split.
    + intros ->.
      pose proof (track_read_item dest' src track_number sector_format 15
                    370%nat _ Hbits Hs eq_refl) as T0.
      change (stream_len (take 370 (sector_items src track_number
                                      sector_format 15))) with 2974 in T0.
      cbn [item_value] in T0.
      replace (640 + 3134 * 15 + 182 + 2792) with (640 + 3134 * 15 + 2974)
        by lia.
      apply T0. apply Hlit. lia.
    + intros Hlt k Hk.
      assert ((s <? 15) = true) as Hltb by (apply Z.ltb_lt; lia).
      assert (∀ j : nat, (j < 16)%nat →
                sector_items src track_number sector_format s !! (370 + j)%nat
                = Some Sync
                ∧ stream_len (take (370 + j)
                                (sector_items src track_number sector_format s))
                  = 2974 + 10 * Z.of_nat j) as Hsync.
      { intros j Hj. unfold sector_items, SECTORS_PER_TRACK.
        change (16 - 1) with 15. rewrite Hltb.
        do 16 (destruct j as [|j]; [split; reflexivity|]). lia. }
      destruct (Hsync (Z.to_nat k) ltac:(lia)) as [Hat Hoff].
      pose proof (track_read_sync dest' src track_number sector_format s
                    _ Hbits Hs Hat) as Hrd.
      cbv zeta in Hrd. rewrite Hoff in Hrd.
      replace (640 + 3134 * s + (2974 + 10 * Z.of_nat (Z.to_nat k)))
        with (640 + 3134 * s + 182 + 2792 + 10 * k) in Hrd by lia.
      exact Hrd.
Qed.

Lemma data_field_read_back_witness :
  ∃ dest',
    encode_bits_for_track (λ n, replicate n 0)
      (replicate (Z.to_nat BITS_TRACK_SIZE) 0)
      (replicate (Z.to_nat BYTES_PER_TRACK) 0xE5) 17 dsk_sector_format_dos_3_3
    = Some (dest', 50632)
    ∧ decode_6_and_2
        (map (λ i, bits_read_byte dest' (640 + 3134 * 5 + 182 + 24 + 8 * i))
           (seqZ 0 343))
      = Some (take (Z.to_nat BYTES_PER_SECTOR)
                (ptr_add (replicate (Z.to_nat BYTES_PER_TRACK) 0xE5)
                   (logical_sector dsk_sector_format_dos_3_3 5
                    * BYTES_PER_SECTOR))).
Proof.
  destruct (data_field_read_back (λ n, replicate n 0)
              (replicate (Z.to_nat BITS_TRACK_SIZE) 0)
              (replicate (Z.to_nat BYTES_PER_TRACK) 0xE5) 17
              dsk_sector_format_dos_3_3 5)
    as (dest' & Hrun & _ & Hdec & _).
  - intros n. apply length_replicate.
  - rewrite length_replicate. apply Z2Nat.id. by vm_compute.
  - rewrite length_replicate. apply Z2Nat.id. by vm_compute.
  - apply Forall_replicate. unfold is_byte. lia.
  - apply Forall_replicate. unfold is_byte. lia.
  - unfold TRACKS_PER_DISK. lia.
  - unfold SECTORS_PER_TRACK. lia.
  - exists dest'. split; [exact Hrun|exact Hdec].
Defined.

(** ** The tracks in the track data and in the file *)

Lemma buf_bit_loads (a b : list Z) (p q : Z) :
  load a (p / 8) = load b (q / 8) → p mod 8 = q mod 8 →
  buf_bit a p = buf_bit b q.
Proof.
  intros Hl Hm. unfold buf_bit. by rewrite !shiftr3_div, !land7_mod, Hl, Hm.
Qed.

Lemma buf_bit_ptr_add (a : list Z) (k p : Z) :
  0 ≤ k → 0 ≤ p → buf_bit (ptr_add a k) p = buf_bit a (8 * k + p).
Proof.
  intros Hk Hp. apply buf_bit_loads; [|lia].
  rewrite ptr_add_load by lia. f_equal. lia.
Qed.

Lemma bits_read_byte_ptr_add (a : list Z) (k o : Z) :
  0 ≤ k → 0 ≤ o →
  bits_read_byte (ptr_add a k) o = bits_read_byte a (8 * k + o).
Proof.
  intros Hk Ho. unfold bits_read_byte.
  rewrite !buf_bit_ptr_add by lia.
  by rewrite !Z.add_assoc.
Qed.

Lemma create_info_chunk_named :
  ∃ chunk, create_info_chunk = Some chunk
    ∧ name chunk = tag_INFO
    ∧ data_length chunk = 60
    ∧ Z.of_nat (length (data chunk)) = 60
    ∧ Forall is_byte (data chunk).
Proof.
  eexists. split; [by vm_compute|]. split; [done|]. split; [done|].
  split; [done|]. apply bytes_of_forallb. by vm_compute.
Qed.

Lemma create_tmap_chunk_named :
  ∃ chunk, create_tmap_chunk = Some chunk
    ∧ name chunk = tag_TMAP
    ∧ data_length chunk = 160
    ∧ Z.of_nat (length (data chunk)) = 160
    ∧ Forall is_byte (data chunk).
Proof.
  eexists. split; [by vm_compute|]. split; [done|]. split; [done|].
  split; [done|]. apply bytes_of_forallb. by vm_compute.
Qed.

Lemma chunk_at_frame (w w' : list Z) (off : Z) (c : woz_chunk) :
  0 ≤ data_length c →
  chunk_at w off c →
  (∀ j, off ≤ j < off + 8 + data_length c → load w' j = load w j) →
  chunk_at w' off c.
Proof.
  intros Hdl (Hbe & Hle & Hdata) Hsame.
  split; [|split].
  - unfold be32 in *. by rewrite !Hsame by lia.
  - unfold le32 in *. by rewrite !Hsame by lia.
  - intros k Hk. rewrite Hsame by lia. by apply Hdata.
Qed.

Lemma header_stores (w : list Z) :
  8 ≤ Z.of_nat (length w) →
  let w' := <[Z.to_nat 7 := 10]>
              (<[Z.to_nat 6 := 13]>
                 (<[Z.to_nat 5 := 10]> (<[Z.to_nat 4 := 255]> w))) in
  (∀ j, 0 ≤ j < 4 ∨ 8 ≤ j → load w' j = load w j)
  ∧ load w' 4 = Some 255 ∧ load w' 5 = Some 10
  ∧ load w' 6 = Some 13 ∧ load w' 7 = Some 10.
Proof.
  intros Hw w'. unfold w'. split; [|split; [|split; [|split]]].
  - intros j Hj.
    rewrite (load_store_ne _ 7 j), (load_store_ne _ 6 j),
      (load_store_ne _ 5 j), (load_store_ne _ 4 j) by lia. done.
  - rewrite (load_store_ne _ 7 4), (load_store_ne _ 6 4),
      (load_store_ne _ 5 4) by lia.
    apply load_store_eq. lia.
  - rewrite (load_store_ne _ 7 5), (load_store_ne _ 6 5) by lia.
    apply load_store_eq. rewrite !length_insert. lia.
  - rewrite (load_store_ne _ 7 6) by lia.
    apply load_store_eq. rewrite !length_insert. lia.
  - apply load_store_eq. rewrite !length_insert. lia.
Qed.

Section Tracks.

Variable uninit : nat → list Z.
Hypothesis uninit_length : ∀ n, length (uninit n) = n.
Hypothesis uninit_bytes : ∀ n, Forall is_byte (uninit n).

Lemma encode_tracks_content (dsk : list Z) (sector_format : dsk_sector_format) :
  Z.of_nat (length dsk) = DSK_IMAGE_SIZE →
  Forall is_byte dsk →
  ∃ track_data,
    encode_tracks uninit dsk sector_format = Some (track_data, 50632)
    ∧ Z.of_nat (length track_data) = 232960
    ∧ Forall is_byte track_data
    ∧ ∀ t, 0 ≤ t < 35 → ∀ p, 0 ≤ p < 53248 →
        buf_bit track_data (53248 * t + p)
        = stream_bit 0
            (track_items (ptr_add dsk (t * BYTES_PER_TRACK)) t sector_format) p.
Proof.
  unfold encode_tracks, DSK_IMAGE_SIZE, BYTES_PER_TRACK, SECTORS_PER_TRACK,
    BYTES_PER_SECTOR, BITS_TRACK_SIZE, BITS_BLOCKS_PER_TRACK, BITS_BLOCK_SIZE,
    TRACKS_PER_DISK.
  intros Hdsk Hbytes.
  match goal with |- context [for_range 0 35 ?body ?s0] =>
    destruct (for_range_inv
      (λ t '(td, vb),
         Z.of_nat (length td) = 232960 ∧ (0 < t → vb = 50632)
         ∧ Forall is_byte td
         ∧ ∀ t', 0 ≤ t' < t → ∀ p, 0 ≤ p < 53248 →
             buf_bit td (53248 * t' + p)
             = stream_bit 0
                 (track_items (ptr_add dsk (t' * (16 * 256))) t'
                    sector_format) p)
      body 0 35 s0) as ([td vb] & -> & Hl & Hvb & Hb & Hbits)
  end.
  - lia.
  - rewrite uninit_length. split; [lia|]. split; [lia|]. split; [done|].
    intros t' Ht'. lia.
  - intros t [td vb] Ht (Hl & _ & Hb & Hprev).
    destruct (encode_bits_for_track_bits uninit uninit_length
                (ptr_add td (t * (13 * 512))) (ptr_add dsk (t * (16 * 256)))
                t sector_format)
      as (dest' & -> & Hl' & Hb' & Hbits' & _).
    { rewrite ptr_add_length; lia. }
    { rewrite ptr_add_length; lia. }
    { by apply ptr_add_bytes. }
    { by apply ptr_add_bytes. }
    { unfold is_byte. lia. }
    mstep. eexists (_, _). split; [done|].
    pose proof (ptr_add_length td (t * (13 * 512)) ltac:(lia)) as Hrest.
    assert (length (take (Z.to_nat (t * (13 * 512))) td)
            = Z.to_nat (t * (13 * 512))) as Htake
      by (rewrite length_take; lia).
    split; [|split; [done|split]].
    + rewrite length_app, Htake, Hl'. lia.
    + apply Forall_app. split; [by apply Forall_take|done].
    + intros t' Ht' p Hp.
      destruct (decide (t' = t)) as [->|Hne].
      * rewrite <- Hbits' by lia.
        apply buf_bit_loads; [|lia].
        rewrite !load_lookup by lia.
        rewrite lookup_app_r by lia. f_equal. lia.
      * rewrite <- Hprev by lia.
        apply buf_bit_loads; [|lia].
        rewrite !load_lookup by lia.
        rewrite lookup_app_l by lia.
        apply lookup_take_lt. lia.
  - exists td. split; [f_equal; f_equal; lia|]. split; [lia|].
    split; [done|]. exact Hbits.
Qed.

Lemma main_layout (dsk : list Z) (sector_format : dsk_sector_format) :
  Z.of_nat (length dsk) = DSK_IMAGE_SIZE →
  Forall is_byte dsk →
  ∃ track_data info tmap trks writ woz,
    encode_tracks uninit dsk sector_format = Some (track_data, 50632)
    ∧ create_info_chunk = Some info
    ∧ create_tmap_chunk = Some tmap
    ∧ create_trks_chunk track_data 50632 = Some trks
    ∧ create_writ_chunk track_data 50632 = Some writ
    ∧ main uninit dsk sector_format = Some woz
    ∧ Z.of_nat (length woz) = 235204
    ∧ Forall is_byte woz
    ∧ be32 woz 0 = Some tag_WOZ2
    ∧ load woz 4 = Some 0xFF ∧ load woz 5 = Some 10
    ∧ load woz 6 = Some 13 ∧ load woz 7 = Some 10
    ∧ le32 woz 8 = Some (crc32_reference (ptr_add woz 12))
    ∧ chunk_at woz 12 info ∧ chunk_at woz 80 tmap
    ∧ chunk_at woz 248 trks ∧ chunk_at woz 234496 writ.
Proof.
  intros Hdsk Hbytes. unfold main.
  destruct (encode_tracks_content dsk sector_format Hdsk Hbytes)
    as (td & Henc & Htd & Htdb & _).
  rewrite Henc. mstep. change (to_uint32 50632) with 50632.
  destruct create_info_chunk_named as (info & Hinfo & Hi0 & Hi1 & Hi2 & Hi3).
  destruct create_tmap_chunk_named as (tmap & Htmap & Ht0 & Ht1 & Ht2 & Ht3).
  destruct (create_trks_chunk_run td 50632 ltac:(lia))
    as (trks & Htrks & Hk0 & Hk1 & Hk2 & _).
  destruct (create_trks_chunk_bytes td 50632 Htd Htdb)
    as (trks' & Htrks' & _ & _ & Hk3).
  assert (trks' = trks) as -> by congruence. clear Htrks'.
  destruct (create_writ_chunk_run td 50632 Htd Htdb ltac:(lia))
    as (writ & Hwrit & Hw0 & Hw1 & Hw2 & _).
  destruct (create_writ_chunk_bytes td 50632 Htd Htdb ltac:(lia))
    as (writ' & Hwrit' & _ & _ & Hw3).
  assert (writ' = writ) as -> by congruence. clear Hwrit'.
  exists td, info, tmap, trks, writ.
  rewrite Hinfo, Htmap, Htrks, Hwrit.
  mstep. unfold total_chunk_size, WOZ_HEADER_SIZE.
  rewrite Hi1, Ht1, Hk1, Hw1.
  change (12 + (4 + 4 + 60) + (4 + 4 + 160) + (4 + 4 + 234240)
          + (4 + 4 + 700)) with 235204.
  pose proof (uninit_length (Z.to_nat 235204)) as Hl0.
  pose proof (uninit_bytes (Z.to_nat 235204)) as Hb0.
  set (woz0 := uninit (Z.to_nat 235204)) in *.
  destruct (write_uint32_be_run woz0 0 tag_WOZ2) as (w1 & Hw1eq & Hl1 & Hb1);
    [lia..|].
  destruct (write_uint32_be_spec woz0 0 tag_WOZ2)
    as (w1' & _ & Hw1eq' & _ & _ & Hbe1 & _ & _); [lia..|].
  assert (w1' = w1) as -> by congruence. clear Hw1eq'.
  change (tag_WOZ2 mod 4294967296) with tag_WOZ2 in Hbe1.
  rewrite Hw1eq. mstep.
  rewrite store_Some by lia. mstep.
  rewrite store_Some by (rewrite !length_insert; lia). mstep.
  rewrite store_Some by (rewrite !length_insert; lia). mstep.
  rewrite store_Some by (rewrite !length_insert; lia). mstep.
  set (w2 := <[Z.to_nat 7 := 10]> _).
  assert (length w2 = length woz0) as Hl2
    by (unfold w2; rewrite !length_insert; lia).
  assert (Forall is_byte w2) as Hb2
    by (unfold w2; repeat apply Forall_insert; auto; unfold is_byte; lia).
  destruct (header_stores w1 ltac:(lia)) as (Hkeep & Hh4 & Hh5 & Hh6 & Hh7).
  fold w2 in Hkeep, Hh4, Hh5, Hh6, Hh7.
  assert (be32 w2 0 = Some tag_WOZ2) as Hh0.
  { unfold be32 in *. rewrite !Hkeep by lia. exact Hbe1. }
  clearbody w2.
  assert (0 ≤ tag_INFO < 4294967296 ∧ 0 ≤ tag_TMAP < 4294967296
          ∧ 0 ≤ tag_TRKS < 4294967296 ∧ 0 ≤ tag_WRIT < 4294967296)
    as (HnI & HnT & HnK & HnW)
    by (unfold tag_INFO, tag_TMAP, tag_TRKS, tag_WRIT; lia).
  destruct (write_chunk_run w2 12 info) as (w3 & Hc3 & Hl3 & Hb3); [lia..|].
  destruct (write_chunk_spec w2 12 info)
    as (w3' & Hc3' & _ & Hbe3 & Hle3 & Hd3 & Hf3);
    [unfold total_chunk_size; lia..|].
  unfold total_chunk_size in Hc3', Hf3. rewrite Hi1 in Hc3, Hc3', Hf3.
  assert (w3' = w3) as -> by congruence. clear Hc3'.
  rewrite Hc3. mstep.
  destruct (write_chunk_run w3 (12 + (8 + 60)) tmap)
    as (w4 & Hc4 & Hl4 & Hb4); [lia..|].
  destruct (write_chunk_spec w3 (12 + (8 + 60)) tmap)
    as (w4' & Hc4' & _ & Hbe4 & Hle4 & Hd4 & Hf4);
    [unfold total_chunk_size; lia..|].
  unfold total_chunk_size in Hc4', Hf4. rewrite Ht1 in Hc4, Hc4', Hf4.
  assert (w4' = w4) as -> by congruence. clear Hc4'.
  rewrite Hc4. mstep.
  destruct (write_chunk_run w4 (12 + (8 + 60) + (8 + 160)) trks)
    as (w5 & Hc5 & Hl5 & Hb5); [lia..|].
  destruct (write_chunk_spec w4 (12 + (8 + 60) + (8 + 160)) trks)
    as (w5' & Hc5' & _ & Hbe5 & Hle5 & Hd5 & Hf5);
    [unfold total_chunk_size; lia..|].
  unfold total_chunk_size in Hc5', Hf5. rewrite Hk1 in Hc5, Hc5', Hf5.
  assert (w5' = w5) as -> by congruence. clear Hc5'.
  rewrite Hc5. mstep.
  destruct (write_chunk_run w5 (12 + (8 + 60) + (8 + 160) + (8 + 234240)) writ)
    as (w6 & Hc6 & Hl6 & Hb6); [lia..|].
  destruct (write_chunk_spec w5 (12 + (8 + 60) + (8 + 160) + (8 + 234240)) writ)
    as (w6' & Hc6' & _ & Hbe6 & Hle6 & Hd6 & Hf6);
    [unfold total_chunk_size; lia..|].
  unfold total_chunk_size in Hc6', Hf6. rewrite Hw1 in Hc6, Hc6', Hf6.
  assert (w6' = w6) as -> by congruence. clear Hc6'.
  rewrite Hc6. mstep.
  assert (Forall is_byte w6) as Hbw by auto.
  change (235204 - 12) with 235192.
  pose proof (ptr_add_length w6 12 ltac:(lia)) as Hpl.
  assert (take (Z.to_nat 235192) (ptr_add w6 12) = ptr_add w6 12) as Htk
    by (apply take_ge; lia).
  destruct (crc32_run (ptr_add w6 12) 235192) as [Hcrc Hrange];
    [lia|by apply ptr_add_bytes|].
  rewrite Htk in Hcrc, Hrange. change (2 ^ 32) with 4294967296 in Hrange.
  rewrite Hcrc. mstep.
  destruct (write_uint32_run w6 8 (crc32_reference (ptr_add w6 12)))
    as (w7 & -> & Hl7 & Hb7 & Hle & Hframe); [lia..|].
  mstep.
  assert (ptr_add w7 12 = ptr_add w6 12) as Hsame.
  { apply ptr_add_ext; [lia|done|]. intros j Hj. apply Hframe. lia. }
  exists w7.
  do 5 (split; [reflexivity|]). split; [reflexivity|].
  split; [lia|]. split; [auto|].
  assert (∀ j, j < 8 → load w7 j = load w2 j) as Hhead.
  { intros j Hj. rewrite Hframe, Hf6, Hf5, Hf4, Hf3 by lia. done. }
  split; [unfold be32 in *; by rewrite !Hhead by lia|].
  do 4 (split; [by rewrite Hhead by lia|]).
  split.
  { rewrite Hsame. apply Hle. exact Hrange. }
  split; [|split; [|split]].
  - apply (chunk_at_frame w3); [lia|exact (conj Hbe3 (conj Hle3 Hd3))|].
    intros j Hj. rewrite Hframe, Hf6, Hf5, Hf4 by lia. done.
  - apply (chunk_at_frame w4); [lia|exact (conj Hbe4 (conj Hle4 Hd4))|].
    intros j Hj. rewrite Hframe, Hf6, Hf5 by lia. done.
  - apply (chunk_at_frame w5); [lia|exact (conj Hbe5 (conj Hle5 Hd5))|].
    intros j Hj. rewrite Hframe, Hf6 by lia. done.
  - apply (chunk_at_frame w6); [lia|exact (conj Hbe6 (conj Hle6 Hd6))|].
    intros j Hj. rewrite Hframe by lia. done.
Qed.

End Tracks.

(** ** The file as a whole *)

Lemma main_file (uninit : nat → list Z) (dsk : list Z)
    (sector_format : dsk_sector_format) :
  (∀ n, length (uninit n) = n) →
  (∀ n, Forall is_byte (uninit n)) →
  Z.of_nat (length dsk) = DSK_IMAGE_SIZE →
  Forall is_byte dsk →
  ∃ track_data woz,
    main uninit dsk sector_format = Some woz
    ∧ Z.of_nat (length woz) = 235204
    ∧ Forall is_byte woz
    ∧ Z.of_nat (length track_data) = 232960
    ∧ Forall is_byte track_data
    ∧ (∀ j, 0 ≤ j < 280 →
         load woz (256 + j) = Some (trk_entry_byte 50632 j))
    ∧ (∀ k, 0 ≤ k < 232960 → load woz (1536 + k) = load track_data k)
    ∧ (∀ j, 0 ≤ j < 700 →
         load woz (234504 + j) = Some (writ_entry_byte track_data 50632 j))
    ∧ (∀ t, 0 ≤ t < 35 → ∀ p, 0 ≤ p < 53248 →
         buf_bit woz (8 * (1536 + 6656 * t) + p)
         = stream_bit 0
             (track_items (ptr_add dsk (t * BYTES_PER_TRACK)) t sector_format)
             p).
Proof.
  intros Hul Hub Hdsk Hbytes.
  destruct (main_layout uninit Hul Hub dsk sector_format Hdsk Hbytes)
    as (td & info & tmap & trks & writ & woz & Henc & _ & _ & Htrks & Hwrit
        & Hmain & Hlen & Hwb & _ & _ & _ & _ & _ & _ & _ & _ & Hat_trks
        & Hat_writ).
  destruct (encode_tracks_content uninit Hul Hub dsk sector_format Hdsk Hbytes)
    as (td' & Henc' & Htd & Htdb & Hbits).
  rewrite Henc in Henc'. injection Henc' as <-.
  destruct (create_trks_chunk_run td 50632 ltac:(lia))
    as (trks' & Htrks' & _ & Hk1 & _ & Hdir & _ & Hdata).
  rewrite Htrks in Htrks'. injection Htrks' as <-.
  destruct (create_writ_chunk_run td 50632 Htd Htdb ltac:(lia))
    as (writ' & Hwrit' & _ & Hw1 & _ & Hwdata).
  rewrite Hwrit in Hwrit'. injection Hwrit' as <-.
  destruct Hat_trks as (_ & _ & Hpay_trks).
  destruct Hat_writ as (_ & _ & Hpay_writ).
  rewrite Hk1 in Hpay_trks. rewrite Hw1 in Hpay_writ.
  clear Henc Htrks Hwrit.
  assert (∀ k, 0 ≤ k < 232960 → load woz (1536 + k) = load td k) as Htracks.
  { intros k Hk. rewrite <- Hdata by lia. rewrite <- Hpay_trks by lia.
    f_equal. lia. }
  exists td, woz. split; [exact Hmain|]. split; [exact Hlen|].
  split; [exact Hwb|]. split; [exact Htd|]. split; [exact Htdb|].
  split; [|split; [exact Htracks|split]].
  - intros j Hj. rewrite <- Hdir by lia. rewrite <- Hpay_trks by lia.
    f_equal.
  - intros j Hj. rewrite <- Hwdata by lia. rewrite <- Hpay_writ by lia.
    f_equal.
  - intros t Ht p Hp. rewrite <- Hbits by lia.
    apply buf_bit_loads; [|lia].
    replace ((8 * (1536 + 6656 * t) + p) / 8) with (1536 + (6656 * t + p / 8))
      by lia.
    rewrite Htracks by lia. f_equal. lia.
Qed.

(** The fields of TRKS directory entry [i], read from any array that holds
    the directory from offset [base]. *)
Lemma trk_entry_fields (d : list Z) (base valid_bits i : Z) :
  (∀ j, 0 ≤ j < 280 → load d (base + j) = Some (trk_entry_byte valid_bits j)) →
  0 ≤ i < 35 →
  0 ≤ valid_bits < 4294967296 →
  le16 d (base + 8 * i) = Some (3 + 13 * i)
  ∧ le16 d (base + 8 * i + 2) = Some 13
  ∧ le32 d (base + 8 * i + 4) = Some valid_bits.
Proof.
  intros Hdir Hi Hvb. unfold le16, le32.
  assert (∀ p k, p = base + 8 * i + k → 0 ≤ k < 8 →
            load d p = Some (trk_entry_byte valid_bits (8 * i + k))) as Hat.
  { intros p k -> Hk. rewrite <- Hdir by lia. f_equal. lia. }
  rewrite (Hat (base + 8 * i) 0), (Hat (base + 8 * i + 1) 1),
    (Hat (base + 8 * i + 2) 2), (Hat (base + 8 * i + 2 + 1) 3),
    (Hat (base + 8 * i + 4) 4), (Hat (base + 8 * i + 4 + 1) 5),
    (Hat (base + 8 * i + 4 + 2) 6), (Hat (base + 8 * i + 4 + 3) 7) by lia.
  mstep. rewrite !trk_entry_byte_at by lia.
  split; [|split].
  - f_equal. apply le16_value. lia.
  - done.
  - f_equal. by apply le32_value.
Qed.

(** X14. In the file that [main] builds, TRKS directory entry [t] points at
    the bits of track [t].  The entry, at file offset [256 + 8 * t], holds
    the starting block [3 + 13 * t], the block count 13 and the bit count
    50,632; and at the byte offset of that block, [512 * (3 + 13 * t)], the
    file holds, bit for bit, the stream of track [t] encoded from the sectors
    at offset [4096 * t] of the disk image. *)
Theorem track_bits_in_file (uninit : nat → list Z) (dsk : list Z)
    (sector_format : dsk_sector_format) (t : Z) :
  (∀ n, length (uninit n) = n) →
  (∀ n, Forall is_byte (uninit n)) →
  Z.of_nat (length dsk) = DSK_IMAGE_SIZE →
  Forall is_byte dsk →
  0 ≤ t < TRACKS_PER_DISK →
  ∃ woz starting_block,
    main uninit dsk sector_format = Some woz
    ∧ le16 woz (256 + 8 * t) = Some starting_block
    ∧ starting_block = 3 + BITS_BLOCKS_PER_TRACK * t
    ∧ le16 woz (256 + 8 * t + 2) = Some BITS_BLOCKS_PER_TRACK
    ∧ le32 woz (256 + 8 * t + 4) = Some 50632
    ∧ ∀ p, 0 ≤ p < 8 * BITS_TRACK_SIZE →
        buf_bit woz (8 * (BITS_BLOCK_SIZE * starting_block) + p)
        = stream_bit 0
            (track_items (ptr_add dsk (t * BYTES_PER_TRACK)) t sector_format)
            p.
Proof.
  unfold TRACKS_PER_DISK, BITS_BLOCKS_PER_TRACK, BITS_BLOCK_SIZE.
  change (8 * BITS_TRACK_SIZE) with 53248.
  intros Hul Hub Hdsk Hbytes Ht.
  destruct (main_file uninit dsk sector_format Hul Hub Hdsk Hbytes)
    as (td & woz & Hmain & _ & _ & _ & _ & Hdir & _ & _ & Hbits).
  destruct (trk_entry_fields woz 256 50632 t Hdir Ht ltac:(lia))
    as (Hsb & Hbc & Hvb).
  exists woz, (3 + 13 * t). split; [exact Hmain|].
  split; [exact Hsb|]. split; [reflexivity|].
  split; [exact Hbc|]. split; [exact Hvb|].
  intros p Hp. rewrite <- (Hbits t Ht p Hp). f_equal. lia.
Qed.

Lemma track_bits_in_file_witness :
  ∃ woz,
    main (λ n, replicate n 0) (replicate (Z.to_nat DSK_IMAGE_SIZE) 0)
      dsk_sector_format_dos_3_3 = Some woz
    ∧ le16 woz (256 + 8 * 34) = Some (3 + BITS_BLOCKS_PER_TRACK * 34).
Proof.
  destruct (track_bits_in_file (λ n, replicate n 0)
              (replicate (Z.to_nat DSK_IMAGE_SIZE) 0)
              dsk_sector_format_dos_3_3 34)
    as (woz & sb & Hrun & Hsb & -> & _).
  - intros n. apply length_replicate.
  - intros n. apply Forall_replicate. unfold is_byte. lia.
  - rewrite length_replicate. apply Z2Nat.id. by vm_compute.
  - apply Forall_replicate. unfold is_byte. lia.
  - unfold TRACKS_PER_DISK. lia.
  - exists woz. split; [exact Hrun|exact Hsb].
Defined.

(** ** Reading the disk image back from the file *)

Lemma ptr_add_ptr_add (a : list Z) (j k : Z) :
  0 ≤ j → 0 ≤ k → ptr_add (ptr_add a j) k = ptr_add a (j + k).
Proof.
  intros Hj Hk. unfold ptr_add. rewrite drop_drop. f_equal. lia.
Qed.

Lemma file_sector_decodes (uninit : nat → list Z) (dsk : list Z)
    (sector_format : dsk_sector_format) :
  (∀ n, length (uninit n) = n) →
  (∀ n, Forall is_byte (uninit n)) →
  Z.of_nat (length dsk) = DSK_IMAGE_SIZE →
  Forall is_byte dsk →
  ∃ woz,
    main uninit dsk sector_format = Some woz
    ∧ ∀ t s, 0 ≤ t < 35 → 0 ≤ s < 16 →
        decode_6_and_2 (file_sector woz t s)
        = Some (take 256
                  (ptr_add dsk
                     (4096 * t + 256 * logical_sector sector_format s))).
Proof.
  intros Hul Hub Hdsk Hbytes.
  destruct (main_file uninit dsk sector_format Hul Hub Hdsk Hbytes)
    as (td & woz & Hmain & _ & _ & _ & _ & _ & _ & _ & Hbits).
  exists woz. split; [exact Hmain|]. intros t s Ht Hs.
  unfold DSK_IMAGE_SIZE, BYTES_PER_TRACK, BYTES_PER_SECTOR, SECTORS_PER_TRACK,
    TRACKS_PER_DISK in *.
  destruct (physical_logical sector_format s Hs) as [Hl _].
  pose proof (sector_data_decodes (ptr_add woz (1536 + 6656 * t))
                (ptr_add dsk (t * (16 * 256))) t sector_format s) as Hdec.
  rewrite ptr_add_ptr_add in Hdec by (unfold BYTES_PER_SECTOR; lia).
  replace (t * (16 * 256) + logical_sector sector_format s * BYTES_PER_SECTOR)
    with (4096 * t + 256 * logical_sector sector_format s) in Hdec
    by (unfold BYTES_PER_SECTOR; lia).
  rewrite <- Hdec.
  - f_equal. unfold file_sector. apply map_ext_in. intros i Hi.
    apply list_elem_of_In, elem_of_seqZ in Hi.
    rewrite bits_read_byte_ptr_add by lia. f_equal. lia.
  - intros p Hp. rewrite buf_bit_ptr_add by lia. by apply Hbits.
  - rewrite ptr_add_length; lia.
  - by apply ptr_add_bytes.
  - done.
Qed.

(** X15. The conversion loses nothing: from the file that [main] builds,
    every sector of the disk image can be read back.  For track [t] and
    physical sector [s], the 343 data-field bytes found in the file at bit
    [8 * (1536 + 6656 * t) + 640 + 3134 * s + 206] pass the checksum test of
    [decode_6_and_2] and decode to the 256 bytes of logical sector
    [logical_sector sector_format s] of track [t] of the image. *)
Theorem disk_sectors_read_back (uninit : nat → list Z) (dsk : list Z)
    (sector_format : dsk_sector_format) (t s : Z) :
  (∀ n, length (uninit n) = n) →
  (∀ n, Forall is_byte (uninit n)) →
  Z.of_nat (length dsk) = DSK_IMAGE_SIZE →
  Forall is_byte dsk →
  0 ≤ t < TRACKS_PER_DISK →
  0 ≤ s < SECTORS_PER_TRACK →
  ∃ woz,
    main uninit dsk sector_format = Some woz
    ∧ decode_6_and_2 (file_sector woz t s)
      = Some (take (Z.to_nat BYTES_PER_SECTOR)
                (ptr_add dsk
                   (t * BYTES_PER_TRACK
                    + logical_sector sector_format s * BYTES_PER_SECTOR))).
Proof.
  unfold TRACKS_PER_DISK, SECTORS_PER_TRACK.
  intros Hul Hub Hdsk Hbytes Ht Hs.
  destruct (file_sector_decodes uninit dsk sector_format Hul Hub Hdsk Hbytes)
    as (woz & Hmain & Hdec).
  exists woz. split; [exact Hmain|].
  rewrite (Hdec t s Ht Hs). f_equal.
  change (Z.to_nat BYTES_PER_SECTOR) with 256%nat. f_equal. f_equal.
  unfold BYTES_PER_TRACK, SECTORS_PER_TRACK, BYTES_PER_SECTOR. lia.
Qed.

Lemma disk_sectors_read_back_witness :
  ∃ woz,
    main (λ n, replicate n 0) (replicate (Z.to_nat DSK_IMAGE_SIZE) 0xE5)
      dsk_sector_format_prodos = Some woz
    ∧ decode_6_and_2 (file_sector woz 17 3)
      = Some (take (Z.to_nat BYTES_PER_SECTOR)
                (ptr_add (replicate (Z.to_nat DSK_IMAGE_SIZE) 0xE5)
                   (17 * BYTES_PER_TRACK
                    + logical_sector dsk_sector_format_prodos 3
                      * BYTES_PER_SECTOR))).
Proof.
  destruct (disk_sectors_read_back (λ n, replicate n 0)
              (replicate (Z.to_nat DSK_IMAGE_SIZE) 0xE5)
              dsk_sector_format_prodos 17 3)
    as (woz & Hrun & Hdec).
  - intros n. apply length_replicate.
  - intros n. apply Forall_replicate. unfold is_byte. lia.
  - rewrite length_replicate. apply Z2Nat.id. by vm_compute.
  - apply Forall_replicate. unfold is_byte. lia.
  - unfold TRACKS_PER_DISK. lia.
  - unfold SECTORS_PER_TRACK. lia.
  - exists woz. split; [exact Hrun|exact Hdec].
Defined.

Lemma image_of_sectors (dsk1 dsk2 : list Z) :
  Z.of_nat (length dsk1) = 143360 →
  Z.of_nat (length dsk2) = 143360 →
  (∀ t l, 0 ≤ t < 35 → 0 ≤ l < 16 →
     take 256 (ptr_add dsk1 (4096 * t + 256 * l))
     = take 256 (ptr_add dsk2 (4096 * t + 256 * l))) →
  dsk1 = dsk2.
Proof.
  intros H1 H2 Hsec. apply list_eq. intros i.
  destruct (decide (Z.of_nat i < 143360)) as [Hi|Hi].
  - set (j := Z.of_nat i).
    assert (∀ d : list Z,
              take 256 (ptr_add d (4096 * (j / 4096)
                                   + 256 * (j mod 4096 / 256)))
              !! Z.to_nat (j mod 256) = d !! i) as Hat.
    { intros d. rewrite lookup_take_lt by lia. unfold ptr_add.
      rewrite lookup_drop. f_equal. lia. }
    rewrite <- (Hat dsk1), <- (Hat dsk2).
    rewrite (Hsec (j / 4096) (j mod 4096 / 256)) by lia. done.
  - rewrite !lookup_ge_None_2 by lia. done.
Qed.

(** X16. [main] is injective on disk images: with the same sector format,
    two 143,360-byte images that give the same file are the same image,
    whatever the uninitialised storage held in either run. *)
Theorem main_injective (uninit1 uninit2 : nat → list Z) (dsk1 dsk2 : list Z)
    (sector_format : dsk_sector_format) :
  (∀ n, length (uninit1 n) = n) →
  (∀ n, Forall is_byte (uninit1 n)) →
  (∀ n, length (uninit2 n) = n) →
  (∀ n, Forall is_byte (uninit2 n)) →
  Z.of_nat (length dsk1) = DSK_IMAGE_SIZE →
  Forall is_byte dsk1 →
  Z.of_nat (length dsk2) = DSK_IMAGE_SIZE →
  Forall is_byte dsk2 →
  main uninit1 dsk1 sector_format = main uninit2 dsk2 sector_format →
  dsk1 = dsk2.
Proof.
  intros Hul1 Hub1 Hul2 Hub2 Hd1 Hb1 Hd2 Hb2 Heq.
  destruct (file_sector_decodes uninit1 dsk1 sector_format Hul1 Hub1 Hd1 Hb1)
    as (woz1 & Hm1 & Hdec1).
  destruct (file_sector_decodes uninit2 dsk2 sector_format Hul2 Hub2 Hd2 Hb2)
    as (woz2 & Hm2 & Hdec2).
  rewrite Hm1, Hm2 in Heq. injection Heq as <-.
  apply image_of_sectors; [exact Hd1|exact Hd2|].
  intros t l Ht Hl.
  destruct (logical_physical sector_format l Hl) as [Hs Hback].
  pose proof (Hdec1 t _ Ht Hs) as E1. pose proof (Hdec2 t _ Ht Hs) as E2.
  rewrite Hback in E1, E2. rewrite E1 in E2. by injection E2.
Qed.

Lemma main_injective_witness :
  replicate (Z.to_nat DSK_IMAGE_SIZE) 0xE5
  = replicate (Z.to_nat DSK_IMAGE_SIZE) 0xE5.
Proof.
  apply (main_injective (λ n, replicate n 0) (λ n, replicate n 0)
           (replicate (Z.to_nat DSK_IMAGE_SIZE) 0xE5)
           (replicate (Z.to_nat DSK_IMAGE_SIZE) 0xE5)
           dsk_sector_format_dos_3_3).
  - intros n. apply length_replicate.
  - intros n. apply Forall_replicate. unfold is_byte. lia.
  - intros n. apply length_replicate.
  - intros n. apply Forall_replicate. unfold is_byte. lia.
  - rewrite length_replicate. apply Z2Nat.id. by vm_compute.
  - apply Forall_replicate. unfold is_byte. lia.
  - rewrite length_replicate. apply Z2Nat.id. by vm_compute.
  - apply Forall_replicate. unfold is_byte. lia.
  - reflexivity.
Defined.

(** ** The WRIT checksums against the file *)

Lemma writ_entry_crc (d track_data : list Z) (base t crc : Z) :
  (∀ j, 0 ≤ j < 700 →
     load d (base + j) = Some (writ_entry_byte track_data 50632 j)) →
  0 ≤ t < 35 →
  crc32 0 (ptr_add track_data (t * BITS_TRACK_SIZE)) 6329 = Some crc →
  0 ≤ crc < 4294967296 →
  load d (base + 20 * t) = Some (t * 4)
  ∧ le32 d (base + 20 * t + 4) = Some crc
  ∧ le32 d (base + 20 * t + 8) = Some 640
  ∧ le32 d (base + 20 * t + 12) = Some (50632 - 640).
Proof.
  intros Hdata Ht Hcrc Hrange.
  assert (∀ p k, p = base + 20 * t + k → 0 ≤ k < 20 →
            load d p = Some (writ_entry_byte track_data 50632 (20 * t + k)))
    as Hat.
  { intros p k -> Hk. rewrite <- Hdata by lia. f_equal. lia. }
  unfold le32.
  rewrite (Hat (base + 20 * t) 0),
    (Hat (base + 20 * t + 4) 4), (Hat (base + 20 * t + 4 + 1) 5),
    (Hat (base + 20 * t + 4 + 2) 6), (Hat (base + 20 * t + 4 + 3) 7),
    (Hat (base + 20 * t + 8) 8), (Hat (base + 20 * t + 8 + 1) 9),
    (Hat (base + 20 * t + 8 + 2) 10), (Hat (base + 20 * t + 8 + 3) 11),
    (Hat (base + 20 * t + 12) 12), (Hat (base + 20 * t + 12 + 1) 13),
    (Hat (base + 20 * t + 12 + 2) 14), (Hat (base + 20 * t + 12 + 3) 15)
    by lia.
  mstep. rewrite !writ_entry_byte_at by lia. cbv zeta.
  change ((50632 + 7) / 8) with 6329. rewrite Hcrc.
  cbn [default from_option].
  split; [reflexivity|]. split; [|split; reflexivity].
  f_equal. by apply le32_value.
Qed.

(** X17. In the file that [main] builds, the checksum of WRIT descriptor
    [t] matches the track bits that the file itself stores: the four bytes
    at file offset [234504 + 20 * t + 4] hold, little-endian, the CRC-32 of
    the 6,329 bytes found at the block that TRKS entry [t] names, byte offset
    [512 * (3 + 13 * t)].  The descriptor's first byte is the quarter track
    [4 * t]. *)
Theorem writ_checksum_matches_file (uninit : nat → list Z) (dsk : list Z)
    (sector_format : dsk_sector_format) (t : Z) :
  (∀ n, length (uninit n) = n) →
  (∀ n, Forall is_byte (uninit n)) →
  Z.of_nat (length dsk) = DSK_IMAGE_SIZE →
  Forall is_byte dsk →
  0 ≤ t < TRACKS_PER_DISK →
  ∃ woz crc,
    main uninit dsk sector_format = Some woz
    ∧ load woz (234504 + 20 * t) = Some (t * 4)
    ∧ le32 woz (234504 + 20 * t + 4) = Some crc
    ∧ crc32 0 (ptr_add woz (BITS_BLOCK_SIZE * (3 + BITS_BLOCKS_PER_TRACK * t)))
        6329 = Some crc
    ∧ crc = crc32_reference
              (take (Z.to_nat 6329)
                 (ptr_add woz
                    (BITS_BLOCK_SIZE * (3 + BITS_BLOCKS_PER_TRACK * t)))).
Proof.
  unfold TRACKS_PER_DISK, BITS_BLOCKS_PER_TRACK, BITS_BLOCK_SIZE.
  intros Hul Hub Hdsk Hbytes Ht.
  destruct (main_file uninit dsk sector_format Hul Hub Hdsk Hbytes)
    as (td & woz & Hmain & Hlen & Hwb & Htd & Htdb & _ & Htracks & Hwrit & _).
  assert (take (Z.to_nat 6329) (ptr_add td (t * BITS_TRACK_SIZE))
          = take (Z.to_nat 6329) (ptr_add woz (512 * (3 + 13 * t)))) as Hsame.
  { apply list_eq. intros i.
    destruct (decide (i < Z.to_nat 6329)%nat) as [Hi|Hi].
    - rewrite !lookup_take_lt by done. unfold ptr_add.
      rewrite !lookup_drop, <- !load_nat.
      change BITS_TRACK_SIZE with 6656.
      replace (Z.of_nat (Z.to_nat (512 * (3 + 13 * t)) + i))
        with (1536 + (6656 * t + Z.of_nat i)) by lia.
      rewrite Htracks by lia. f_equal. lia.
    - rewrite !lookup_take_ge by lia. done. }
  destruct (crc32_run (ptr_add td (t * BITS_TRACK_SIZE)) 6329)
    as [Hcrc Hrange].
  { rewrite ptr_add_length; change BITS_TRACK_SIZE with 6656; lia. }
  { by apply ptr_add_bytes. }
  change (2 ^ 32) with 4294967296 in Hrange.
  destruct (crc32_run (ptr_add woz (512 * (3 + 13 * t))) 6329)
    as [Hcrc' _].
  { rewrite ptr_add_length; lia. }
  { by apply ptr_add_bytes. }
  rewrite Hsame in Hcrc, Hrange.
  destruct (writ_entry_crc woz td 234504 t _ Hwrit Ht Hcrc Hrange)
    as (Hq & Hle & _).
  eexists woz, _. split; [exact Hmain|]. split; [exact Hq|].
  split; [exact Hle|]. split; [exact Hcrc'|reflexivity].
Qed.

Lemma writ_checksum_matches_file_witness :
  ∃ woz crc,
    main (λ n, replicate n 0) (replicate (Z.to_nat DSK_IMAGE_SIZE) 0)
      dsk_sector_format_dos_3_3 = Some woz
    ∧ le32 woz (234504 + 20 * 34 + 4) = Some crc
    ∧ crc = crc32_reference
              (take (Z.to_nat 6329)
                 (ptr_add woz
                    (BITS_BLOCK_SIZE * (3 + BITS_BLOCKS_PER_TRACK * 34)))).
Proof.
  destruct (writ_checksum_matches_file (λ n, replicate n 0)
              (replicate (Z.to_nat DSK_IMAGE_SIZE) 0)
              dsk_sector_format_dos_3_3 34)
    as (woz & crc & Hrun & _ & Hle & _ & Href).
  - intros n. apply length_replicate.
  - intros n. apply Forall_replicate. unfold is_byte. lia.
  - rewrite length_replicate. apply Z2Nat.id. by vm_compute.
  - apply Forall_replicate. unfold is_byte. lia.
  - unfold TRACKS_PER_DISK. lia.
  - exists woz, crc. split; [exact Hrun|]. split; [exact Hle|exact Href].
Defined.

(** ** The file does not depend on uninitialised storage *)

Lemma be32_bytes_inj (a b : list Z) (off v : Z) :
  Forall is_byte a → Forall is_byte b →
  be32 a off = Some v → be32 b off = Some v →
  ∀ k, 0 ≤ k < 4 → load a (off + k) = load b (off + k).
Proof.
  intros Ha Hb Hva Hvb k Hk. unfold be32 in *.
  destruct (load a off) as [a0|] eqn:Ea0; [|done].
  destruct (load a (off + 1)) as [a1|] eqn:Ea1; [|done].
  destruct (load a (off + 2)) as [a2|] eqn:Ea2; [|done].
  destruct (load a (off + 3)) as [a3|] eqn:Ea3; [|done].
  destruct (load b off) as [b0|] eqn:Eb0; [|done].
  destruct (load b (off + 1)) as [b1|] eqn:Eb1; [|done].
  destruct (load b (off + 2)) as [b2|] eqn:Eb2; [|done].
  destruct (load b (off + 3)) as [b3|] eqn:Eb3; [|done].
  cbn [mbind option_bind] in Hva, Hvb.
  pose proof (load_byte a _ _ Ha Ea0). pose proof (load_byte a _ _ Ha Ea1).
  pose proof (load_byte a _ _ Ha Ea2). pose proof (load_byte a _ _ Ha Ea3).
  pose proof (load_byte b _ _ Hb Eb0). pose proof (load_byte b _ _ Hb Eb1).
  pose proof (load_byte b _ _ Hb Eb2). pose proof (load_byte b _ _ Hb Eb3).
  unfold is_byte in *.
  assert (a0 = b0 ∧ a1 = b1 ∧ a2 = b2 ∧ a3 = b3) as (-> & -> & -> & ->)
    by (assert (16777216 * a0 + 65536 * a1 + 256 * a2 + a3
                = 16777216 * b0 + 65536 * b1 + 256 * b2 + b3)
          by congruence; lia).
  assert (k = 0 ∨ k = 1 ∨ k = 2 ∨ k = 3) as [->|[->|[->| ->]]] by lia.
  - rewrite Z.add_0_r. congruence.
  - congruence.
  - congruence.
  - congruence.
Qed.

Lemma le32_bytes_inj (a b : list Z) (off v : Z) :
  Forall is_byte a → Forall is_byte b →
  le32 a off = Some v → le32 b off = Some v →
  ∀ k, 0 ≤ k < 4 → load a (off + k) = load b (off + k).
Proof.
  intros Ha Hb Hva Hvb k Hk. unfold le32 in *.
  destruct (load a off) as [a0|] eqn:Ea0; [|done].
  destruct (load a (off + 1)) as [a1|] eqn:Ea1; [|done].
  destruct (load a (off + 2)) as [a2|] eqn:Ea2; [|done].
  destruct (load a (off + 3)) as [a3|] eqn:Ea3; [|done].
  destruct (load b off) as [b0|] eqn:Eb0; [|done].
  destruct (load b (off + 1)) as [b1|] eqn:Eb1; [|done].
  destruct (load b (off + 2)) as [b2|] eqn:Eb2; [|done].
  destruct (load b (off + 3)) as [b3|] eqn:Eb3; [|done].
  cbn [mbind option_bind] in Hva, Hvb.
  pose proof (load_byte a _ _ Ha Ea0). pose proof (load_byte a _ _ Ha Ea1).
  pose proof (load_byte a _ _ Ha Ea2). pose proof (load_byte a _ _ Ha Ea3).
  pose proof (load_byte b _ _ Hb Eb0). pose proof (load_byte b _ _ Hb Eb1).
  pose proof (load_byte b _ _ Hb Eb2). pose proof (load_byte b _ _ Hb Eb3).
  unfold is_byte in *.
  assert (a0 = b0 ∧ a1 = b1 ∧ a2 = b2 ∧ a3 = b3) as (-> & -> & -> & ->)
    by (assert (a0 + 256 * a1 + 65536 * a2 + 16777216 * a3
                = b0 + 256 * b1 + 65536 * b2 + 16777216 * b3)
          by congruence; lia).
  assert (k = 0 ∨ k = 1 ∨ k = 2 ∨ k = 3) as [->|[->|[->| ->]]] by lia.
  - rewrite Z.add_0_r. congruence.
  - congruence.
  - congruence.
  - congruence.
Qed.

Lemma chunk_at_unique (a b : list Z) (off : Z) (c : woz_chunk) :
  Forall is_byte a → Forall is_byte b →
  chunk_at a off c → chunk_at b off c →
  ∀ j, off ≤ j < off + 8 + data_length c → load a j = load b j.
Proof.
  intros Ha Hb (Hna & Hla & Hda) (Hnb & Hlb & Hdb) j Hj.
  destruct (decide (j < off + 4)); [|destruct (decide (j < off + 8))].
  - replace j with (off + (j - off)) by lia.
    apply (be32_bytes_inj a b off (name c)); (done || lia).
  - replace j with (off + 4 + (j - off - 4)) by lia.
    apply (le32_bytes_inj a b (off + 4) (data_length c)); (done || lia).
  - replace j with (off + 8 + (j - off - 8)) by lia.
    rewrite Hda, Hdb by lia. done.
Qed.

Lemma list_eq_of_bits (a b : list Z) :
  length a = length b →
  Forall is_byte a → Forall is_byte b →
  (∀ p, 0 ≤ p < 8 * Z.of_nat (length a) → buf_bit a p = buf_bit b p) →
  a = b.
Proof.
  intros Hlen Ha Hb Hbits. apply list_eq. intros i.
  destruct (decide (i < length a)%nat) as [Hi|Hi].
  - rewrite <- !load_nat. apply load_eq_of_bits; [done|done|done|].
    intros p Hp. apply Hbits. lia.
  - rewrite !lookup_ge_None_2 by lia. done.
Qed.

Lemma encode_tracks_unique (uninit1 uninit2 : nat → list Z) (dsk : list Z)
    (sector_format : dsk_sector_format) :
  (∀ n, length (uninit1 n) = n) →
  (∀ n, Forall is_byte (uninit1 n)) →
  (∀ n, length (uninit2 n) = n) →
  (∀ n, Forall is_byte (uninit2 n)) →
  Z.of_nat (length dsk) = DSK_IMAGE_SIZE →
  Forall is_byte dsk →
  encode_tracks uninit1 dsk sector_format
  = encode_tracks uninit2 dsk sector_format.
Proof.
  intros Hul1 Hub1 Hul2 Hub2 Hdsk Hbytes.
  destruct (encode_tracks_content uninit1 Hul1 Hub1 dsk sector_format
              Hdsk Hbytes) as (td1 & -> & Hl1 & Hb1 & Hbits1).
  destruct (encode_tracks_content uninit2 Hul2 Hub2 dsk sector_format
              Hdsk Hbytes) as (td2 & -> & Hl2 & Hb2 & Hbits2).
  f_equal. f_equal.
  apply list_eq_of_bits; [lia|done|done|].
  intros p Hp.
  replace p with (53248 * (p / 53248) + p mod 53248) by lia.
  rewrite Hbits1, Hbits2 by lia. done.
Qed.

Lemma main_unique (uninit1 uninit2 : nat → list Z) (dsk : list Z)
    (sector_format : dsk_sector_format) :
  (∀ n, length (uninit1 n) = n) →
  (∀ n, Forall is_byte (uninit1 n)) →
  (∀ n, length (uninit2 n) = n) →
  (∀ n, Forall is_byte (uninit2 n)) →
  Z.of_nat (length dsk) = DSK_IMAGE_SIZE →
  Forall is_byte dsk →
  main uninit1 dsk sector_format = main uninit2 dsk sector_format.
Proof.
  intros Hul1 Hub1 Hul2 Hub2 Hdsk Hbytes.
  pose proof (encode_tracks_unique uninit1 uninit2 dsk sector_format
                Hul1 Hub1 Hul2 Hub2 Hdsk Hbytes) as Htracks.
  destruct (main_layout uninit1 Hul1 Hub1 dsk sector_format Hdsk Hbytes)
    as (td & info & tmap & trks & writ & w1 & Henc1 & Hinfo & Htmap & Htrks
        & Hwrit & -> & Hlen1 & Hb1 & Hm1 & H14 & H15 & H16 & H17 & Hcrc1
        & Hci1 & Hct1 & Hck1 & Hcw1).
  destruct (main_layout uninit2 Hul2 Hub2 dsk sector_format Hdsk Hbytes)
    as (td' & info' & tmap' & trks' & writ' & w2 & Henc2 & Hinfo' & Htmap'
        & Htrks' & Hwrit' & -> & Hlen2 & Hb2 & Hm2 & H24 & H25 & H26 & H27
        & Hcrc2 & Hci2 & Hct2 & Hck2 & Hcw2).
  rewrite Henc1, Henc2 in Htracks. injection Htracks as <-.
  rewrite Hinfo in Hinfo'. injection Hinfo' as <-.
  rewrite Htmap in Htmap'. injection Htmap' as <-.
  rewrite Htrks in Htrks'. injection Htrks' as <-.
  rewrite Hwrit in Hwrit'. injection Hwrit' as <-.
  assert (data_length info = 60) as Hdi.
  { destruct create_info_chunk_named as (c & Hc & _ & Hd & _).
    rewrite Hinfo in Hc. by injection Hc as <-. }
  assert (data_length tmap = 160) as Hdt.
  { destruct create_tmap_chunk_named as (c & Hc & _ & Hd & _).
    rewrite Htmap in Hc. by injection Hc as <-. }
  assert (data_length trks = 234240) as Hdk.
  { destruct (create_trks_chunk_bytes td 50632) as (c & Hc & Hd & _).
    - destruct (encode_tracks_content uninit1 Hul1 Hub1 dsk sector_format
                  Hdsk Hbytes) as (td1 & Ht1 & Hl & _).
      rewrite Henc1 in Ht1. by injection Ht1 as <-.
    - destruct (encode_tracks_content uninit1 Hul1 Hub1 dsk sector_format
                  Hdsk Hbytes) as (td1 & Ht1 & _ & Hb & _).
      rewrite Henc1 in Ht1. by injection Ht1 as <-.
    - rewrite Htrks in Hc. by injection Hc as <-. }
  assert (data_length writ = 700) as Hdw.
  { destruct (create_writ_chunk_bytes td 50632) as (c & Hc & Hd & _).
    - destruct (encode_tracks_content uninit1 Hul1 Hub1 dsk sector_format
                  Hdsk Hbytes) as (td1 & Ht1 & Hl & _).
      rewrite Henc1 in Ht1. by injection Ht1 as <-.
    - destruct (encode_tracks_content uninit1 Hul1 Hub1 dsk sector_format
                  Hdsk Hbytes) as (td1 & Ht1 & _ & Hb & _).
      rewrite Henc1 in Ht1. by injection Ht1 as <-.
    - lia.
    - rewrite Hwrit in Hc. by injection Hc as <-. }
  clear Henc1 Henc2 Hinfo Htmap Htrks Hwrit.
  assert (∀ j, 12 ≤ j → load w1 j = load w2 j) as Hrest.
  { intros j Hj.
    destruct (decide (j < 80)).
    { apply (chunk_at_unique w1 w2 12 info); (done || lia). }
    destruct (decide (j < 248)).
    { apply (chunk_at_unique w1 w2 80 tmap); (done || lia). }
    destruct (decide (j < 234496)).
    { apply (chunk_at_unique w1 w2 248 trks); (done || lia). }
    destruct (decide (j < 235204)).
    { apply (chunk_at_unique w1 w2 234496 writ); (done || lia). }
    destruct (load w1 j) as [x|] eqn:E1; [apply load_bound in E1; lia|].
    destruct (load w2 j) as [x|] eqn:E2; [apply load_bound in E2; lia|].
    done. }
  assert (ptr_add w1 12 = ptr_add w2 12) as Hsame
    by (apply ptr_add_ext; [lia|lia|exact Hrest]).
  rewrite Hsame in Hcrc1.
  f_equal. apply list_eq. intros i. rewrite <- !load_nat.
  set (j := Z.of_nat i).
  destruct (decide (j < 4)); [|destruct (decide (j < 8));
    [|destruct (decide (j < 12))]].
  - replace j with (0 + j) by lia.
    apply (be32_bytes_inj w1 w2 0 tag_WOZ2); (done || lia).
  - assert (j = 4 ∨ j = 5 ∨ j = 6 ∨ j = 7) as [->|[->|[->| ->]]] by lia;
      congruence.
  - replace j with (8 + (j - 8)) by lia.
    apply (le32_bytes_inj w1 w2 8 _ Hb1 Hb2 Hcrc1 Hcrc2). lia.
  - apply Hrest. lia.
Qed.

(** X18. The file that [main] produces is a function of the disk image and
    the sector format alone.  The three buffers that the program takes
    without initialising them (the track data, the output file, and the
    343-byte array local to the track encoder) are all overwritten before
    they are read: two runs on the same image that start from different
    contents of that storage return the same file. *)
Theorem main_ignores_uninitialised_storage (uninit1 uninit2 : nat → list Z)
    (dsk : list Z) (sector_format : dsk_sector_format) :
  (∀ n, length (uninit1 n) = n) →
  (∀ n, Forall is_byte (uninit1 n)) →
  (∀ n, length (uninit2 n) = n) →
  (∀ n, Forall is_byte (uninit2 n)) →
  Z.of_nat (length dsk) = DSK_IMAGE_SIZE →
  Forall is_byte dsk →
  ∃ woz,
    main uninit1 dsk sector_format = Some woz
    ∧ main uninit2 dsk sector_format = Some woz.
Proof.
  intros Hul1 Hub1 Hul2 Hub2 Hdsk Hbytes.
  destruct (main_layout uninit1 Hul1 Hub1 dsk sector_format Hdsk Hbytes)
    as (td & info & tmap & trks & writ & woz & _ & _ & _ & _ & _ & Hmain & _).
  exists woz. split; [exact Hmain|].
  rewrite <- (main_unique uninit1 uninit2 dsk sector_format
                Hul1 Hub1 Hul2 Hub2 Hdsk Hbytes).
  exact Hmain.
Qed.

Lemma main_ignores_uninitialised_storage_witness :
  ∃ woz,
    main (λ n, replicate n 0) (replicate (Z.to_nat DSK_IMAGE_SIZE) 0xE5)
      dsk_sector_format_dos_3_3 = Some woz
    ∧ main (λ n, replicate n 0xFF) (replicate (Z.to_nat DSK_IMAGE_SIZE) 0xE5)
        dsk_sector_format_dos_3_3 = Some woz.
Proof.
  apply (main_ignores_uninitialised_storage (λ n, replicate n 0)
           (λ n, replicate n 0xFF)
           (replicate (Z.to_nat DSK_IMAGE_SIZE) 0xE5)
           dsk_sector_format_dos_3_3).
  - intros n. apply length_replicate.
  - intros n. apply Forall_replicate. unfold is_byte. lia.
  - intros n. apply length_replicate.
  - intros n. apply Forall_replicate. unfold is_byte. lia.
  - rewrite length_replicate. apply Z2Nat.id. by vm_compute.
  - apply Forall_replicate. unfold is_byte. lia.
Defined.

(** ** The layout of the file *)

Lemma be32_bytes (a : list Z) (off b0 b1 b2 b3 : Z) :
  Forall is_byte a →
  is_byte b0 → is_byte b1 → is_byte b2 → is_byte b3 →
  be32 a off = Some (16777216 * b0 + 65536 * b1 + 256 * b2 + b3) →
  load a off = Some b0 ∧ load a (off + 1) = Some b1
  ∧ load a (off + 2) = Some b2 ∧ load a (off + 3) = Some b3.
Proof.
  intros Ha H0 H1 H2 H3 Hv. unfold be32 in Hv.
  destruct (load a off) as [a0|] eqn:Ea0; [|done].
  destruct (load a (off + 1)) as [a1|] eqn:Ea1; [|done].
  destruct (load a (off + 2)) as [a2|] eqn:Ea2; [|done].
  destruct (load a (off + 3)) as [a3|] eqn:Ea3; [|done].
  cbn [mbind option_bind] in Hv.
  pose proof (load_byte a _ _ Ha Ea0). pose proof (load_byte a _ _ Ha Ea1).
  pose proof (load_byte a _ _ Ha Ea2). pose proof (load_byte a _ _ Ha Ea3).
  unfold is_byte in *.
  assert (a0 = b0 ∧ a1 = b1 ∧ a2 = b2 ∧ a3 = b3) as (-> & -> & -> & ->)
    by (assert (16777216 * a0 + 65536 * a1 + 256 * a2 + a3
                = 16777216 * b0 + 65536 * b1 + 256 * b2 + b3)
          by congruence; lia).
  done.
Qed.

(** X19. [main] lays the file out as the 12-byte header followed by the
    four chunks back to back, in the order INFO, TMAP, TRKS, WRIT, each as
    [write_chunk] writes the chunk that its constructor returned, and
    nothing after the last one.  The header starts with the bytes
    57 4F 5A 32 FF 0A 0D 0A; and the header, the INFO chunk, the TMAP chunk
    and the TRKS chunk header and directory add up to three 512-byte blocks,
    so the first track buffer lies at block 3, the starting block that
    [create_trks_chunk] records for track 0. *)
Theorem container_layout (uninit : nat → list Z) (dsk : list Z)
    (sector_format : dsk_sector_format) :
  (∀ n, length (uninit n) = n) →
  (∀ n, Forall is_byte (uninit n)) →
  Z.of_nat (length dsk) = DSK_IMAGE_SIZE →
  Forall is_byte dsk →
  ∃ track_data info tmap trks writ woz,
    encode_tracks uninit dsk sector_format = Some (track_data, 50632)
    ∧ create_info_chunk = Some info
    ∧ create_tmap_chunk = Some tmap
    ∧ create_trks_chunk track_data 50632 = Some trks
    ∧ create_writ_chunk track_data 50632 = Some writ
    ∧ main uninit dsk sector_format = Some woz
    ∧ map (load woz) (seqZ 0 8)
      = map Some [0x57; 0x4F; 0x5A; 0x32; 0xFF; 0x0A; 0x0D; 0x0A]
    ∧ chunk_at woz WOZ_HEADER_SIZE info
    ∧ chunk_at woz (WOZ_HEADER_SIZE + total_chunk_size info) tmap
    ∧ chunk_at woz
        (WOZ_HEADER_SIZE + total_chunk_size info + total_chunk_size tmap) trks
    ∧ chunk_at woz
        (WOZ_HEADER_SIZE + total_chunk_size info + total_chunk_size tmap
         + total_chunk_size trks) writ
    ∧ Z.of_nat (length woz)
      = WOZ_HEADER_SIZE + total_chunk_size info + total_chunk_size tmap
        + total_chunk_size trks + total_chunk_size writ
    ∧ WOZ_HEADER_SIZE + total_chunk_size info + total_chunk_size tmap
      + 8 + 160 * 8 = 3 * BITS_BLOCK_SIZE.
Proof.
  intros Hul Hub Hdsk Hbytes.
  destruct (main_layout uninit Hul Hub dsk sector_format Hdsk Hbytes)
    as (td & info & tmap & trks & writ & woz & Henc & Hinfo & Htmap & Htrks
        & Hwrit & Hmain & Hlen & Hb & Hm & H4 & H5 & H6 & H7 & _
        & Hci & Hct & Hck & Hcw).
  assert (data_length info = 60) as Hdi.
  { destruct create_info_chunk_named as (c & Hc & _ & Hd & _).
    rewrite Hinfo in Hc. by injection Hc as <-. }
  assert (data_length tmap = 160) as Hdt.
  { destruct create_tmap_chunk_named as (c & Hc & _ & Hd & _).
    rewrite Htmap in Hc. by injection Hc as <-. }
  destruct (encode_tracks_content uninit Hul Hub dsk sector_format
              Hdsk Hbytes) as (td1 & Ht1 & Htd & Htdb & _).
  rewrite Henc in Ht1. injection Ht1 as <-.
  assert (data_length trks = 234240) as Hdk.
  { destruct (create_trks_chunk_bytes td 50632 Htd Htdb) as (c & Hc & Hd & _).
    rewrite Htrks in Hc. by injection Hc as <-. }
  assert (data_length writ = 700) as Hdw.
  { destruct (create_writ_chunk_bytes td 50632 Htd Htdb ltac:(lia))
      as (c & Hc & Hd & _).
    rewrite Hwrit in Hc. by injection Hc as <-. }
  exists td, info, tmap, trks, writ, woz.
  do 6 (split; [assumption|]).
  unfold total_chunk_size, WOZ_HEADER_SIZE, BITS_BLOCK_SIZE.
  rewrite Hdi, Hdt, Hdk, Hdw.
  split; [|split; [exact Hci|split; [exact Hct|split; [exact Hck|
    split; [exact Hcw|split; [exact Hlen|reflexivity]]]]]].
  destruct (be32_bytes woz 0 0x57 0x4F 0x5A 0x32 Hb) as (H0 & H1 & H2 & H3);
    [unfold is_byte; lia..|exact Hm|].
  change (seqZ 0 8) with [0; 1; 2; 3; 4; 5; 6; 7]. cbn [map].
  change (0 + 1) with 1 in H1. change (0 + 2) with 2 in H2.
  change (0 + 3) with 3 in H3.
  by rewrite H0, H1, H2, H3, H4, H5, H6, H7.
Qed.

Lemma container_layout_witness :
  ∃ woz,
    main (λ n, replicate n 0) (replicate (Z.to_nat DSK_IMAGE_SIZE) 0)
      dsk_sector_format_dos_3_3 = Some woz
    ∧ map (load woz) (seqZ 0 8)
      = map Some [0x57; 0x4F; 0x5A; 0x32; 0xFF; 0x0A; 0x0D; 0x0A].
Proof.
  destruct (container_layout (λ n, replicate n 0)
              (replicate (Z.to_nat DSK_IMAGE_SIZE) 0)
              dsk_sector_format_dos_3_3)
    as (td & info & tmap & trks & writ & woz & _ & _ & _ & _ & _ & Hrun
        & Hhdr & _).
  - intros n. apply length_replicate.
  - intros n. apply Forall_replicate. unfold is_byte. lia.
  - rewrite length_replicate. apply Z2Nat.id. by vm_compute.
  - apply Forall_replicate. unfold is_byte. lia.
  - exists woz. split; [exact Hrun|exact Hhdr].
Defined.

(** ** The program with its files *)

(** X20. The sector order is chosen by the input file's name alone, and
    only by the exact lower-case suffix: the order is ProDOS exactly when
    the name is a non-empty stem followed by [.po].  A file named just
    [.po], and a name that ends in [.PO], are read in DOS 3.3 order. *)
Theorem sector_format_by_suffix (name : list Z) :
  (sector_format_of_name name = dsk_sector_format_prodos
   ↔ ∃ stem, stem ≠ [] ∧ name = stem ++ [46; 112; 111])
  ∧ sector_format_of_name [46; 112; 111] = dsk_sector_format_dos_3_3
  ∧ sector_format_of_name (name ++ [46; 80; 79]) = dsk_sector_format_dos_3_3.
Proof.
  split; [|split].
  - unfold sector_format_of_name, ptr_add. split.
    + destruct (Z.ltb_spec 3 (Z.of_nat (length name))) as [Hlen|Hlen];
        [|done].
      case_bool_decide as Hsfx; [|done]. intros _.
      exists (take (Z.to_nat (Z.of_nat (length name) - 3)) name). split.
      * intros Hnil. apply (f_equal length) in Hnil.
        rewrite length_take in Hnil. simpl in Hnil. lia.
      * rewrite <- Hsfx. rewrite (take_ge (drop _ _))
          by (rewrite length_drop; lia).
        by rewrite take_drop.
    + intros (stem & Hstem & ->).
      rewrite length_app. simpl length.
      destruct (Z.ltb_spec 3 (Z.of_nat (length stem + 3))) as [Hlen|Hlen].
      * replace (Z.to_nat (Z.of_nat (length stem + 3) - 3))
          with (length stem) by lia.
        rewrite drop_app_length. reflexivity.
      * destruct stem; [done|simpl in Hlen; lia].
  - reflexivity.
  - unfold sector_format_of_name, ptr_add.
    rewrite length_app. simpl length.
    replace (Z.to_nat (Z.of_nat (length name + 3) - 3))
      with (length name) by lia.
    rewrite drop_app_length.
    by destruct (3 <? Z.of_nat (length name + 3)).
Qed.

Lemma fread_full (buf file : list Z) (n : Z) :
  Z.of_nat (length buf) = n →
  fread buf n file
  = if decide (n ≤ Z.of_nat (length file))
    then (take (Z.to_nat n) file, n)
    else (file ++ drop (length file) buf, Z.of_nat (length file)).
Proof.
  intros Hbuf. unfold fread. destruct (decide _) as [Hle|Hgt].
  - rewrite length_take, Nat.min_l by lia.
    rewrite drop_ge by lia. rewrite app_nil_r. f_equal. lia.
  - by rewrite take_ge by lia.
Qed.

(** X21. The exit status of the program, by cases on what the outside world
    answers.  The status is -1 exactly when the argument count is not 3; -2
    exactly when, with three arguments, the input file cannot be opened or
    holds fewer than 143,360 bytes; -5 when the input was accepted and the
    output file cannot be opened; -6 when [fwrite] reports a count other
    than the 235,204 bytes of the file; and 0 in the one remaining case.  No
    other status is returned, and with status 0 the buffer handed to
    [fwrite] is what [main] builds from the first 143,360 bytes of the input
    with the sector order that the input's name selects. *)
Theorem run_exit_status (uninit : nat → list Z) (argc : Z) (argv1 : list Z)
    (w : files) :
  (∀ n, length (uninit n) = n) →
  (∀ n, Forall is_byte (uninit n)) →
  (∀ file, input_contents w = Some file → Forall is_byte file) →
  ∃ code out,
    run uninit argc argv1 w = Some (code, out)
    ∧ (code = -1 ↔ argc ≠ 3)
    ∧ (code = -2 ↔
       argc = 3
       ∧ ∀ file, input_contents w = Some file →
           Z.of_nat (length file) < DSK_IMAGE_SIZE)
    ∧ (code = -5 ↔
       argc = 3
       ∧ (∃ file, input_contents w = Some file
            ∧ DSK_IMAGE_SIZE ≤ Z.of_nat (length file))
       ∧ output_opens w = false)
    ∧ (code = -6 ↔
       argc = 3
       ∧ (∃ file, input_contents w = Some file
            ∧ DSK_IMAGE_SIZE ≤ Z.of_nat (length file))
       ∧ output_opens w = true
       ∧ fwrite_count w ≠ 235204)
    ∧ (code = 0 ↔
       argc = 3
       ∧ (∃ file, input_contents w = Some file
            ∧ DSK_IMAGE_SIZE ≤ Z.of_nat (length file))
       ∧ output_opens w = true
       ∧ fwrite_count w = 235204)
    ∧ (code = -1 ∨ code = -2 ∨ code = -5 ∨ code = -6 ∨ code = 0)
    ∧ (code = 0 →
       ∃ file woz,
         input_contents w = Some file
         ∧ main uninit (take (Z.to_nat DSK_IMAGE_SIZE) file)
             (sector_format_of_name argv1) = Some woz
         ∧ out = Some woz).
Proof.
  intros Hul Hub Hfile. unfold run.
  destruct (Z.eqb_spec argc 3) as [Hargc|Hargc]; cbn [negb].
  2:{ eexists _, _. split; [reflexivity|].
      repeat split; try tauto; try lia; try (intros; lia);
        try (intros (? & _); lia). }
  destruct (input_contents w) as [file|] eqn:Hin.
  2:{ eexists _, _. split; [reflexivity|].
      repeat split; try lia; try (intros; lia); try done;
        try (by intros (_ & (f & Hf & _) & _)). }
  specialize (Hfile file eq_refl).
  rewrite fread_full by (rewrite Hul; apply Z2Nat.id; by vm_compute).
  destruct (decide (DSK_IMAGE_SIZE ≤ Z.of_nat (length file))) as [Hlen|Hlen].
  2:{ destruct (Z.eqb_spec (Z.of_nat (length file)) DSK_IMAGE_SIZE) as [E|E];
        [lia|]. cbn [negb].
      eexists _, _. split; [reflexivity|].
      repeat split; try lia; try (intros; lia);
        try (intros f [= <-]; lia);
        try (intros (_ & (f & [= <-] & Hf) & _); lia). }
  rewrite Z.eqb_refl. cbn [negb].
  destruct (main_layout uninit Hul Hub (take (Z.to_nat DSK_IMAGE_SIZE) file)
              (sector_format_of_name argv1))
    as (td & info & tmap & trks & writ & woz & _ & _ & _ & _ & _ & Hmain
        & Hwl & _).
  { rewrite length_take. unfold DSK_IMAGE_SIZE, BYTES_PER_TRACK,
      SECTORS_PER_TRACK, BYTES_PER_SECTOR, TRACKS_PER_DISK in *. lia. }
  { by apply Forall_take. }
  rewrite Hmain. cbn [mbind option_bind]. rewrite Hwl.
  assert (∃ f, Some file = Some f ∧ DSK_IMAGE_SIZE ≤ Z.of_nat (length f))
    as Hex by (by exists file).
  assert (¬ ∀ f, Some file = Some f → Z.of_nat (length f) < DSK_IMAGE_SIZE)
    as Hnall by (intros Hall; specialize (Hall file eq_refl); lia).
  destruct (output_opens w) eqn:Hopen; cbn [negb].
  2:{ eexists _, _. split; [reflexivity|].
      repeat split; try lia; try (intros; lia); try done;
        try (by intros (_ & Hall)); try (by intros (_ & _ & ? & _)). }
  destruct (Z.eqb_spec (fwrite_count w) 235204) as [Hfw|Hfw]; cbn [negb].
  - eexists _, _. split; [reflexivity|].
    repeat split; try lia; try (intros; lia); try done;
      try (by intros (_ & Hall)); try (by intros (_ & _ & _ & ?)).
    intros _. exists file, woz. done.
  - eexists _, _. split; [reflexivity|].
    repeat split; try lia; try (intros; lia); try done;
      try (by intros (_ & Hall)); try (by intros (_ & _ & _ & ?)).
Qed.

Lemma run_exit_status_witness :
  ∃ code out,
    run (λ n, replicate n 0) 3 [97; 46; 112; 111]
      {| input_contents := Some (replicate (Z.to_nat DSK_IMAGE_SIZE) 0);
         output_opens := true;
         fwrite_count := 235204 |}
    = Some (code, out)
    ∧ code = 0.
Proof.
  destruct (run_exit_status (λ n, replicate n 0) 3 [97; 46; 112; 111]
              {| input_contents := Some (replicate (Z.to_nat DSK_IMAGE_SIZE) 0);
                 output_opens := true;
                 fwrite_count := 235204 |})
    as (code & out & Hrun & _ & _ & _ & _ & Hzero & _).
  - intros n. apply length_replicate.
  - intros n. apply Forall_replicate. unfold is_byte. lia.
  - intros file Hfile. cbn [input_contents] in Hfile.
    apply (inj Some) in Hfile. rewrite <- Hfile.
    apply Forall_replicate. unfold is_byte. lia.
  - exists code, out. split; [exact Hrun|].
    apply Hzero. split; [reflexivity|]. split; [|split; reflexivity].
    exists (replicate (Z.to_nat DSK_IMAGE_SIZE) 0). split; [reflexivity|].
    rewrite length_replicate, Z2Nat.id by (by vm_compute). apply Z.le_refl.
Defined.

(** X22. The program does not reject an input file that is too long: it
    reads the first 143,360 bytes and never looks at the rest, so a file
    with anything appended gives the same exit status and the same output
    as the file itself. *)
Theorem run_ignores_input_tail (uninit : nat → list Z) (argc : Z)
    (argv1 : list Z) (file extra : list Z) (opens : bool) (count : Z) :
  (∀ n, length (uninit n) = n) →
  Z.of_nat (length file) = DSK_IMAGE_SIZE →
  run uninit argc argv1
    {| input_contents := Some (file ++ extra);
       output_opens := opens; fwrite_count := count |}
  = run uninit argc argv1
      {| input_contents := Some file;
         output_opens := opens; fwrite_count := count |}.
Proof.
  intros Hul Hfile. unfold run. cbn [input_contents output_opens fwrite_count].
  destruct (negb (argc =? 3)); [done|].
  rewrite !fread_full by (rewrite Hul; apply Z2Nat.id; by vm_compute).
  rewrite length_app.
  destruct (decide (DSK_IMAGE_SIZE ≤ Z.of_nat (length file + length extra)));
    [|lia].
  destruct (decide (DSK_IMAGE_SIZE ≤ Z.of_nat (length file))); [|lia].
  rewrite take_app_le by lia. done.
Qed.

Lemma run_ignores_input_tail_witness :
  run (λ n, replicate n 0) 3 [97; 46; 100; 115; 107]
    {| input_contents :=
         Some (replicate (Z.to_nat DSK_IMAGE_SIZE) 0xE5 ++ [1; 2; 3]);
       output_opens := true; fwrite_count := 235204 |}
  = run (λ n, replicate n 0) 3 [97; 46; 100; 115; 107]
      {| input_contents := Some (replicate (Z.to_nat DSK_IMAGE_SIZE) 0xE5);
         output_opens := true; fwrite_count := 235204 |}.
Proof.
  apply (run_ignores_input_tail (λ n, replicate n 0) 3 [97; 46; 100; 115; 107]
           (replicate (Z.to_nat DSK_IMAGE_SIZE) 0xE5) [1; 2; 3] true 235204).
  - intros n. apply length_replicate.
  - rewrite length_replicate. apply Z2Nat.id. by vm_compute.
Defined.

(** ** Bounds of the bit writer, and the sync word *)

(** X23. [bits_write_byte] stays inside the buffer exactly when the byte
    that holds bit [index] exists and, for an index that is not a multiple
    of 8, the next byte exists too: an unaligned write reads and writes the
    second byte even when no one bit spills into it, and an aligned write
    into the last byte is in bounds. *)
Theorem bits_write_byte_in_bounds_iff (buffer : list Z) (index value : Z) :
  is_Some (bits_write_byte buffer index value)
  ↔ 0 ≤ index
    ∧ index / 8 + (if index mod 8 =? 0 then 1 else 2)
      ≤ Z.of_nat (length buffer).
Proof.
  unfold bits_write_byte. rewrite shiftr3_div, land7_mod. cbv zeta. split.
  - intros [r Hr].
    destruct (load buffer (index / 8)) as [old|] eqn:Hold; [|done].
    apply load_bound in Hold. cbn [mbind option_bind] in Hr.
    destruct (store buffer (index / 8) _) as [b1|] eqn:Hs1; [|done].
    apply store_length in Hs1. cbn [mbind option_bind] in Hr.
    destruct (Z.eqb_spec (index mod 8) 0) as [Hm|Hm]; [lia|].
    destruct (load b1 (index / 8 + 1)) as [old1|] eqn:Hold1; [|done].
    apply load_bound in Hold1. lia.
  - intros [H0 Hlen].
    destruct (load_Some buffer (index / 8)) as [old ->].
    { destruct (index mod 8 =? 0); lia. }
    cbn [mbind option_bind].
    rewrite store_Some by (destruct (index mod 8 =? 0); lia).
    cbn [mbind option_bind].
    destruct (Z.eqb_spec (index mod 8) 0) as [Hm|Hm]; [done|].
    destruct (load_Some (<[Z.to_nat (index / 8) :=
                            to_uint8 (Z.lor old (Z.shiftr value (index mod 8)))]>
                           buffer) (index / 8 + 1)) as [old1 ->].
    { rewrite length_insert. lia. }
    cbn [mbind option_bind].
    rewrite store_Some by (rewrite length_insert; lia). done.
Qed.

Lemma lor_255_byte (x : Z) : is_byte x → Z.lor x 255 = 255.
Proof.
  intros Hx. apply Z.bits_inj'. intros k Hk. rewrite Z.lor_spec.
  destruct (decide (k < 8)).
  - change 255 with (Z.ones 8). rewrite Z.ones_spec_low by lia.
    apply orb_true_r.
  - rewrite (byte_testbit_high x) by (done || lia). done.
Qed.

(** X24. A sync word takes ten bit positions and writes eight of them:
    [bits_write_sync] sets the eight bits from [index], leaves every other
    bit of the buffer as it was, the two bits after them included, and
    returns [index + 10]. *)
Theorem bits_write_sync_ten_bits (buffer : list Z) (index : Z) :
  0 ≤ index →
  index + 8 ≤ 8 * Z.of_nat (length buffer) →
  ∃ buffer',
    bits_write_sync buffer index = Some (buffer', index + 10)
    ∧ length buffer' = length buffer
    ∧ bits_read_byte buffer' index = 0xFF
    ∧ (∀ p, index ≤ p < index + 8 → buf_bit buffer' p = true)
    ∧ (∀ p, p < index ∨ index + 8 ≤ p →
         buf_bit buffer' p = buf_bit buffer p).
Proof.
  intros H0 Hcap. unfold bits_write_sync.
  destruct (bits_write_byte_read buffer index 255 H0 Hcap)
    as (b' & -> & Hl & _ & Hread & Hframe & _); [unfold is_byte; lia|].
  cbn [mbind option_bind]. exists b'.
  split; [f_equal; f_equal; lia|]. split; [exact Hl|].
  rewrite lor_255_byte in Hread by apply bits_read_byte_byte.
  split; [exact Hread|]. split; [|exact Hframe].
  intros p Hp.
  pose proof (bits_read_byte_testbit b' index (index + 7 - p) ltac:(lia))
    as Hbit.
  rewrite Hread in Hbit.
  replace (index + 7 - (index + 7 - p)) with p in Hbit by lia.
  destruct (Z.ltb_spec (index + 7 - p) 8); [|lia].
  cbn [andb] in Hbit. rewrite <- Hbit. change 255 with (Z.ones 8).
  apply Z.ones_spec_low. lia.
Qed.

Lemma bits_write_sync_ten_bits_witness :
  ∃ buffer',
    bits_write_sync [0; 0; 0] 3 = Some (buffer', 3 + 10)
    ∧ bits_read_byte buffer' 3 = 0xFF
    ∧ buf_bit buffer' (3 + 8) = false.
Proof.
  destruct (bits_write_sync_ten_bits [0; 0; 0] 3)
    as (b' & Hw & _ & Hread & _ & Hframe).
  - lia.
  - simpl. lia.
  - exists b'. split; [exact Hw|]. split; [exact Hread|].
    rewrite Hframe by lia. reflexivity.
Defined.

(** ** The CRC table and the INFO chunk *)

(** X25. The table [crc32_tab] has 256 entries, and entry [i] is [i] taken
    through eight steps of the bit-by-bit CRC with the reflected polynomial
    0xEDB88320; every entry fits 32 bits. *)
Theorem crc32_tab_entries (i : Z) :
  0 ≤ i < 256 →
  length crc32_tab = 256%nat
  ∧ load crc32_tab i = Some (Nat.iter 8 crc_bit_step i)
  ∧ 0 ≤ Nat.iter 8 crc_bit_step i < 2 ^ 32.
Proof.
  intros Hi. split; [reflexivity|]. by apply crc32_tab_load.
Qed.

Lemma crc32_tab_entries_witness :
  load crc32_tab 1 = Some (Nat.iter 8 crc_bit_step 1)
  ∧ load crc32_tab 1 = Some 0x77073096.
Proof.
  destruct (crc32_tab_entries 1) as (_ & Hload & _); [lia|].
  split; [exact Hload|reflexivity].
Defined.

(** X26. The INFO chunk is named INFO and has 60 payload bytes: version 2,
    disk type 1, write protected 0, synchronized 0, cleaned 1, the creator
    [dsk2woz2] padded with spaces to 32 bytes, one disk side, boot sector
    format 1, bit timing 32, the 16-bit fields compatible hardware 0,
    required RAM 0 and largest track 13 blocks, and 14 zero bytes. *)
Theorem info_chunk_fields :
  ∃ chunk,
    create_info_chunk = Some chunk
    ∧ name chunk = tag_INFO
    ∧ data_length chunk = 60
    ∧ data chunk
      = [2; 1; 0; 0; 1] ++ CREATOR_NAME ++ replicate 24 0x20
        ++ [1; 1; 32] ++ [0; 0] ++ [0; 0] ++ [BITS_BLOCKS_PER_TRACK; 0]
        ++ replicate 14 0
    ∧ le16 (data chunk) 44 = Some BITS_BLOCKS_PER_TRACK.
Proof.
  eexists. split; [by vm_compute|]. by vm_compute.
Qed.
